(** * spikingjelly.datasets: event decoding, segmentation and frame integration

    A shallow embedding of the array code of
    [spikingjelly/datasets/__init__.py]: the ATIS binary decoder, the frame
    padder, the per-segment frame integrator, the fixed-frames-number
    segmentation planner and the fixed-duration binner.

    Conventions.
    - A Python [int] and every element of an integer [numpy] array is a [Z].
      The arrays of an event record hold sensor coordinates and microsecond
      timestamps; the arithmetic on them ([y * W + x], [t[right] - t_l],
      [dt * i + t[0]]) stays far below the 64-bit range whenever the frame
      [2 * H * W] itself can be allocated, so no wrap-around is written out
      for it.  The decoder [load_ATIS_bin] works on [uint32] values and its
      shifts are written with the 32-bit wrap-around.
    - A one-dimensional array is a [list]; an array of shape [[2, H * W]] is
      a list of rows, one of shape [[2, H, W]] a list of lists of rows.
    - [np.zeros] yields [float64] cells; they only ever hold event counts,
      which [float64] represents exactly, and are modelled by [Z].
    - A Python exception is the [Raise] branch of [result]. *)

From Stdlib Require Import Strings.String Strings.Byte.
From Stdlib Require Import ZArith List Bool Lia Sorted.
Import ListNotations.
Open Scope Z_scope.

(** ** Exceptions *)

Inductive exn : Type :=
| IndexError
| ValueError
| ZeroDivisionError
| NotImplementedError.

Inductive result (A : Type) : Type :=
| Ok (a : A)
| Raise (e : exn).

Arguments Ok {A} a.
Arguments Raise {A} e.

Definition bind {A B : Type} (m : result A) (k : A -> result B) : result B :=
  match m with
  | Ok a => k a
  | Raise e => Raise e
  end.

Notation "x <- m ;; k" := (bind m (fun x => k))
  (at level 61, m at next level, right associativity).
Notation "' pat <- m ;; k" := (bind m (fun x => match x with pat => k end))
  (at level 61, pat pattern, m at next level, right associativity).

(** [for i in range(n): s = body(i, s)], stopping at the first exception. *)
Fixpoint for_each {S : Type} (body : Z -> S -> result S) (idx : list Z) (s : S)
  : result S :=
  match idx with
  | [] => Ok s
  | i :: idx' => s' <- body i s ;; for_each body idx' s'
  end.

Definition range (n : Z) : list Z := map Z.of_nat (seq 0 (Z.to_nat n)).

Definition for_range {S : Type} (n : Z) (body : Z -> S -> result S) (s : S)
  : result S :=
  for_each body (range n) s.

(** ** The numpy operations the module uses *)

Module Np.

Definition size {A : Type} (a : list A) : Z := Z.of_nat (length a).

(** [np.zeros(shape=[n])]; a negative dimension is a [ValueError]. *)
Definition zeros (n : Z) : result (list Z) :=
  if n <? 0 then Raise ValueError else Ok (repeat 0 (Z.to_nat n)).

(** [np.zeros(shape=[r, n])]. *)
Definition zeros2 (r n : Z) : result (list (list Z)) :=
  if (r <? 0) || (n <? 0) then Raise ValueError
  else Ok (repeat (repeat 0 (Z.to_nat n)) (Z.to_nat r)).

Definition arange (n : Z) : list Z := range n.

(** [a[i]] with Python's negative indices. *)
Definition getitem {A : Type} (a : list A) (i : Z) : result A :=
  let i' := if i <? 0 then i + size a else i in
  if (i' <? 0) || (size a <=? i') then Raise IndexError
  else match nth_error a (Z.to_nat i') with
       | Some v => Ok v
       | None => Raise IndexError
       end.

Fixpoint update {A : Type} (a : list A) (n : nat) (v : A) : list A :=
  match a, n with
  | [], _ => []
  | _ :: a', O => v :: a'
  | u :: a', S n' => u :: update a' n' v
  end.

(** [a[i] = v] with Python's negative indices. *)
Definition setitem {A : Type} (a : list A) (i : Z) (v : A) : result (list A) :=
  let i' := if i <? 0 then i + size a else i in
  if (i' <? 0) || (size a <=? i') then Raise IndexError
  else Ok (update a (Z.to_nat i') v).

(** A bound of the slice [a[lo:hi]]: a negative bound counts from the end,
    and both are clamped to [[0, len]]. *)
Definition slice_bound (len i : Z) : Z :=
  if i <? 0 then Z.max 0 (i + len) else Z.min i len.

(** [a[lo:hi]]. *)
Definition slice {A : Type} (a : list A) (lo hi : Z) : list A :=
  let lo' := slice_bound (size a) lo in
  let hi' := slice_bound (size a) hi in
  firstn (Z.to_nat (hi' - lo')) (skipn (Z.to_nat lo') a).

(** [a[k::step]]: the elements at [k], [k + step], [k + 2 * step], ...;
    [skip] counts the elements to pass over before the next one taken. *)
Fixpoint strided {A : Type} (step skip : nat) (a : list A) : list A :=
  match a with
  | [] => []
  | v :: a' =>
      match skip with
      | O => v :: strided step (step - 1) a'
      | S k => strided step k a'
      end
  end.

(** [a[mask]] for a boolean [mask]; the lengths must agree. *)
Fixpoint select {A : Type} (a : list A) (mask : list bool) : list A :=
  match a, mask with
  | v :: a', b :: mask' => if b then v :: select a' mask' else select a' mask'
  | _, _ => []
  end.

Definition bool_index {A : Type} (a : list A) (mask : list bool)
  : result (list A) :=
  if (length a =? length mask)%nat then Ok (select a mask)
  else Raise IndexError.

Fixpoint zip_with {A B C : Type} (f : A -> B -> C) (a : list A) (b : list B)
  : list C :=
  match a, b with
  | u :: a', v :: b' => f u v :: zip_with f a' b'
  | _, _ => []
  end.

(** An elementwise binary operation on two one-dimensional arrays, with
    numpy's broadcasting of an array of length one. *)
Definition broadcast (f : Z -> Z -> Z) (a b : list Z) : result (list Z) :=
  if (length a =? length b)%nat then Ok (zip_with f a b)
  else match a, b with
       | [u], _ => Ok (map (f u) b)
       | _, [v] => Ok (map (fun u => f u v) a)
       | _, _ => Raise ValueError
       end.

(** [a * k] for a scalar [k]. *)
Definition scale (a : list Z) (k : Z) : list Z := map (fun v => v * k) a.

Definition count (v : Z) (a : list Z) : Z :=
  Z.of_nat (count_occ Z.eq_dec a v).

(** [np.bincount(a)]: a negative entry is a [ValueError]; otherwise the
    result has [max(a) + 1] cells (none for an empty [a]) and cell [v]
    counts the occurrences of [v]. *)
Definition bincount (a : list Z) : result (list Z) :=
  if existsb (fun v => v <? 0) a then Raise ValueError
  else
    let size := fold_right Z.max (-1) a + 1 in
    Ok (map (fun v => count v a) (range size)).

(** [row[np.arange(len(v))] += v]: the indices are distinct, so this adds
    [v] onto the first [len(v)] cells; an index past the row is an
    [IndexError]. *)
Definition iadd_arange (row v : list Z) : result (list Z) :=
  if (length row <? length v)%nat then Raise IndexError
  else Ok (zip_with Z.add (firstn (length v) row) v ++ skipn (length v) row).

(** The rows of width [w] of a flat array: [h] of them. *)
Fixpoint rows (h w : nat) (a : list Z) : list (list Z) :=
  match h with
  | O => []
  | S h' => firstn w a :: rows h' w (skipn w a)
  end.

(** [frame.reshape((2, H, W))] of a [[2, H * W]] array.  A negative [H] or
    [W] never describes the shape of the [2 * H * W] cells. *)
Definition reshape_2HW (frame : list (list Z)) (H W : Z)
  : result (list (list (list Z))) :=
  if (H <? 0) || (W <? 0) then Raise ValueError
  else Ok (map (rows (Z.to_nat H) (Z.to_nat W)) frame).

(** [a // b] on Python integers. *)
Definition floordiv (a b : Z) : result Z :=
  if b =? 0 then Raise ZeroDivisionError else Ok (a / b).

End Np.

(** ** Event records *)

(** The dict with keys ['t'], ['x'], ['y'], ['p']. *)
Record Events : Type := mkEvents {
  ev_t : list Z;
  ev_x : list Z;
  ev_y : list Z;
  ev_p : list Z
}.

Definition Frame : Type := list (list (list Z)).

(** ** [integrate_events_segment_to_frame] *)

Definition integrate_events_segment_to_frame
  (events : Events) (H W : Z) (j_l j_r : Z) : result Frame :=
  frame <- Np.zeros2 2 (H * W) ;;
  let x := Np.slice (ev_x events) j_l j_r in
  let y := Np.slice (ev_y events) j_l j_r in
  let p := Np.slice (ev_p events) j_l j_r in
  let mask0 := map (fun v => v =? 0) p in
  let mask := [mask0; map negb mask0] in
  frame <- for_range 2 (fun c frame =>
    m <- Np.getitem mask c ;;
    ym <- Np.bool_index y m ;;
    xm <- Np.bool_index x m ;;
    position <- Np.broadcast Z.add (Np.scale ym W) xm ;;
    events_number_per_pos <- Np.bincount position ;;
    row <- Np.getitem frame c ;;
    row' <- Np.iadd_arange row events_number_per_pos ;;
    Np.setitem frame c row') frame ;;
  Np.reshape_2HW frame H W.

(** The call with the default arguments [j_l = 0], [j_r = -1]. *)
Definition integrate_events_segment_to_frame_default
  (events : Events) (H W : Z) : result Frame :=
  integrate_events_segment_to_frame events H W 0 (-1).

(** ** [load_ATIS_bin] *)

(** A [uint32] left shift: the bits shifted past bit 31 are lost. *)
Definition shl32 (v n : Z) : Z := Z.land (Z.shiftl v n) 0xFFFFFFFF.

(** [np.uint32(np.fromfile(bin_f, dtype=np.uint8))] *)
Definition uint32_of_bytes (file : list byte) : list Z :=
  map (fun b => Z.of_N (Byte.to_N b)) file.

(** The decoder, from the bytes of the file. *)
Definition load_ATIS_bin (file : list byte) : result Events :=
  let raw_data := uint32_of_bytes file in
  let x := Np.strided 5 0 raw_data in
  let y := Np.strided 5 1 raw_data in
  let rd_2__5 := Np.strided 5 2 raw_data in
  let p := map (fun v => Z.shiftr (Z.land v 128) 7) rd_2__5 in
  t_hi <- Np.broadcast Z.lor
            (map (fun v => shl32 (Z.land v 127) 16) rd_2__5)
            (map (fun v => shl32 v 8) (Np.strided 5 3 raw_data)) ;;
  t <- Np.broadcast Z.lor t_hi (Np.strided 5 4 raw_data) ;;
  Ok (mkEvents t x y p).

(** ** [PadFrames] *)

(** A frame sequence: an array of shape [[T, shape1, shape2, shape3]], whose
    first dimension [T] is the number of frames it holds. *)
Record FrameSeq : Type := mkFrameSeq {
  shape1 : nat;
  shape2 : nat;
  shape3 : nat;
  frames_of : list Frame
}.

Definition shape0 (a : FrameSeq) : Z := Np.size (frames_of a).

Definition zero_frame (c h w : nat) : Frame := repeat (repeat (repeat 0 w) h) c.

(** [np.zeros([n, c, h, w])] *)
Definition zeros4 (n : Z) (c h w : nat) : result FrameSeq :=
  if n <? 0 then Raise ValueError
  else Ok (mkFrameSeq c h w (repeat (zero_frame c h w) (Z.to_nat n))).

(** [np.concatenate((a, b), 0)]: the other dimensions must agree. *)
Definition concatenate0 (a b : FrameSeq) : result FrameSeq :=
  if ((shape1 a =? shape1 b) && (shape2 a =? shape2 b)
      && (shape3 a =? shape3 b))%nat
  then Ok (mkFrameSeq (shape1 a) (shape2 a) (shape3 a)
             (frames_of a ++ frames_of b))
  else Raise ValueError.

Record PadFrames : Type := mkPadFrames { max_frames_number : Z }.

(** [PadFrames.__call__] *)
Definition PadFrames_call (self : PadFrames) (frames : FrameSeq)
  : result FrameSeq :=
  let N := shape0 frames in
  if N <? max_frames_number self then
    padding_frames <- zeros4 (max_frames_number self - N)
                        (shape1 frames) (shape2 frames) (shape3 frames) ;;
    concatenate0 frames padding_frames
  else Ok frames.

(** ** [cal_fixed_frames_number_segment_index] *)

Definition cal_fixed_frames_number_segment_index
  (events_t : list Z) (split_by : String.string) (frames_num : Z)
  : result (list Z * list Z) :=
  j_l <- Np.zeros frames_num ;;
  j_r <- Np.zeros frames_num ;;
  let N := Np.size events_t in
  if String.eqb split_by "number"%string then
    di <- Np.floordiv N frames_num ;;
    '(j_l, j_r) <- for_range frames_num (fun i '(j_l, j_r) =>
      j_l <- Np.setitem j_l i (i * di) ;;
      l <- Np.getitem j_l i ;;
      j_r <- Np.setitem j_r i (l + di) ;;
      Ok (j_l, j_r)) (j_l, j_r) ;;
    j_r <- Np.setitem j_r (-1) N ;;
    Ok (j_l, j_r)
  else if String.eqb split_by "time"%string then
    t_last <- Np.getitem events_t (-1) ;;
    t_first <- Np.getitem events_t 0 ;;
    dt <- Np.floordiv (t_last - t_first) frames_num ;;
    let idx := Np.arange N in
    '(j_l, j_r) <- for_range frames_num (fun i '(j_l, j_r) =>
      t_0 <- Np.getitem events_t 0 ;;
      let t_l := dt * i + t_0 in
      let t_r := t_l + dt in
      let mask := map (fun v => (t_l <=? v) && (v <? t_r)) events_t in
      idx_masked <- Np.bool_index idx mask ;;
      first <- Np.getitem idx_masked 0 ;;
      j_l <- Np.setitem j_l i first ;;
      last <- Np.getitem idx_masked (-1) ;;
      j_r <- Np.setitem j_r i (last + 1) ;;
      Ok (j_l, j_r)) (j_l, j_r) ;;
    j_r <- Np.setitem j_r (-1) N ;;
    Ok (j_l, j_r)
  else Raise NotImplementedError.

(** ** [integrate_events_by_fixed_duration] *)

(** The two [while True] loops of the binner, with [fuel] bounding the
    number of iterations of each; [None] is a loop that has not returned
    within the fuel.  [segment left right] is what the loop body does with
    the window [[left, right)]. *)
Section DurationLoop.

Context {A : Type}.
Variable t : list Z.
Variable duration : Z.
Variable segment : Z -> Z -> result A.

Let N := Np.size t.

(** The inner loop: advance [right] until it reaches [N] or the event at
    [right] lies more than [duration] after [t_l]. *)
Fixpoint extend_right (fuel : nat) (t_l right : Z) : option (result Z) :=
  match fuel with
  | O => None
  | S fuel' =>
      if right =? N then Some (Ok right)
      else match Np.getitem t right with
           | Raise e => Some (Raise e)
           | Ok t_right =>
               if t_right - t_l >? duration then Some (Ok right)
               else extend_right fuel' t_l (right + 1)
           end
  end.

(** The outer loop. *)
Fixpoint bin_loop (fuel : nat) (left right : Z) (frames : list A)
  : option (result (list A)) :=
  match fuel with
  | O => None
  | S fuel' =>
      match Np.getitem t left with
      | Raise e => Some (Raise e)
      | Ok t_l =>
          match extend_right fuel' t_l right with
          | None => None
          | Some (Raise e) => Some (Raise e)
          | Some (Ok right') =>
              match segment left right' with
              | Raise e => Some (Raise e)
              | Ok frame =>
                  let frames' := frames ++ [frame] in
                  if right' =? N then Some (Ok frames')
                  else bin_loop fuel' right' right' frames'
              end
          end
      end
  end.

End DurationLoop.

(** The binner: each window is integrated into a frame. *)
Definition integrate_events_by_fixed_duration
  (fuel : nat) (events : Events) (duration H W : Z)
  : option (result (list Frame)) :=
  bin_loop (ev_t events) duration
    (integrate_events_segment_to_frame events H W) fuel 0 0 [].

(** The windows [[left, right)] the binner integrates, in the order it
    produces them: the same loop, recording the window instead. *)
Definition fixed_duration_segments (fuel : nat) (t : list Z) (duration : Z)
  : option (result (list (Z * Z))) :=
  bin_loop t duration (fun left right => Ok (left, right)) fuel 0 0 [].

(** * Notions used to state the properties *)

Definition sum (a : list Z) : Z := fold_right Z.add 0 a.

(** [a[i]] for an index known to be in range. *)
Definition at_ (a : list Z) (i : Z) : Z := nth (Z.to_nat i) a 0.

(** The flattened pixel indices of the events a mask selects. *)
Definition positions (y x : list Z) (W : Z) (m : list bool) : list Z :=
  Np.zip_with Z.add (Np.scale (Np.select y m) W) (Np.select x m).

(** The invariants of an event record for a sensor of [H] by [W] pixels:
    four arrays of one length, coordinates inside the sensor, polarity 0 or
    1. *)
Record EventRecord (events : Events) (H W : Z) : Prop := mkEventRecord {
  er_x_len : length (ev_x events) = length (ev_t events);
  er_y_len : length (ev_y events) = length (ev_t events);
  er_p_len : length (ev_p events) = length (ev_t events);
  er_x : Forall (fun v => 0 <= v < W) (ev_x events);
  er_y : Forall (fun v => 0 <= v < H) (ev_y events);
  er_p : Forall (fun v => v = 0 \/ v = 1) (ev_p events)
}.

(** The number [N] of events. *)
Definition events_number (events : Events) : Z := Np.size (ev_t events).

(** Event [i] has polarity [c] and lies at pixel [(y0, x0)]. *)
Definition event_in_cell (events : Events) (c y0 x0 : Z) (i : nat) : bool :=
  (nth i (ev_p events) 0 =? c) && (nth i (ev_y events) 0 =? y0)
  && (nth i (ev_x events) 0 =? x0).

(** The number of events with an index in [[j_l, j_r)] in that cell. *)
Definition segment_count (events : Events) (j_l j_r c y0 x0 : Z) : Z :=
  Z.of_nat (length (filter (event_in_cell events c y0 x0)
                      (seq (Z.to_nat j_l) (Z.to_nat (j_r - j_l))))).

(** [frame[c, y0, x0]] *)
Definition cell (frame : Frame) (c y0 x0 : Z) : Z :=
  nth (Z.to_nat x0) (nth (Z.to_nat y0) (nth (Z.to_nat c) frame []) []) 0.

(** [frame.sum()] *)
Definition frame_total (frame : Frame) : Z :=
  sum (map (fun channel => sum (map sum channel)) frame).

(** The shape of a frame is [[2, H, W]]. *)
Definition has_shape (frame : Frame) (H W : Z) : Prop :=
  length frame = 2%nat /\
  Forall (fun channel =>
            length channel = Z.to_nat H /\
            Forall (fun row => length row = Z.to_nat W) channel) frame.

Definition all_cells (P : Z -> Prop) (frame : Frame) : Prop :=
  Forall (Forall (Forall P)) frame.

Definition u8 (b : byte) : Z := Z.of_N (Byte.to_N b).

(** The five bytes of one event, in file order. *)
Definition record_bytes (r : byte * byte * byte * byte * byte) : list byte :=
  let '(b0, b1, b2, b3, b4) := r in [b0; b1; b2; b3; b4].

(** The number of timestamps below [v]; in a non-decreasing array this is
    the first index whose timestamp is at least [v]. *)
Definition rank (t : list Z) (v : Z) : nat :=
  length (filter (fun u => u <? v) t).

(** The width [dt] of the time windows. *)
Definition window_width (t : list Z) (M : Z) : Z :=
  (at_ t (Np.size t - 1) - at_ t 0) / M.

(** Window [i] holds at least one timestamp. *)
Definition window_nonempty (t : list Z) (M i : Z) : Prop :=
  Exists (fun v => at_ t 0 + window_width t M * i <= v
                   < at_ t 0 + window_width t M * (i + 1)) t.

(** The indices [[l, r)]. *)
Definition zrange (l r : Z) : list Z :=
  map Z.of_nat (seq (Z.to_nat l) (Z.to_nat (r - l))).

(** [segment] applied to each window in turn, up to the first exception. *)
Fixpoint each_segment {A : Type} (segment : Z -> Z -> result A)
  (windows : list (Z * Z)) : result (list A) :=
  match windows with
  | [] => Ok []
  | (l, r) :: rest =>
      frame <- segment l r ;;
      frames <- each_segment segment rest ;;
      Ok (frame :: frames)
  end.

(** The windows the greedy binner cuts from index [left] on: each starts
    where the previous one stops, holds at least one event, keeps every
    timestamp within [duration] of its first one, and stops either at the
    end of the array or at the first event that lies further away. *)
Inductive bins (t : list Z) (duration : Z) : Z -> list (Z * Z) -> Prop :=
| bins_last (left : Z) :
    left < Np.size t ->
    (forall k, left <= k < Np.size t -> at_ t k - at_ t left <= duration) ->
    bins t duration left [(left, Np.size t)]
| bins_cons (left right : Z) (rest : list (Z * Z)) :
    left < right < Np.size t ->
    (forall k, left <= k < right -> at_ t k - at_ t left <= duration) ->
    duration < at_ t right - at_ t left ->
    bins t duration right rest ->
    bins t duration left ((left, right) :: rest).

(** Every index of the earlier window comes before every index of the
    later one, and so does its timestamp. *)
Definition bin_before (t : list Z) (b1 b2 : Z * Z) : Prop :=
  forall i j, fst b1 <= i < snd b1 -> fst b2 <= j < snd b2 ->
              i < j /\ at_ t i <= at_ t j.

(** The largest minus the smallest timestamp of a window is at most
    [duration]: no two of its timestamps differ by more. *)
Definition bin_span_within (t : list Z) (duration : Z) (b : Z * Z) : Prop :=
  forall i j, fst b <= i < snd b -> fst b <= j < snd b ->
              at_ t j - at_ t i <= duration.

(** An event record of four events on a 3 by 3 sensor, two of them at the
    same pixel with the same polarity (the example of the source). *)
Definition example_events : Events :=
  mkEvents [0; 1; 5; 6] [1; 2; 1; 1] [1; 1; 1; 2] [0; 1; 0; 1].

(** * Further functions of the module *)

(** ** [integrate_events_by_fixed_frames_number] *)

(** [np.zeros([n, 2, H, W])] *)
Definition zeros_frames (n H W : Z) : result (list Frame) :=
  if (n <? 0) || (H <? 0) || (W <? 0) then Raise ValueError
  else Ok (repeat (zero_frame 2 (Z.to_nat H) (Z.to_nat W)) (Z.to_nat n)).

(** Each segment of the plan is integrated into its frame; the frame has
    the shape [[2, H, W]] of the slot [frames[i]] it is stored in. *)
Definition integrate_events_by_fixed_frames_number
  (events : Events) (split_by : String.string) (frames_num H W : Z)
  : result (list Frame) :=
  '(j_l, j_r) <- cal_fixed_frames_number_segment_index
                   (ev_t events) split_by frames_num ;;
  frames <- zeros_frames frames_num H W ;;
  for_range frames_num (fun i frames =>
    l <- Np.getitem j_l i ;;
    r <- Np.getitem j_r i ;;
    frame <- integrate_events_segment_to_frame events H W l r ;;
    Np.setitem frames i frame) frames.

(** ** The running maximum of [NeuromorphicDatasetFolder.__init__]

    [self.max_frames_number = 0], then
    [self.max_frames_number = max(self.max_frames_number, future.result())]
    for the frame count each converted file reports. *)
Definition reduce_max_frames_number (results : list Z) : Z :=
  fold_left (fun max_frames_number result => Z.max max_frames_number result)
    results 0.

(** ** [load_aedat_v3]

    The file is the list of its bytes; reading moves along it.  The only
    exception the decoder can raise is [struct.error], when a slice handed
    to [struct.unpack] is shorter than its format.  The formats ['H'] and
    ['I'] are read in the byte order of the host, taken little-endian. *)

Module Aedat.

Inductive parse (A : Type) : Type :=
| Parsed (a : A)
| StructError.

Arguments Parsed {A} a.
Arguments StructError {A}.

Definition and_then {A B : Type} (m : parse A) (k : A -> parse B) : parse B :=
  match m with
  | Parsed a => k a
  | StructError => StructError
  end.

(** [struct.unpack('H', b)[0]] *)
Definition unpack_H (b : list byte) : parse Z :=
  match b with
  | [b0; b1] => Parsed (u8 b0 + u8 b1 * 256)
  | _ => StructError
  end.

(** [struct.unpack('I', b)[0]] *)
Definition unpack_I (b : list byte) : parse Z :=
  match b with
  | [b0; b1; b2; b3] =>
      Parsed (u8 b0 + u8 b1 * 256 + u8 b2 * 65536 + u8 b3 * 16777216)
  | _ => StructError
  end.

(** [bin_f.readline()]: the bytes up to and including the first newline,
    and the rest of the file. *)
Fixpoint readline (f : list byte) : list byte * list byte :=
  match f with
  | [] => ([], [])
  | b :: f' =>
      if Byte.eqb b x0a then ([b], f')
      else let '(line, rest) := readline f' in (b :: line, rest)
  end.

(** [bin_f.read(n)], for [0 <= n]: up to [n] bytes, fewer at the end of
    the file, and what is left of the file. *)
Definition read (n : Z) (f : list byte) : list byte * list byte :=
  (firstn (Z.to_nat n) f, skipn (Z.to_nat n) f).

(** [line.startswith(b'#')] *)
Definition startswith_hash (line : list byte) : bool :=
  match line with
  | b :: _ => Byte.eqb b x23
  | [] => false
  end.

(** [b'#!END-HEADER\r\n'] *)
Definition end_header : list byte :=
  list_byte_of_string "#!END-HEADER" ++ [x0d; x0a].

(** The loop that skips the ascii header; it returns what is left of the
    file. *)
Fixpoint skip_header (fuel : nat) (line f : list byte) : option (list byte) :=
  match fuel with
  | O => None
  | S fuel' =>
      if startswith_hash line then
        if list_eq_dec byte_eq_dec line end_header then Some f
        else let '(line', f') := readline f in skip_header fuel' line' f'
      else Some f
  end.

(** The loop over the events of one polarity packet. *)
Fixpoint read_events (fuel : nat) (e_size e_tsoverflow : Z) (data : list byte)
  (counter : Z) (txyp : Events) : option (parse Events) :=
  match fuel with
  | O => None
  | S fuel' =>
      match Np.slice data counter (counter + e_size) with
      | [] => Some (Parsed txyp)
      | _ :: _ =>
          match unpack_I (Np.slice data counter (counter + 4)) with
          | StructError => Some StructError
          | Parsed aer_data =>
              match unpack_I (Np.slice data (counter + 4) (counter + 8)) with
              | StructError => Some StructError
              | Parsed low =>
                  let timestamp := Z.lor low (Z.shiftl e_tsoverflow 31) in
                  let x := Z.land (Z.shiftr aer_data 17) 0x00007FFF in
                  let y := Z.land (Z.shiftr aer_data 2) 0x00007FFF in
                  let pol := Z.land (Z.shiftr aer_data 1) 0x00000001 in
                  read_events fuel' e_size e_tsoverflow data (counter + e_size)
                    (mkEvents (ev_t txyp ++ [timestamp]) (ev_x txyp ++ [x])
                       (ev_y txyp ++ [y]) (ev_p txyp ++ [pol]))
              end
          end
      end
  end.

(** The fields of a packet header, in the order they are unpacked. *)
Definition unpack_header (header : list byte)
  : parse (Z * Z * Z * Z * Z * Z * Z * Z) :=
  and_then (unpack_H (Np.slice header 0 2)) (fun e_type =>
  and_then (unpack_H (Np.slice header 2 4)) (fun e_source =>
  and_then (unpack_I (Np.slice header 4 8)) (fun e_size =>
  and_then (unpack_I (Np.slice header 8 12)) (fun e_offset =>
  and_then (unpack_I (Np.slice header 12 16)) (fun e_tsoverflow =>
  and_then (unpack_I (Np.slice header 16 20)) (fun e_capacity =>
  and_then (unpack_I (Np.slice header 20 24)) (fun e_number =>
  and_then (unpack_I (Np.slice header 24 28)) (fun e_valid =>
  Parsed (e_type, e_source, e_size, e_offset, e_tsoverflow, e_capacity,
          e_number, e_valid))))))))).

(** The loop over the packets. *)
Fixpoint read_packets (fuel : nat) (f : list byte) (txyp : Events)
  : option (parse Events) :=
  match fuel with
  | O => None
  | S fuel' =>
      let '(header, f1) := read 28 f in
      match header with
      | [] => Some (Parsed txyp)
      | _ :: _ =>
          match unpack_header header with
          | StructError => Some StructError
          | Parsed (e_type, e_source, e_size, e_offset, e_tsoverflow,
                    e_capacity, e_number, e_valid) =>
              let data_length := e_capacity * e_size in
              let '(data, f2) := read data_length f1 in
              let counter := 0 in
              if e_type =? 1 then
                match read_events fuel' e_size e_tsoverflow data counter txyp
                with
                | None => None
                | Some StructError => Some StructError
                | Some (Parsed txyp') => read_packets fuel' f2 txyp'
                end
              else read_packets fuel' f2 txyp
          end
      end
  end.

End Aedat.

(** The decoder, from the bytes of the file; [fuel] bounds the iterations
    of each of its loops. *)
Definition load_aedat_v3 (fuel : nat) (file : list byte)
  : option (Aedat.parse Events) :=
  let '(line, f) := Aedat.readline file in
  match Aedat.skip_header fuel line f with
  | None => None
  | Some f' => Aedat.read_packets fuel f' (mkEvents [] [] [] [])
  end.

(** * Notions used to state the further properties *)

(** The four arrays of the record have one length. *)
Definition same_lengths (events : Events) : Prop :=
  length (ev_x events) = length (ev_t events) /\
  length (ev_y events) = length (ev_t events) /\
  length (ev_p events) = length (ev_t events).

(** The channel a polarity value is counted in: 0 for [p == 0], 1 for
    every other value. *)
Definition channel_of (p : Z) : Z := if p =? 0 then 0 else 1.

(** The flattened pixel index [y * W + x] of event [i]. *)
Definition position_of (events : Events) (W : Z) (i : nat) : Z :=
  nth i (ev_y events) 0 * W + nth i (ev_x events) 0.

(** The number of events with an index in [[j_l, j_r)] that are counted in
    channel [c] at the flattened index [v]. *)
Definition flat_count (events : Events) (W j_l j_r c v : Z) : Z :=
  Z.of_nat (length (filter
    (fun i => (channel_of (nth i (ev_p events) 0) =? c)
              && (position_of events W i =? v))
    (seq (Z.to_nat j_l) (Z.to_nat (j_r - j_l))))).

(** A record of two events on a 3 by 3 sensor whose coordinates and
    polarity are not those of an event record: the first has [x = W] and
    polarity 2. *)
Definition stray_events : Events :=
  mkEvents [0; 1] [3; 0] [0; 1] [2; 0].


(** The [k] ranges [[j_l[i], j_r[i])] are adjacent and cover [[0, N)]. *)
Definition covers (N k : Z) (j_l j_r : list Z) : Prop :=
  Np.size j_l = k /\ Np.size j_r = k /\
  at_ j_l 0 = 0 /\
  (forall i, 0 <= i < k - 1 -> at_ j_r i = at_ j_l (i + 1)) /\
  at_ j_r (k - 1) = N /\
  (forall i, 0 <= i < k -> 0 <= at_ j_l i <= at_ j_r i /\ at_ j_r i <= N).

(** A small file: two header lines, one polarity packet holding the event
    [x = 5], [y = 7], [p = 1] at time 1000, and one packet of another
    type. *)
Definition example_aedat : list byte :=
  list_byte_of_string "#!AER-DAT3.1" ++ [x0d; x0a]
  ++ list_byte_of_string "#!END-HEADER" ++ [x0d; x0a]
  ++ [x01; x00; x00; x00; x08; x00; x00; x00; x04; x00; x00; x00;
      x00; x00; x00; x00; x01; x00; x00; x00; x01; x00; x00; x00;
      x01; x00; x00; x00]
  ++ [x1e; x00; x0a; x00; xe8; x03; x00; x00]
  ++ [x02; x00; x00; x00; x02; x00; x00; x00; x00; x00; x00; x00;
      x00; x00; x00; x00; x01; x00; x00; x00; x01; x00; x00; x00;
      x01; x00; x00; x00]
  ++ [xff; xff].

(** A 16-bit and a 32-bit field as they lie in an AEDAT file, low byte
    first, and their values. *)
Definition half_bytes (h : byte * byte) : list byte :=
  let '(b0, b1) := h in [b0; b1].

Definition half_value (h : byte * byte) : Z :=
  let '(b0, b1) := h in u8 b0 + u8 b1 * 256.

Definition word_bytes (w : byte * byte * byte * byte) : list byte :=
  let '(b0, b1, b2, b3) := w in [b0; b1; b2; b3].

Definition word_value (w : byte * byte * byte * byte) : Z :=
  let '(b0, b1, b2, b3) := w in
  u8 b0 + u8 b1 * 256 + u8 b2 * 65536 + u8 b3 * 16777216.

(** A packet of an AEDAT file: the eight fields of its 28-byte header and
    its data. *)
Record Packet : Type := mkPacket {
  pk_type : byte * byte;
  pk_source : byte * byte;
  pk_size : byte * byte * byte * byte;
  pk_offset : byte * byte * byte * byte;
  pk_tsoverflow : byte * byte * byte * byte;
  pk_capacity : byte * byte * byte * byte;
  pk_number : byte * byte * byte * byte;
  pk_valid : byte * byte * byte * byte;
  pk_data : list byte
}.

Definition packet_bytes (pk : Packet) : list byte :=
  half_bytes (pk_type pk) ++ half_bytes (pk_source pk)
  ++ word_bytes (pk_size pk) ++ word_bytes (pk_offset pk)
  ++ word_bytes (pk_tsoverflow pk) ++ word_bytes (pk_capacity pk)
  ++ word_bytes (pk_number pk) ++ word_bytes (pk_valid pk)
  ++ pk_data pk.

(** A polarity event in the file: its address word, then the low word of
    its timestamp. *)
Definition PolarityEvent : Type :=
  ((byte * byte * byte * byte) * (byte * byte * byte * byte))%type.

Definition event_bytes (e : PolarityEvent) : list byte :=
  word_bytes (fst e) ++ word_bytes (snd e).

(** A packet of type 1 with events of 8 bytes, holding [events]. *)
Definition polarity_packet (pk : Packet) (events : list PolarityEvent) : Prop :=
  half_value (pk_type pk) = 1 /\
  word_value (pk_size pk) = 8 /\
  word_value (pk_capacity pk) = Z.of_nat (length events) /\
  pk_data pk = flat_map event_bytes events.

(** A packet of another type, with the data its header announces. *)
Definition other_packet (pk : Packet) : Prop :=
  half_value (pk_type pk) <> 1 /\
  Z.of_nat (length (pk_data pk))
  = word_value (pk_capacity pk) * word_value (pk_size pk).

(** A packet together with the polarity events it holds: none for a packet
    of another type. *)
Definition recorded (pe : Packet * list PolarityEvent) : Prop :=
  polarity_packet (fst pe) (snd pe) \/ (other_packet (fst pe) /\ snd pe = []).

(** What one event of a packet adds to the four arrays. *)
Definition append_event (e_tsoverflow : Z) (txyp : Events) (e : PolarityEvent)
  : Events :=
  mkEvents
    (ev_t txyp ++ [Z.lor (word_value (snd e)) (Z.shiftl e_tsoverflow 31)])
    (ev_x txyp ++ [Z.land (Z.shiftr (word_value (fst e)) 17) 0x7FFF])
    (ev_y txyp ++ [Z.land (Z.shiftr (word_value (fst e)) 2) 0x7FFF])
    (ev_p txyp ++ [Z.land (Z.shiftr (word_value (fst e)) 1) 1]).

Definition append_packet (txyp : Events) (pe : Packet * list PolarityEvent)
  : Events :=
  fold_left (append_event (word_value (pk_tsoverflow (fst pe)))) (snd pe) txyp.

(** A line of the ascii header before its last line: it starts with [#],
    ends at its only newline, and is not the end-of-header line. *)
Definition comment_line (line : list byte) : Prop :=
  (exists body, line = x23 :: body ++ [x0a] /\ ~ In x0a body) /\
  line <> Aedat.end_header.

(** The bytes of a file with the given header lines and packets. *)
Definition aedat_file (lines : list (list byte))
  (packets : list (Packet * list PolarityEvent)) : list byte :=
  concat lines ++ Aedat.end_header
  ++ flat_map (fun pe => packet_bytes (fst pe)) packets.

(** The header line and the two packets of [example_aedat]. *)
Definition example_lines : list (list byte) :=
  [list_byte_of_string "#!AER-DAT3.1" ++ [x0d; x0a]].

Definition example_packets : list (Packet * list PolarityEvent) :=
  [(mkPacket (x01, x00) (x00, x00) (x08, x00, x00, x00) (x04, x00, x00, x00)
      (x00, x00, x00, x00) (x01, x00, x00, x00) (x01, x00, x00, x00)
      (x01, x00, x00, x00) [x1e; x00; x0a; x00; xe8; x03; x00; x00],
    [((x1e, x00, x0a, x00), (xe8, x03, x00, x00))]);
   (mkPacket (x02, x00) (x00, x00) (x02, x00, x00, x00) (x00, x00, x00, x00)
      (x00, x00, x00, x00) (x01, x00, x00, x00) (x01, x00, x00, x00)
      (x01, x00, x00, x00) [xff; xff],
    [])].

(** * Properties *)

(** ** The source on small inputs *)

(** The worked example of the source's comment. *)
Example integrate_source_example :
  integrate_events_segment_to_frame
    (mkEvents [0; 0; 0; 0] [1; 2; 1; 1] [1; 1; 1; 2] [0; 1; 0; 1]) 3 3 0 4
  = Ok [ [ [0; 0; 0]; [0; 2; 0]; [0; 0; 0] ];
         [ [0; 0; 0]; [0; 0; 1]; [0; 1; 0] ] ].
Proof. reflexivity. Qed.

Example number_split_example :
  cal_fixed_frames_number_segment_index [0; 1; 2; 3; 4; 5; 6] "number"%string 3
  = Ok ([0; 2; 4], [2; 4; 7]).
Proof. reflexivity. Qed.

Example time_split_example :
  cal_fixed_frames_number_segment_index [0; 1; 2; 3; 4; 5; 6] "time"%string 3
  = Ok ([0; 2; 4], [2; 4; 7]).
Proof. reflexivity. Qed.

Example time_split_empty_window :
  cal_fixed_frames_number_segment_index [0; 1; 9] "time"%string 3 = Raise IndexError.
Proof. reflexivity. Qed.

Example duration_segments_example :
  fixed_duration_segments 6 [0; 1; 5; 6; 20] 3 = Some (Ok [(0, 2); (2, 4); (4, 5)]).
Proof. reflexivity. Qed.

Example load_ATIS_example :
  load_ATIS_bin [x0a; x14; x85; x00; x7f]
  = Ok (mkEvents [327807] [10] [20] [1]).
Proof. reflexivity. Qed.

(** ** Lists, indices and sums *)

Lemma sum_app (a b : list Z) : sum (a ++ b) = sum a + sum b.
Proof. induction a as [|u a IH]; simpl; lia. Qed.

Lemma sum_repeat_zero (n : nat) : sum (repeat 0 n) = 0.
Proof. induction n; simpl; lia. Qed.

Lemma sum_map_add {A : Type} (f g : A -> Z) (l : list A) :
  sum (map (fun v => f v + g v) l) = sum (map f l) + sum (map g l).
Proof. induction l as [|u l IH]; simpl; lia. Qed.

Lemma sum_map_zero {A : Type} (f : A -> Z) (l : list A) :
  (forall v, In v l -> f v = 0) -> sum (map f l) = 0.
Proof.
  induction l as [|u l IH]; simpl; intros Hz; [reflexivity|].
  rewrite (Hz u), IH by auto. reflexivity.
Qed.

Lemma sum_nonneg (a : list Z) : Forall (fun v => 0 <= v) a -> 0 <= sum a.
Proof. induction 1; simpl; lia. Qed.

Lemma range_length (n : Z) : length (range n) = Z.to_nat n.
Proof. unfold range. now rewrite length_map, length_seq. Qed.

Lemma range_nth (n i : Z) : 0 <= i < n -> at_ (range n) i = i.
Proof.
  intros Hi. unfold at_, range.
  rewrite (nth_indep _ 0 (Z.of_nat 0)) by (rewrite length_map, length_seq; lia).
  rewrite map_nth, seq_nth by lia. lia.
Qed.

Lemma range_In (n v : Z) : In v (range n) <-> 0 <= v < n.
Proof.
  unfold range. rewrite in_map_iff. split.
  - intros (k & <- & Hk). apply in_seq in Hk. lia.
  - intros Hv. exists (Z.to_nat v). split; [lia|]. apply in_seq. lia.
Qed.

Lemma range_succ (n : Z) : 0 <= n -> range (n + 1) = range n ++ [n].
Proof.
  intros Hn. unfold range.
  replace (Z.to_nat (n + 1)) with (Z.to_nat n + 1)%nat by lia.
  rewrite seq_app, map_app. simpl. now rewrite Z2Nat.id.
Qed.

(** Exactly one cell of [range n] equals an in-range value. *)
Lemma sum_indicator (n x : Z) :
  0 <= x < n -> sum (map (fun v => if Z.eq_dec x v then 1 else 0) (range n)) = 1.
Proof.
  intros Hx. assert (Hn : 0 <= n) by lia. revert x Hx.
  pattern n. apply natlike_ind; [intros; lia| |exact Hn].
  clear n Hn. intros n Hn IH x Hx. unfold Z.succ.
  rewrite range_succ, map_app, sum_app by exact Hn. simpl.
  destruct (Z.eq_dec x n) as [->|Hne].
  - rewrite sum_map_zero; [lia|]. intros v Hv. apply range_In in Hv.
    destruct (Z.eq_dec n v); [lia|reflexivity].
  - rewrite IH by lia. lia.
Qed.

Lemma count_cons (v u : Z) (a : list Z) :
  Np.count v (u :: a) = (if Z.eq_dec u v then 1 else 0) + Np.count v a.
Proof. unfold Np.count. simpl. destruct (Z.eq_dec u v); lia. Qed.

Lemma count_nonneg (v : Z) (a : list Z) : 0 <= Np.count v a.
Proof. unfold Np.count. lia. Qed.

Lemma count_absent (v : Z) (a : list Z) : ~ In v a -> Np.count v a = 0.
Proof.
  intros Hn. unfold Np.count.
  now rewrite (proj1 (count_occ_not_In Z.eq_dec a v) Hn).
Qed.

(** The histogram over [[0, n)] of values that all lie in [[0, n)] sums to
    their number. *)
Lemma sum_histogram (n : Z) (a : list Z) :
  Forall (fun v => 0 <= v < n) a ->
  sum (map (fun v => Np.count v a) (range n)) = Np.size a.
Proof.
  unfold Np.size. induction 1 as [|u a Hu Ha IH]; simpl length.
  - apply sum_map_zero. reflexivity.
  - rewrite (map_ext _ (fun v => (if Z.eq_dec u v then 1 else 0) + Np.count v a))
      by (intros; apply count_cons).
    rewrite sum_map_add, sum_indicator, IH by exact Hu. lia.
Qed.

(** ** The numpy operations *)

Lemma map_nth_seq {A : Type} (a : list A) (d : A) (s n : nat) :
  (s + n <= length a)%nat ->
  map (fun i => nth i a d) (seq s n) = firstn n (skipn s a).
Proof.
  revert s n. induction a as [|u a IH]; intros s n Hl; simpl in Hl.
  - assert (s = 0%nat) by lia. assert (n = 0%nat) by lia. subst. reflexivity.
  - destruct s as [|s].
    + destruct n as [|n]; [reflexivity|]. simpl.
      rewrite <- seq_shift, map_map. simpl. f_equal.
      rewrite (IH 0%nat n) by lia. reflexivity.
    + rewrite <- seq_shift, map_map. simpl. apply IH. lia.
Qed.

Lemma length_filter_seq (Q : nat -> bool) (s n : nat) :
  length (filter Q (seq s n)) = length (filter (fun i => Q (s + i)%nat) (seq 0 n)).
Proof.
  revert s. induction n as [|n IH]; intros s; [reflexivity|].
  simpl seq. rewrite <- (seq_shift n 0). simpl filter.
  rewrite Nat.add_0_r, filter_map_swap.
  rewrite (filter_ext (fun a => Q (s + S a)%nat) (fun i => Q (S s + i)%nat))
    by (intros i; f_equal; lia).
  destruct (Q s); simpl; rewrite length_map, IH; reflexivity.
Qed.

Lemma Forall_firstn {A : Type} (P : A -> Prop) (n : nat) (a : list A) :
  Forall P a -> Forall P (firstn n a).
Proof.
  intros Ha. rewrite <- (firstn_skipn n a) in Ha.
  now apply Forall_app in Ha.
Qed.

Lemma Forall_skipn {A : Type} (P : A -> Prop) (n : nat) (a : list A) :
  Forall P a -> Forall P (skipn n a).
Proof.
  intros Ha. rewrite <- (firstn_skipn n a) in Ha.
  now apply Forall_app in Ha.
Qed.

Lemma Forall_at (P : Z -> Prop) (a : list Z) (i : nat) :
  Forall P a -> (i < length a)%nat -> P (nth i a 0).
Proof. intros Ha Hi. rewrite Forall_forall in Ha. apply Ha, nth_In, Hi. Qed.

Section Slice.

Context {A : Type}.
Variables (a : list A) (lo hi : Z).
Hypothesis Hlo : 0 <= lo <= hi.
Hypothesis Hhi : hi <= Np.size a.

Lemma slice_in_range :
  Np.slice a lo hi = firstn (Z.to_nat (hi - lo)) (skipn (Z.to_nat lo) a).
Proof.
  unfold Np.slice, Np.slice_bound.
  destruct (lo <? 0) eqn:E1; [lia|]. destruct (hi <? 0) eqn:E2; [lia|].
  rewrite !Z.min_l by lia. reflexivity.
Qed.

Lemma slice_length : length (Np.slice a lo hi) = Z.to_nat (hi - lo).
Proof.
  rewrite slice_in_range, length_firstn, length_skipn.
  unfold Np.size in Hhi. lia.
Qed.

Lemma slice_nth (d : A) (i : nat) :
  (i < Z.to_nat (hi - lo))%nat ->
  nth i (Np.slice a lo hi) d = nth (Z.to_nat lo + i) a d.
Proof.
  intros Hi. rewrite slice_in_range, nth_firstn, nth_skipn.
  destruct (Nat.ltb_spec i (Z.to_nat (hi - lo))); [reflexivity|lia].
Qed.

End Slice.

Lemma slice_Forall {A : Type} (P : A -> Prop) (a : list A) (lo hi : Z) :
  Forall P a -> Forall P (Np.slice a lo hi).
Proof. intros Ha. unfold Np.slice. now apply Forall_firstn, Forall_skipn. Qed.

(** In a slice, [-1] as the right bound stands for the last index. *)
Lemma slice_minus_one {A : Type} (a : list A) (lo : Z) :
  1 <= Np.size a -> Np.slice a lo (-1) = Np.slice a lo (Np.size a - 1).
Proof.
  intros Hn. unfold Np.slice. f_equal. f_equal. f_equal.
  unfold Np.slice_bound. change (-1 <? 0) with true. cbv iota.
  destruct (Z.ltb_spec (Np.size a - 1) 0); lia.
Qed.

Lemma select_length {A B : Type} (a : list A) (b : list B) (m : list bool) :
  length a = length m -> length b = length m ->
  length (Np.select a m) = length (Np.select b m).
Proof.
  revert a b. induction m as [|c m IH]; intros [|u a] [|v b]; simpl;
    try discriminate; try reflexivity.
  intros Ha Hb. destruct c; simpl; [f_equal|]; apply IH; lia.
Qed.

Lemma select_length_split {A : Type} (a : list A) (m : list bool) :
  length a = length m ->
  (length (Np.select a m) + length (Np.select a (map negb m)) = length a)%nat.
Proof.
  revert a. induction m as [|c m IH]; intros [|u a]; simpl;
    try discriminate; try reflexivity.
  intros Ha. specialize (IH a ltac:(lia)). destruct c; simpl; lia.
Qed.

Lemma positions_length (y x : list Z) (W : Z) (m : list bool) :
  length y = length m -> length x = length m ->
  length (positions y x W m) = length (Np.select x m).
Proof.
  unfold positions, Np.scale.
  revert y x. induction m as [|c m IH]; intros [|u y] [|v x]; simpl;
    try discriminate; try reflexivity.
  intros Hy Hx. destruct c; simpl; [f_equal|]; apply IH; lia.
Qed.

Lemma positions_Forall (y x : list Z) (H W : Z) (m : list bool) :
  Forall (fun v => 0 <= v < H) y -> Forall (fun v => 0 <= v < W) x ->
  Forall (fun v => 0 <= v < H * W) (positions y x W m).
Proof.
  unfold positions, Np.scale. intros Hy. revert x m.
  induction Hy as [|u y Hu Hy IH]; intros x m Hx; [destruct m; constructor|].
  destruct m as [|c m]; [constructor|].
  destruct Hx as [|v x Hv Hx]; [destruct c; simpl; [constructor|]|].
  - destruct (Np.select y m); constructor.
  - simpl. destruct c; simpl; [constructor|]; try (apply IH; exact Hx). nia.
Qed.

(** How often a flattened index occurs among the selected positions. *)
Lemma positions_count (f : Z -> bool) (W v : Z) (p y x : list Z) :
  length y = length p -> length x = length p ->
  Np.count v (positions y x W (map f p))
  = Z.of_nat (length (filter
      (fun i => f (nth i p 0) && (nth i y 0 * W + nth i x 0 =? v))
      (seq 0 (length p)))).
Proof.
  unfold positions, Np.scale.
  revert y x. induction p as [|c p IH]; intros [|u y] [|w x]; simpl length;
    try discriminate; [reflexivity|].
  intros Hy Hx. specialize (IH y x ltac:(lia) ltac:(lia)).
  simpl seq. rewrite <- (seq_shift (length p) 0). simpl filter.
  rewrite filter_map_swap. cbn [map Np.select nth].
  destruct (f c); cbn [andb map Np.zip_with].
  - rewrite count_cons, IH.
    destruct (Z.eq_dec (u * W + w) v) as [E|E].
    + apply Z.eqb_eq in E. rewrite E. simpl length. rewrite length_map. lia.
    + apply Z.eqb_neq in E. rewrite E. rewrite length_map. lia.
  - rewrite IH, length_map. reflexivity.
Qed.

Lemma max_upper (a : list Z) (u : Z) : In u a -> u <= fold_right Z.max (-1) a.
Proof.
  induction a as [|v a IH]; simpl; [tauto|].
  intros [->|Hu]; [lia|]. specialize (IH Hu). lia.
Qed.

Lemma max_lower (a : list Z) : -1 <= fold_right Z.max (-1) a.
Proof. induction a as [|v a IH]; simpl; lia. Qed.

Lemma max_below (a : list Z) (n : Z) :
  0 <= n -> Forall (fun v => 0 <= v < n) a -> fold_right Z.max (-1) a < n.
Proof. intros Hn. induction 1; simpl; lia. Qed.

Lemma no_negative (a : list Z) :
  Forall (fun v => 0 <= v) a -> existsb (fun v => v <? 0) a = false.
Proof.
  induction 1 as [|u a Hu Ha IH]; simpl; [reflexivity|].
  rewrite IH. destruct (Z.ltb_spec u 0); [lia|reflexivity].
Qed.

Lemma bincount_ok (a : list Z) (n : Z) :
  0 <= n -> Forall (fun v => 0 <= v < n) a ->
  exists cnt,
    Np.bincount a = Ok cnt /\
    (length cnt <= Z.to_nat n)%nat /\
    (forall k, nth k cnt 0 = Np.count (Z.of_nat k) a) /\
    sum cnt = Np.size a.
Proof.
  intros Hn Ha. unfold Np.bincount.
  rewrite no_negative by (eapply Forall_impl; [|exact Ha]; simpl; lia).
  pose proof (max_lower a) as Hlo. pose proof (max_below a n Hn Ha) as Hup.
  set (size := fold_right Z.max (-1) a + 1) in *.
  eexists. split; [reflexivity|]. split; [|split].
  - rewrite length_map, range_length. lia.
  - intros k. destruct (Nat.lt_ge_cases k (Z.to_nat size)) as [Hk|Hk].
    + rewrite (nth_indep _ 0 (Np.count 0 a))
        by (rewrite length_map, range_length; exact Hk).
      rewrite (map_nth (fun v => Np.count v a)). f_equal.
      rewrite <- (Nat2Z.id k) at 1. apply (range_nth size (Z.of_nat k)). lia.
    + rewrite nth_overflow by (rewrite length_map, range_length; exact Hk).
      symmetry. apply count_absent. intros Hin.
      apply max_upper in Hin. lia.
  - apply sum_histogram. rewrite Forall_forall in *. intros v Hv.
    pose proof (Ha v Hv). pose proof (max_upper a v Hv). lia.
Qed.

Lemma iadd_arange_ok (v row : list Z) :
  (length v <= length row)%nat ->
  exists r,
    Np.iadd_arange row v = Ok r /\
    length r = length row /\
    (forall k, nth k r 0 = nth k row 0 + nth k v 0) /\
    sum r = sum row + sum v.
Proof.
  intros Hl. unfold Np.iadd_arange.
  destruct (Nat.ltb_spec (length row) (length v)) as [Hc|_]; [lia|].
  eexists. split; [reflexivity|]. revert row Hl.
  induction v as [|b v IH]; intros row Hl.
  - simpl. repeat split; try lia. intros k. destruct k; lia.
  - destruct row as [|a row]; [simpl in Hl; lia|].
    simpl in Hl. destruct (IH row ltac:(lia)) as (IH1 & IH2 & IH3).
    simpl. repeat split.
    + f_equal. exact IH1.
    + intros [|k]; [reflexivity|apply IH2].
    + lia.
Qed.

Lemma rows_length (h w : nat) (a : list Z) : length (Np.rows h w a) = h.
Proof. revert a. induction h as [|h IH]; intros a; simpl; [|rewrite IH]; reflexivity. Qed.

Lemma rows_nth (h w : nat) (a : list Z) (y : nat) :
  (y < h)%nat -> nth y (Np.rows h w a) [] = firstn w (skipn (y * w) a).
Proof.
  revert a y. induction h as [|h IH]; intros a y Hy; [lia|].
  destruct y as [|y]; simpl; [reflexivity|].
  rewrite IH by lia. now rewrite skipn_skipn, Nat.add_comm.
Qed.

(** Cell [(y, x)] of the reshaped row is cell [y * w + x] of the flat one. *)
Lemma rows_cell (h w : nat) (a : list Z) (y x : nat) :
  (y < h)%nat -> (x < w)%nat ->
  nth x (nth y (Np.rows h w a) []) 0 = nth (y * w + x) a 0.
Proof.
  intros Hy Hx. rewrite rows_nth, nth_firstn, nth_skipn by exact Hy.
  destruct (Nat.ltb_spec x w); [reflexivity|lia].
Qed.

Lemma rows_width (h w : nat) (a : list Z) :
  (h * w <= length a)%nat -> Forall (fun r => length r = w) (Np.rows h w a).
Proof.
  revert a. induction h as [|h IH]; intros a Ha; simpl; constructor.
  - rewrite length_firstn. simpl in Ha. lia.
  - apply IH. rewrite length_skipn. simpl in Ha. lia.
Qed.

Lemma rows_sum (h w : nat) (a : list Z) :
  length a = (h * w)%nat -> sum (map sum (Np.rows h w a)) = sum a.
Proof.
  revert a. induction h as [|h IH]; intros a Ha; simpl in *.
  - destruct a; [reflexivity|discriminate].
  - rewrite IH by (rewrite length_skipn; lia).
    rewrite <- sum_app, firstn_skipn. reflexivity.
Qed.

Lemma rows_Forall (P : Z -> Prop) (h w : nat) (a : list Z) :
  Forall P a -> Forall (Forall P) (Np.rows h w a).
Proof.
  revert a. induction h as [|h IH]; intros a Ha; simpl; constructor.
  - now apply Forall_firstn.
  - now apply IH, Forall_skipn.
Qed.

Lemma bool_index_ok {A : Type} (a : list A) (m : list bool) :
  length a = length m -> Np.bool_index a m = Ok (Np.select a m).
Proof. intros Hl. unfold Np.bool_index. now rewrite Hl, Nat.eqb_refl. Qed.

Lemma broadcast_same (f : Z -> Z -> Z) (a b : list Z) :
  length a = length b -> Np.broadcast f a b = Ok (Np.zip_with f a b).
Proof. intros Hl. unfold Np.broadcast. now rewrite Hl, Nat.eqb_refl. Qed.

(** ** Event records and frames *)

Section Integrate.

Variables (events : Events) (H W j_l j_r : Z).
Hypothesis Hrec : EventRecord events H W.
Hypothesis HH : 0 <= H.
Hypothesis HW : 0 <= W.
Hypothesis Hl : 0 <= j_l <= j_r.
Hypothesis Hr : j_r <= events_number events.

Lemma integrate_rows :
  exists row0 row1,
    integrate_events_segment_to_frame events H W j_l j_r
    = Ok [Np.rows (Z.to_nat H) (Z.to_nat W) row0;
          Np.rows (Z.to_nat H) (Z.to_nat W) row1] /\
    length row0 = Z.to_nat (H * W) /\
    length row1 = Z.to_nat (H * W) /\
    (forall k, nth k row0 0
               = Np.count (Z.of_nat k)
                   (positions (Np.slice (ev_y events) j_l j_r)
                      (Np.slice (ev_x events) j_l j_r) W
                      (map (fun v => v =? 0)
                         (Np.slice (ev_p events) j_l j_r)))) /\
    (forall k, nth k row1 0
               = Np.count (Z.of_nat k)
                   (positions (Np.slice (ev_y events) j_l j_r)
                      (Np.slice (ev_x events) j_l j_r) W
                      (map negb
                         (map (fun v => v =? 0)
                            (Np.slice (ev_p events) j_l j_r))))) /\
    sum row0 + sum row1 = j_r - j_l.
Proof.
  unfold integrate_events_segment_to_frame.
  set (x := Np.slice (ev_x events) j_l j_r).
  set (y := Np.slice (ev_y events) j_l j_r).
  set (p := Np.slice (ev_p events) j_l j_r).
  set (mask0 := map (fun v => v =? 0) p).
  set (mask1 := map negb mask0).
  destruct Hrec as [Lx Ly Lp Fx Fy Fp]. unfold events_number, Np.size in Hr.
  assert (Hlx : length x = Z.to_nat (j_r - j_l))
    by (apply slice_length; unfold Np.size; lia).
  assert (Hly : length y = Z.to_nat (j_r - j_l))
    by (apply slice_length; unfold Np.size; lia).
  assert (Hlp : length p = Z.to_nat (j_r - j_l))
    by (apply slice_length; unfold Np.size; lia).
  assert (Hm0 : length mask0 = Z.to_nat (j_r - j_l))
    by (unfold mask0; now rewrite length_map).
  assert (Hm1 : length mask1 = Z.to_nat (j_r - j_l))
    by (unfold mask1; now rewrite length_map).
  assert (Hx : Forall (fun v => 0 <= v < W) x) by now apply slice_Forall.
  assert (Hy : Forall (fun v => 0 <= v < H) y) by now apply slice_Forall.
  assert (HHW : 0 <= H * W) by nia.
  destruct (bincount_ok (positions y x W mask0) (H * W) HHW
              (positions_Forall y x H W mask0 Hy Hx))
    as (cnt0 & B0 & L0 & C0 & S0).
  destruct (bincount_ok (positions y x W mask1) (H * W) HHW
              (positions_Forall y x H W mask1 Hy Hx))
    as (cnt1 & B1 & L1 & C1 & S1).
  destruct (iadd_arange_ok cnt0 (repeat 0 (Z.to_nat (H * W))))
    as (row0 & I0 & R0 & K0 & T0); [now rewrite repeat_length|].
  destruct (iadd_arange_ok cnt1 (repeat 0 (Z.to_nat (H * W))))
    as (row1 & I1 & R1 & K1 & T1); [now rewrite repeat_length|].
  exists row0, row1. split; [|repeat split].
  - unfold Np.zeros2.
    destruct (Z.ltb_spec (H * W) 0) as [Hn|_]; [lia|].
    change ((2 <? 0) || false) with false. cbv iota.
    change (Z.to_nat 2) with 2%nat. cbn [repeat bind].
    unfold for_range. change (range 2) with [0; 1].
    cbn [for_each bind].
    change (Np.getitem [mask0; mask1] 0) with (Ok mask0).
    change (Np.getitem [mask0; mask1] 1) with (Ok mask1).
    cbn [bind].
    rewrite (bool_index_ok y mask0), (bool_index_ok x mask0) by congruence.
    cbn [bind].
    rewrite broadcast_same
      by (unfold Np.scale; rewrite length_map; apply select_length; congruence).
    cbn [bind]. fold (positions y x W mask0). rewrite B0. cbn [bind].
    match goal with
    | |- context [Np.getitem [?a; ?b] 0] =>
        change (Np.getitem [a; b] 0) with (Ok a)
    end.
    cbn [bind]. rewrite I0. cbn [bind].
    match goal with
    | |- context [Np.setitem [?a; ?b] 0 ?v] =>
        change (Np.setitem [a; b] 0 v) with (Ok [v; b])
    end.
    cbn [bind].
    rewrite (bool_index_ok y mask1), (bool_index_ok x mask1) by congruence.
    cbn [bind].
    rewrite broadcast_same
      by (unfold Np.scale; rewrite length_map; apply select_length; congruence).
    cbn [bind]. fold (positions y x W mask1). rewrite B1. cbn [bind].
    match goal with
    | |- context [Np.getitem [?a; ?b] 1] =>
        change (Np.getitem [a; b] 1) with (Ok b)
    end.
    cbn [bind]. rewrite I1. cbn [bind].
    match goal with
    | |- context [Np.setitem [?a; ?b] 1 ?v] =>
        change (Np.setitem [a; b] 1 v) with (Ok [a; v])
    end.
    cbn [bind]. unfold Np.reshape_2HW.
    destruct (Z.ltb_spec H 0); [lia|]. destruct (Z.ltb_spec W 0); [lia|].
    reflexivity.
  - now rewrite R0, repeat_length.
  - now rewrite R1, repeat_length.
  - intros k. rewrite K0, C0, nth_repeat. lia.
  - intros k. rewrite K1, C1, nth_repeat. lia.
  - rewrite T0, T1, S0, S1, !sum_repeat_zero. unfold Np.size.
    rewrite !positions_length by congruence.
    pose proof (select_length_split x mask0 ltac:(congruence)) as Hs.
    fold mask1 in Hs. lia.
Qed.

End Integrate.

Lemma Forall_of_nth (P : Z -> Prop) (a : list Z) :
  (forall k, P (nth k a 0)) -> Forall P a.
Proof.
  intros Hk. apply Forall_forall. intros v Hv.
  destruct (In_nth a v 0 Hv) as (k & _ & <-). apply Hk.
Qed.

(** Inside a row of width [W], the flattened index determines the pixel. *)
Lemma pixel_index_eqb (W y x y0 x0 : Z) :
  0 <= x < W -> 0 <= x0 < W ->
  (y * W + x =? y0 * W + x0) = (y =? y0) && (x =? x0).
Proof.
  intros Hx Hx0.
  destruct (Z.eqb_spec y y0) as [->|Hy]; simpl.
  - destruct (Z.eqb_spec x x0) as [->|Hne]; [apply Z.eqb_refl|].
    apply Z.eqb_neq. lia.
  - apply Z.eqb_neq. intros E.
    destruct (Z.div_mod_unique W y y0 x x0) as [E1 _]; [lia|lia|lia|].
    contradiction.
Qed.

Lemma polarity_mask (v c : Z) :
  v = 0 \/ v = 1 -> c = 0 \/ c = 1 ->
  (v =? c) = if c =? 0 then v =? 0 else negb (v =? 0).
Proof. intros [-> | ->] [-> | ->]; reflexivity. Qed.

Section IntegrateSpec.

Variables (events : Events) (H W j_l j_r : Z).
Hypothesis Hrec : EventRecord events H W.
Hypothesis HH : 0 <= H.
Hypothesis HW : 0 <= W.
Hypothesis Hl : 0 <= j_l <= j_r.
Hypothesis Hr : j_r <= events_number events.

(** The histogram of the positions a polarity mask selects, read at a
    pixel, is the number of events of the segment in that cell. *)
Lemma positions_segment_count (c y0 x0 : Z) :
  c = 0 \/ c = 1 -> 0 <= y0 < H -> 0 <= x0 < W ->
  Np.count (y0 * W + x0)
    (positions (Np.slice (ev_y events) j_l j_r)
       (Np.slice (ev_x events) j_l j_r) W
       (map (fun v => if c =? 0 then v =? 0 else negb (v =? 0))
          (Np.slice (ev_p events) j_l j_r)))
  = segment_count events j_l j_r c y0 x0.
Proof.
  intros Hc Hy0 Hx0. destruct Hrec as [Lx Ly Lp Fx Fy Fp].
  unfold events_number, Np.size in Hr.
  assert (Sx : Np.size (ev_x events) = Z.of_nat (length (ev_t events)))
    by (unfold Np.size; congruence).
  assert (Sy : Np.size (ev_y events) = Z.of_nat (length (ev_t events)))
    by (unfold Np.size; congruence).
  assert (Sp : Np.size (ev_p events) = Z.of_nat (length (ev_t events)))
    by (unfold Np.size; congruence).
  rewrite positions_count
    by (rewrite !slice_length by lia; reflexivity).
  unfold segment_count.
  rewrite (length_filter_seq (event_in_cell events c y0 x0)).
  rewrite (slice_length (ev_p events)) by lia.
  f_equal. f_equal. apply filter_ext_in. intros i Hi.
  apply in_seq in Hi. unfold event_in_cell.
  rewrite !slice_nth by lia.
  set (k := (Z.to_nat j_l + i)%nat).
  assert (Hk : (k < length (ev_t events))%nat) by lia.
  pose proof (Forall_at _ _ k Fx ltac:(lia)) as Hxk. simpl in Hxk.
  pose proof (Forall_at _ _ k Fp ltac:(lia)) as Hpk. simpl in Hpk.
  rewrite (pixel_index_eqb W _ _ y0 x0) by lia.
  rewrite (polarity_mask _ c Hpk Hc). now rewrite andb_assoc.
Qed.

Lemma integrate_spec :
  exists frame,
    integrate_events_segment_to_frame events H W j_l j_r = Ok frame /\
    has_shape frame H W /\
    all_cells (fun v => 0 <= v) frame /\
    frame_total frame = j_r - j_l /\
    (forall c y0 x0, c = 0 \/ c = 1 -> 0 <= y0 < H -> 0 <= x0 < W ->
       cell frame c y0 x0 = segment_count events j_l j_r c y0 x0) /\
    (j_l = j_r -> all_cells (fun v => v = 0) frame).
Proof.
  destruct (integrate_rows events H W j_l j_r Hrec HH HW Hl Hr)
    as (row0 & row1 & E & L0 & L1 & K0 & K1 & T).
  assert (HWn : Z.to_nat (H * W) = (Z.to_nat H * Z.to_nat W)%nat) by nia.
  exists [Np.rows (Z.to_nat H) (Z.to_nat W) row0;
          Np.rows (Z.to_nat H) (Z.to_nat W) row1].
  split; [exact E|]. split; [|split; [|split; [|split]]].
  - split; [reflexivity|].
    repeat constructor; try apply rows_length; apply rows_width; lia.
  - repeat constructor; apply rows_Forall, Forall_of_nth; intros k;
      rewrite ?K0, ?K1; apply count_nonneg.
  - unfold frame_total. simpl. rewrite !rows_sum by lia. lia.
  - intros c y0 x0 Hc Hy0 Hx0.
    rewrite <- (positions_segment_count c y0 x0 Hc Hy0 Hx0).
    unfold cell.
    assert (Hi : Z.of_nat (Z.to_nat y0 * Z.to_nat W + Z.to_nat x0)
                 = y0 * W + x0) by nia.
    destruct Hc as [-> | ->]; simpl nth; rewrite rows_cell by lia.
    + rewrite K0, Hi. reflexivity.
    + rewrite K1, Hi, map_map. reflexivity.
  - intros ->.
    assert (Ex : Np.slice (ev_x events) j_r j_r = []).
    { unfold Np.slice. now rewrite Z.sub_diag. }
    unfold positions in K0, K1. rewrite Ex in K0, K1.
    assert (Z0 : forall (a : list Z) m,
               Np.zip_with Z.add a (Np.select (@nil Z) m) = []).
    { intros a m. destruct a, m; reflexivity. }
    rewrite Z0 in K0, K1.
    repeat constructor; apply rows_Forall, Forall_of_nth; intros k;
      rewrite ?K0, ?K1; reflexivity.
Qed.

End IntegrateSpec.

(** ** The ATIS decoder *)

Lemma strided_records (k : nat) (recs : list (byte * byte * byte * byte * byte)) :
  (k < 5)%nat ->
  Np.strided 5 k (uint32_of_bytes (flat_map record_bytes recs))
  = map (fun r => u8 (nth k (record_bytes r) x00)) recs.
Proof.
  intros Hk. induction recs as [|[[[[b0 b1] b2] b3] b4] recs IH];
    [reflexivity|].
  unfold uint32_of_bytes in *. cbn [flat_map record_bytes app map].
  do 5 (destruct k as [|k]; [cbn; f_equal; exact IH|]). lia.
Qed.

Lemma zip_with_map {A : Type} (f : Z -> Z -> Z) (g h : A -> Z) (l : list A) :
  Np.zip_with f (map g l) (map h l) = map (fun a => f (g a) (h a)) l.
Proof. induction l as [|a l IH]; simpl; [|rewrite IH]; reflexivity. Qed.

Lemma byte_timestamp_high (b : byte) :
  shl32 (Z.land (u8 b) 127) 16 = Z.shiftl (Z.land (u8 b) 0x7F) 16.
Proof. destruct b; reflexivity. Qed.

Lemma byte_timestamp_mid (b : byte) : shl32 (u8 b) 8 = Z.shiftl (u8 b) 8.
Proof. destruct b; reflexivity. Qed.

Lemma byte_polarity (b : byte) :
  Z.shiftr (Z.land (u8 b) 128) 7 = Z.land (Z.shiftr (u8 b) 7) 1.
Proof. destruct b; reflexivity. Qed.

(** ** The padder *)

Lemma zero_frame_shape (c h w : nat) :
  length (zero_frame c h w) = c /\
  Forall (fun channel => length channel = h /\
                         Forall (fun row => length row = w) channel)
    (zero_frame c h w).
Proof.
  unfold zero_frame. split; [apply repeat_length|].
  apply Forall_forall. intros ch Hch. apply repeat_spec in Hch. subst ch.
  split; [apply repeat_length|].
  apply Forall_forall. intros r Hr. apply repeat_spec in Hr. subst r.
  apply repeat_length.
Qed.

Lemma zero_frame_cells (c h w : nat) :
  all_cells (fun v => v = 0) (zero_frame c h w).
Proof.
  unfold all_cells, zero_frame. apply Forall_forall. intros ch Hch.
  apply repeat_spec in Hch. subst ch.
  apply Forall_forall. intros r Hr. apply repeat_spec in Hr. subst r.
  apply Forall_forall. intros v Hv. now apply repeat_spec in Hv.
Qed.

(** ** Array updates and the filling loops *)

Lemma update_length {A : Type} (a : list A) (n : nat) (v : A) :
  length (Np.update a n v) = length a.
Proof.
  revert n. induction a as [|u a IH]; intros [|n]; simpl; try reflexivity.
  now rewrite IH.
Qed.

Lemma update_firstn {A : Type} (a : list A) (n : nat) (v : A) :
  (n < length a)%nat -> firstn (S n) (Np.update a n v) = firstn n a ++ [v].
Proof.
  revert n. induction a as [|u a IH]; intros [|n] Hn; simpl in *; try lia.
  - reflexivity.
  - f_equal. apply IH. lia.
Qed.

Lemma update_nth_same {A : Type} (a : list A) (n : nat) (v d : A) :
  (n < length a)%nat -> nth n (Np.update a n v) d = v.
Proof.
  revert n. induction a as [|u a IH]; intros [|n] Hn; simpl in *; try lia.
  - reflexivity.
  - apply IH. lia.
Qed.

Lemma update_nth_other {A : Type} (a : list A) (n i : nat) (v d : A) :
  i <> n -> nth i (Np.update a n v) d = nth i a d.
Proof.
  revert n i. induction a as [|u a IH]; intros [|n] [|i] Hn; simpl;
    try reflexivity; try lia.
  apply IH. lia.
Qed.

Lemma getitem_ok (a : list Z) (i : Z) :
  0 <= i < Np.size a -> Np.getitem a i = Ok (at_ a i).
Proof.
  intros Hi. unfold Np.getitem, at_.
  destruct (Z.ltb_spec i 0); [lia|].
  destruct (Z.ltb_spec i 0); [lia|].
  destruct (Z.leb_spec (Np.size a) i); [lia|]. simpl.
  unfold Np.size in Hi.
  now rewrite (nth_error_nth' a 0) by lia.
Qed.

Lemma getitem_last (a : list Z) :
  1 <= Np.size a -> Np.getitem a (-1) = Ok (at_ a (Np.size a - 1)).
Proof.
  intros Hn. unfold Np.getitem, at_. change (-1 <? 0) with true. cbv iota.
  destruct (Z.ltb_spec (-1 + Np.size a) 0); [lia|].
  destruct (Z.leb_spec (Np.size a) (-1 + Np.size a)); [lia|]. cbn [orb].
  unfold Np.size in *.
  rewrite (nth_error_nth' a 0) by lia. do 2 f_equal. lia.
Qed.

Lemma getitem_empty {A : Type} (i : Z) : Np.getitem (@nil A) i = Raise IndexError.
Proof.
  unfold Np.getitem, Np.size. simpl length. change (Z.of_nat 0) with 0.
  destruct (Z.ltb_spec i 0).
  - rewrite Z.add_0_r. destruct (Z.ltb_spec i 0); [reflexivity|lia].
  - destruct (Z.ltb_spec i 0); [lia|].
    destruct (Z.leb_spec 0 i); [reflexivity|lia].
Qed.

Lemma setitem_ok (a : list Z) (i v : Z) :
  0 <= i < Np.size a -> Np.setitem a i v = Ok (Np.update a (Z.to_nat i) v).
Proof.
  intros Hi. unfold Np.setitem.
  destruct (Z.ltb_spec i 0); [lia|].
  destruct (Z.ltb_spec i 0); [lia|].
  destruct (Z.leb_spec (Np.size a) i); [lia|]. reflexivity.
Qed.

Lemma setitem_last (a : list Z) (v : Z) :
  1 <= Np.size a ->
  Np.setitem a (-1) v = Ok (Np.update a (Z.to_nat (Np.size a - 1)) v).
Proof.
  intros Hn. unfold Np.setitem. change (-1 <? 0) with true. cbv iota.
  destruct (Z.ltb_spec (-1 + Np.size a) 0); [lia|].
  destruct (Z.leb_spec (Np.size a) (-1 + Np.size a)); [lia|]. cbn [orb].
  do 3 f_equal. lia.
Qed.

(** A loop over [range] whose body stores [f i] and [g i] at index [i] of
    two arrays leaves them holding [f] and [g] of every index. *)
Lemma for_each_fill (f g : Z -> Z)
  (body : Z -> list Z * list Z -> result (list Z * list Z)) (n : nat) :
  forall (m : nat) (jl jr : list Z),
    length jl = (m + n)%nat -> length jr = (m + n)%nat ->
    (forall i a b, (m <= i < m + n)%nat ->
       length a = (m + n)%nat -> length b = (m + n)%nat ->
       body (Z.of_nat i) (a, b)
       = Ok (Np.update a i (f (Z.of_nat i)), Np.update b i (g (Z.of_nat i)))) ->
    for_each body (map Z.of_nat (seq m n)) (jl, jr)
    = Ok (firstn m jl ++ map f (map Z.of_nat (seq m n)),
          firstn m jr ++ map g (map Z.of_nat (seq m n))).
Proof.
  induction n as [|n IH]; intros m jl jr Hjl Hjr Hbody.
  - simpl. rewrite !app_nil_r, !firstn_all2 by lia. reflexivity.
  - cbn [seq map for_each]. rewrite Hbody by lia. cbn [bind].
    rewrite IH.
    + rewrite !update_firstn by lia. now rewrite <- !app_assoc.
    + rewrite update_length. lia.
    + rewrite update_length. lia.
    + intros i a b Hi Ha Hb. apply Hbody; lia.
Qed.

Lemma for_range_fill (f g : Z -> Z)
  (body : Z -> list Z * list Z -> result (list Z * list Z)) (k : Z)
  (jl jr : list Z) :
  Np.size jl = k -> Np.size jr = k ->
  (forall i a b, 0 <= i < k -> Np.size a = k -> Np.size b = k ->
     body i (a, b)
     = Ok (Np.update a (Z.to_nat i) (f i), Np.update b (Z.to_nat i) (g i))) ->
  for_range k body (jl, jr) = Ok (map f (range k), map g (range k)).
Proof.
  unfold Np.size. intros Hjl Hjr Hbody. unfold for_range, range.
  rewrite (for_each_fill f g body (Z.to_nat k) 0 jl jr); try lia.
  - reflexivity.
  - intros i a b Hi Ha Hb.
    rewrite (Hbody (Z.of_nat i) a b) by lia. now rewrite Nat2Z.id.
Qed.

Lemma map_range_at (f : Z -> Z) (k i : Z) :
  0 <= i < k -> at_ (map f (range k)) i = f i.
Proof.
  intros Hi. unfold at_.
  rewrite (nth_indep _ 0 (f 0)) by (rewrite length_map, range_length; lia).
  rewrite map_nth. f_equal. now apply range_nth.
Qed.

Lemma zeros_ok (k : Z) : 0 <= k -> Np.zeros k = Ok (repeat 0 (Z.to_nat k)).
Proof. intros Hk. unfold Np.zeros. destruct (Z.ltb_spec k 0); [lia|reflexivity]. Qed.

Lemma floordiv_ok (a b : Z) : b <> 0 -> Np.floordiv a b = Ok (a / b).
Proof.
  intros Hb. unfold Np.floordiv. destruct (Z.eqb_spec b 0); [contradiction|reflexivity].
Qed.

Lemma getitem_update (a : list Z) (i v : Z) :
  0 <= i < Np.size a -> Np.getitem (Np.update a (Z.to_nat i) v) i = Ok v.
Proof.
  intros Hi. rewrite getitem_ok by (unfold Np.size in *; rewrite update_length; lia).
  unfold at_. unfold Np.size in Hi. now rewrite update_nth_same by lia.
Qed.

(** ** The segmentation planner, by number *)

Lemma number_split_result (events_t : list Z) (k : Z) :
  1 <= k ->
  cal_fixed_frames_number_segment_index events_t "number" k
  = Ok (map (fun i => i * (Np.size events_t / k)) (range k),
        Np.update
          (map (fun i => i * (Np.size events_t / k) + Np.size events_t / k)
             (range k))
          (Z.to_nat (k - 1)) (Np.size events_t)).
Proof.
  intros Hk. unfold cal_fixed_frames_number_segment_index.
  rewrite zeros_ok by lia. cbn [bind].
  change (String.eqb "number" "number") with true. cbv iota.
  rewrite floordiv_ok by lia. cbn [bind].
  set (di := Np.size events_t / k).
  rewrite (for_range_fill (fun i => i * di) (fun i => i * di + di)).
  - cbn [bind].
    rewrite setitem_last
      by (unfold Np.size; rewrite length_map, range_length; lia).
    cbn [bind]. unfold Np.size at 1. rewrite length_map, range_length.
    do 3 f_equal. lia.
  - unfold Np.size. rewrite repeat_length. lia.
  - unfold Np.size. rewrite repeat_length. lia.
  - intros i a b Hi Ha Hb.
    rewrite setitem_ok by lia. cbn [bind].
    rewrite getitem_update by lia. cbn [bind].
    rewrite setitem_ok by lia. reflexivity.
Qed.

(** ** The segmentation planner, by time *)

Lemma rank_zero (t : list Z) (v : Z) : Forall (fun u => v <= u) t -> rank t v = 0%nat.
Proof.
  unfold rank. induction 1 as [|u t Hu Ht IH]; simpl; [reflexivity|].
  destruct (Z.ltb_spec u v); [lia|exact IH].
Qed.

Lemma rank_le_length (t : list Z) (v : Z) : (rank t v <= length t)%nat.
Proof.
  unfold rank. induction t as [|u t IH]; simpl; [lia|].
  destruct (u <? v); simpl; lia.
Qed.

Lemma rank_mono (t : list Z) (lo hi : Z) : lo <= hi -> (rank t lo <= rank t hi)%nat.
Proof.
  intros Hle. unfold rank. induction t as [|u t IH]; simpl; [lia|].
  destruct (Z.ltb_spec u lo), (Z.ltb_spec u hi); simpl; lia.
Qed.

Lemma rank_window (t : list Z) (lo hi : Z) :
  lo <= hi -> Exists (fun v => lo <= v < hi) t -> (rank t lo < rank t hi)%nat.
Proof.
  intros Hle. induction 1 as [u t Hu|u t Hex IH]; unfold rank in *; simpl.
  - pose proof (rank_mono t lo hi Hle) as Hm. unfold rank in Hm.
    destruct (Z.ltb_spec u lo), (Z.ltb_spec u hi); simpl; lia.
  - destruct (Z.ltb_spec u lo), (Z.ltb_spec u hi); simpl; lia.
Qed.

Lemma rank_all (t : list Z) (v : Z) : Forall (fun u => u < v) t -> rank t v = length t.
Proof.
  unfold rank. induction 1 as [|u t Hu Ht IH]; simpl; [reflexivity|].
  destruct (Z.ltb_spec u v); simpl; lia.
Qed.

(** In a non-decreasing array the indices selected by a window are the
    run from the rank of its lower bound to the rank of its upper bound. *)
Lemma select_window (t : list Z) (lo hi : Z) :
  StronglySorted Z.le t -> lo <= hi ->
  forall s : nat,
    Np.select (map Z.of_nat (seq s (length t)))
      (map (fun v => (lo <=? v) && (v <? hi)) t)
    = map Z.of_nat (seq (s + rank t lo) (rank t hi - rank t lo)).
Proof.
  intros Hs Hle. induction Hs as [|v t Hs IH Hv]; intros s.
  - reflexivity.
  - cbn [length seq map Np.select]. rewrite (IH (S s)).
    assert (Hlo : lo <= v -> rank t lo = 0%nat).
    { intros Hl. apply rank_zero. eapply Forall_impl; [|exact Hv].
      simpl. intros; lia. }
    assert (Hhi : hi <= v -> rank t hi = 0%nat).
    { intros Hl. apply rank_zero. eapply Forall_impl; [|exact Hv].
      simpl. intros; lia. }
    assert (Rlo : rank (v :: t) lo
                  = if v <? lo then S (rank t lo) else rank t lo)
      by (unfold rank; simpl; destruct (v <? lo); reflexivity).
    assert (Rhi : rank (v :: t) hi
                  = if v <? hi then S (rank t hi) else rank t hi)
      by (unfold rank; simpl; destruct (v <? hi); reflexivity).
    rewrite Rlo, Rhi.
    destruct (Z.leb_spec lo v) as [L|L], (Z.ltb_spec v hi) as [U|U];
      destruct (Z.ltb_spec v lo); try lia; cbn [andb].
    + rewrite (Hlo L). rewrite !Nat.add_0_r, !Nat.sub_0_r. reflexivity.
    + rewrite (Hlo L), (Hhi U). reflexivity.
    + f_equal. f_equal; lia.
Qed.

Lemma seq_at (a n : nat) (j : Z) :
  0 <= j < Z.of_nat n -> at_ (map Z.of_nat (seq a n)) j = Z.of_nat a + j.
Proof.
  intros Hj. unfold at_.
  rewrite (nth_indep _ 0 (Z.of_nat 0)) by (rewrite length_map, length_seq; lia).
  rewrite map_nth, seq_nth by lia. lia.
Qed.

Lemma sorted_strongly (t : list Z) : Sorted Z.le t -> StronglySorted Z.le t.
Proof. apply Sorted_StronglySorted. intros a b c. apply Z.le_trans. Qed.

Lemma strongly_sorted_at (t : list Z) (i j : nat) :
  StronglySorted Z.le t -> (i <= j < length t)%nat -> nth i t 0 <= nth j t 0.
Proof.
  intros Hs. revert i j. induction Hs as [|v t Hs IH Hv]; intros i j Hij.
  - simpl in Hij. lia.
  - destruct i as [|i], j as [|j]; simpl in *; try lia.
    + rewrite Forall_forall in Hv. apply Hv, nth_In. lia.
    + apply IH. lia.
Qed.

Lemma sorted_first_least (t : list Z) :
  StronglySorted Z.le t -> Forall (fun u => at_ t 0 <= u) t.
Proof.
  intros Hs. destruct Hs as [|v t Hs Hv]; [constructor|].
  unfold at_. simpl. constructor; [lia|exact Hv].
Qed.

Section TimeSplit.

Variables (events_t : list Z) (M : Z).
Hypothesis Hsorted : Sorted Z.le events_t.
Hypothesis HM : 1 <= M.
Hypothesis Hwin : forall i, 0 <= i < M -> window_nonempty events_t M i.

Lemma time_split_has_events : 1 <= Np.size events_t.
Proof.
  specialize (Hwin 0 ltac:(lia)). unfold window_nonempty in Hwin.
  destruct events_t; [inversion Hwin|]. unfold Np.size. simpl length. lia.
Qed.

Lemma window_width_nonneg : 0 <= window_width events_t M.
Proof.
  pose proof time_split_has_events as HN. unfold Np.size in HN.
  unfold window_width. apply Z.div_pos; [|lia].
  pose proof (strongly_sorted_at events_t 0
                (Z.to_nat (Np.size events_t - 1))
                (sorted_strongly _ Hsorted)) as Hle.
  unfold at_, Np.size in *. simpl (Z.to_nat 0). lia.
Qed.

Lemma time_split_result :
  cal_fixed_frames_number_segment_index events_t "time" M
  = Ok (map (fun i => Z.of_nat (rank events_t
               (window_width events_t M * i + at_ events_t 0)))
          (range M),
        Np.update
          (map (fun i => Z.of_nat (rank events_t
                  (window_width events_t M * i + at_ events_t 0
                   + window_width events_t M)))
             (range M))
          (Z.to_nat (M - 1)) (Np.size events_t)).
Proof.
  pose proof time_split_has_events as HN.
  pose proof window_width_nonneg as Hdt.
  unfold cal_fixed_frames_number_segment_index.
  rewrite zeros_ok by lia. cbn [bind].
  change (String.eqb "time" "number") with false.
  change (String.eqb "time" "time") with true. cbv iota.
  rewrite getitem_last, getitem_ok by lia. cbn [bind].
  rewrite floordiv_ok by lia. cbn [bind].
  fold (window_width events_t M). set (dt := window_width events_t M) in *.
  rewrite (for_range_fill
             (fun i => Z.of_nat (rank events_t (dt * i + at_ events_t 0)))
             (fun i => Z.of_nat (rank events_t (dt * i + at_ events_t 0 + dt)))).
  - cbn [bind].
    rewrite setitem_last
      by (unfold Np.size; rewrite length_map, range_length; lia).
    cbn [bind]. unfold Np.size at 1. rewrite length_map, range_length.
    do 3 f_equal. lia.
  - unfold Np.size. rewrite repeat_length. lia.
  - unfold Np.size. rewrite repeat_length. lia.
  - intros i a b Hi Ha Hb. cbn [bind].
    set (lo := dt * i + at_ events_t 0).
    rewrite bool_index_ok
      by (unfold Np.arange; rewrite length_map, range_length;
          unfold Np.size; lia).
    cbn [bind].
    assert (Hr : (rank events_t lo < rank events_t (lo + dt))%nat).
    { apply rank_window; [lia|]. specialize (Hwin i Hi).
      unfold window_nonempty in Hwin. fold dt in Hwin.
      eapply Exists_impl; [|exact Hwin]. simpl. unfold lo. intros; lia. }
    set (n := (rank events_t (lo + dt) - rank events_t lo)%nat) in *.
    assert (Hidx : Np.select (Np.arange (Np.size events_t))
                     (map (fun v => (lo <=? v) && (v <? lo + dt)) events_t)
                   = map Z.of_nat (seq (rank events_t lo) n)).
    { unfold Np.arange, range, Np.size. rewrite Nat2Z.id.
      rewrite (select_window events_t lo (lo + dt)
                 (sorted_strongly _ Hsorted)) by lia.
      reflexivity. }
    rewrite Hidx.
    assert (Hsz : Np.size (map Z.of_nat (seq (rank events_t lo) n))
                  = Z.of_nat n)
      by (unfold Np.size; now rewrite length_map, length_seq).
    rewrite getitem_ok by lia. cbn [bind].
    rewrite setitem_ok by lia. cbn [bind].
    rewrite getitem_last by lia. cbn [bind].
    rewrite setitem_ok by lia.
    rewrite Hsz, !seq_at by lia. cbn [bind].
    f_equal. f_equal; f_equal; lia.
Qed.

End TimeSplit.

(** ** The duration binner *)

Section DurationBinner.

Variables (t : list Z) (duration : Z).
Hypothesis Hduration : 0 <= duration.

Lemma extend_right_ok (t_l : Z) (fuel : nat) :
  forall right,
    0 <= right <= Np.size t ->
    (Z.to_nat (Np.size t - right) < fuel)%nat ->
    exists right',
      extend_right t duration fuel t_l right = Some (Ok right') /\
      right <= right' <= Np.size t /\
      (forall k, right <= k < right' -> at_ t k - t_l <= duration) /\
      (right' < Np.size t -> duration < at_ t right' - t_l).
Proof.
  induction fuel as [|fuel IH]; intros right Hr Hf; [lia|].
  cbn [extend_right].
  destruct (Z.eqb_spec right (Np.size t)) as [E|E].
  - exists right. repeat split; lia.
  - rewrite getitem_ok by lia.
    destruct (Z.gtb_spec (at_ t right - t_l) duration) as [G|G].
    + exists right. repeat split; lia.
    + destruct (IH (right + 1) ltac:(lia) ltac:(lia))
        as (r' & E' & B & I & S).
      exists r'. split; [exact E'|]. split; [lia|]. split; [|exact S].
      intros k Hk. destruct (Z.eq_dec k right) as [->|Hne]; [lia|].
      apply I. lia.
Qed.

Lemma bin_loop_ok (fuel : nat) :
  forall left,
    0 <= left < Np.size t ->
    (Z.to_nat (Np.size t - left) + 1 < fuel)%nat ->
    exists windows,
      bins t duration left windows /\
      forall (A : Type) (segment : Z -> Z -> result A) (frames : list A),
        bin_loop t duration segment fuel left left frames
        = Some (produced <- each_segment segment windows ;;
                Ok (frames ++ produced)).
Proof.
  induction fuel as [|fuel IH]; intros left Hl Hf; [lia|].
  destruct (extend_right_ok (at_ t left) fuel left ltac:(lia) ltac:(lia))
    as (right & E & B & I & S).
  assert (Hgt : left < right).
  { destruct (Z.eq_dec right left) as [->|Hne]; [|lia].
    specialize (S ltac:(lia)). lia. }
  destruct (Z.eq_dec right (Np.size t)) as [EN|NE].
  - exists [(left, Np.size t)]. split.
    + apply bins_last; [lia|]. intros k Hk. apply I. lia.
    + intros A segment frames. cbn [bin_loop].
      rewrite getitem_ok, E by lia. subst right.
      cbn [each_segment bind].
      destruct (segment left (Np.size t)); cbn [bind]; [|reflexivity].
      now rewrite Z.eqb_refl.
  - destruct (IH right ltac:(lia) ltac:(lia)) as (rest & Hb & Hrest).
    exists ((left, right) :: rest). split.
    + apply bins_cons; try assumption; [lia|]. apply S. lia.
    + intros A segment frames. cbn [bin_loop].
      rewrite getitem_ok, E by lia. cbn [each_segment bind].
      destruct (segment left right) as [frame|e]; cbn [bind]; [|reflexivity].
      destruct (Z.eqb_spec right (Np.size t)); [contradiction|].
      rewrite Hrest.
      destruct (each_segment segment rest); cbn [bind]; [|reflexivity].
      now rewrite <- app_assoc.
Qed.

Lemma zrange_app (a b c : Z) :
  0 <= a <= b -> b <= c -> zrange a b ++ zrange b c = zrange a c.
Proof.
  intros Hab Hbc. unfold zrange. rewrite <- map_app. f_equal.
  replace (Z.to_nat (c - a))
    with (Z.to_nat (b - a) + Z.to_nat (c - b))%nat by lia.
  rewrite seq_app. do 2 f_equal. lia.
Qed.

Lemma bins_bounds (left : Z) (windows : list (Z * Z)) :
  bins t duration left windows -> 0 <= left ->
  Forall (fun b => 0 <= fst b < snd b /\ snd b <= Np.size t) windows.
Proof.
  induction 1 as [left Hl Hw|left right rest Hl Hw Hd Hb IH]; intros H0;
    constructor; simpl; try lia; [constructor|apply IH; lia].
Qed.

Lemma bins_partition (left : Z) (windows : list (Z * Z)) :
  bins t duration left windows -> 0 <= left ->
  concat (map (fun b => zrange (fst b) (snd b)) windows)
  = zrange left (Np.size t).
Proof.
  induction 1 as [left Hl Hw|left right rest Hl Hw Hd Hb IH]; intros H0;
    simpl.
  - apply app_nil_r.
  - rewrite IH by lia. apply zrange_app; lia.
Qed.

Lemma bins_sizes (left : Z) (windows : list (Z * Z)) :
  bins t duration left windows ->
  sum (map (fun b => snd b - fst b) windows) = Np.size t - left.
Proof.
  induction 1 as [left Hl Hw|left right rest Hl Hw Hd Hb IH]; simpl; lia.
Qed.

Lemma bins_number (left : Z) (windows : list (Z * Z)) :
  bins t duration left windows ->
  Z.of_nat (length windows) <= Np.size t - left.
Proof.
  induction 1 as [left Hl Hw|left right rest Hl Hw Hd Hb IH];
    simpl length; lia.
Qed.

Lemma bins_first (left : Z) (windows : list (Z * Z)) :
  bins t duration left windows ->
  Forall (fun b => left <= fst b) windows.
Proof.
  induction 1 as [left Hl Hw|left right rest Hl Hw Hd Hb IH];
    constructor; simpl; try lia; [constructor|].
  eapply Forall_impl; [|exact IH]. simpl. intros; lia.
Qed.

Lemma bins_increasing (left : Z) (windows : list (Z * Z)) :
  bins t duration left windows ->
  StronglySorted (fun b1 b2 => fst b1 < fst b2 /\ snd b1 <= fst b2) windows.
Proof.
  induction 1 as [left Hl Hw|left right rest Hl Hw Hd Hb IH].
  - repeat constructor.
  - constructor; [exact IH|].
    eapply Forall_impl; [|apply (bins_first _ _ Hb)]. simpl. intros; lia.
Qed.

End DurationBinner.

Lemma sorted_at (t : list Z) (i j : Z) :
  StronglySorted Z.le t -> 0 <= i <= j -> j < Np.size t -> at_ t i <= at_ t j.
Proof.
  intros Hs Hij Hj. unfold at_, Np.size in *.
  apply strongly_sorted_at; [exact Hs|lia].
Qed.

Lemma bins_span (t : list Z) (duration left : Z) (windows : list (Z * Z)) :
  StronglySorted Z.le t -> 0 <= duration ->
  bins t duration left windows -> 0 <= left ->
  Forall (bin_span_within t duration) windows.
Proof.
  intros Hs Hd Hb.
  assert (Hone : forall l r, 0 <= l -> r <= Np.size t ->
            (forall k, l <= k < r -> at_ t k - at_ t l <= duration) ->
            bin_span_within t duration (l, r)).
  { intros l r H0 Hr Hw i j Hi Hj. simpl in *.
    pose proof (Hw j Hj). pose proof (sorted_at t l i Hs ltac:(lia) ltac:(lia)).
    lia. }
  induction Hb as [left Hl Hw|left right rest Hl Hw Hg Hb IH]; intros H0;
    constructor.
  - apply Hone; [lia|lia|exact Hw].
  - constructor.
  - apply Hone; [lia|lia|exact Hw].
  - apply IH. lia.
Qed.

Lemma bins_order (t : list Z) (duration left : Z) (windows : list (Z * Z)) :
  StronglySorted Z.le t ->
  bins t duration left windows -> 0 <= left ->
  StronglySorted (bin_before t) windows.
Proof.
  intros Hs Hb.
  induction Hb as [left Hl Hw|left right rest Hl Hw Hg Hb IH]; intros H0.
  - repeat constructor.
  - constructor; [apply IH; lia|].
    pose proof (bins_first _ _ _ _ Hb) as Hf.
    pose proof (bins_bounds _ _ _ _ Hb ltac:(lia)) as Hbd.
    rewrite Forall_forall in *. intros b Hin i j Hi Hj. simpl in Hi.
    specialize (Hf b Hin). specialize (Hbd b Hin). simpl in Hf.
    split; [lia|]. apply sorted_at; [exact Hs|lia|lia].
Qed.

Lemma each_segment_windows (windows : list (Z * Z)) :
  each_segment (fun left right => Ok (left, right)) windows = Ok windows.
Proof.
  induction windows as [|[l r] rest IH]; simpl; [reflexivity|].
  now rewrite IH.
Qed.

Lemma each_segment_length {A : Type} (segment : Z -> Z -> result A)
  (windows : list (Z * Z)) (frames : list A) :
  each_segment segment windows = Ok frames -> length frames = length windows.
Proof.
  revert frames. induction windows as [|[l r] rest IH]; simpl; intros frames E.
  - now inversion E.
  - destruct (segment l r); simpl in E; [|discriminate].
    destruct (each_segment segment rest); simpl in E; [|discriminate].
    inversion E. simpl. f_equal. now apply IH.
Qed.

Lemma each_segment_integrate (events : Events) (H W : Z) (windows : list (Z * Z)) :
  EventRecord events H W -> 0 <= H -> 0 <= W ->
  Forall (fun b => 0 <= fst b < snd b /\ snd b <= events_number events) windows ->
  exists frames,
    each_segment (integrate_events_segment_to_frame events H W) windows
    = Ok frames /\
    Forall2 (fun b frame =>
               integrate_events_segment_to_frame events H W (fst b) (snd b)
               = Ok frame) windows frames /\
    map frame_total frames = map (fun b => snd b - fst b) windows.
Proof.
  intros Hrec HH HW. induction 1 as [|[l r] rest Hb Hrest IH]; simpl in *.
  - exists []. repeat split. constructor.
  - destruct (integrate_spec events H W l r Hrec HH HW ltac:(lia) ltac:(lia))
      as (frame & E & _ & _ & T & _).
    destruct IH as (frames & E' & F & M).
    exists (frame :: frames). rewrite E, E'. simpl. repeat split.
    + constructor; [exact E|exact F].
    + now rewrite T, M.
Qed.

(** * The claims *)

Lemma example_events_record : EventRecord example_events 3 3.
Proof.
  constructor; simpl; try reflexivity; repeat constructor; lia.
Defined.

(** C1: for an event record with coordinates inside the [H] by [W] sensor
    and polarities 0 or 1, and an index range [0 <= j_l <= j_r <= N],
    [integrate_events_segment_to_frame] returns a frame of shape
    [[2, H, W]] whose cells are non-negative counts and sum to
    [j_r - j_l]; for [j_l = j_r] the frame is all zero and no exception is
    raised. *)
Theorem integrate_segment_total (events : Events) (H W j_l j_r : Z) :
  EventRecord events H W -> 0 <= H -> 0 <= W ->
  0 <= j_l <= j_r -> j_r <= events_number events ->
  exists frame,
    integrate_events_segment_to_frame events H W j_l j_r = Ok frame /\
    has_shape frame H W /\
    all_cells (fun v => 0 <= v) frame /\
    frame_total frame = j_r - j_l /\
    (j_l = j_r -> all_cells (fun v => v = 0) frame).
Proof.
  intros Hrec HH HW Hl Hr.
  destruct (integrate_spec events H W j_l j_r Hrec HH HW Hl Hr)
    as (frame & E & S & P & T & _ & Z0).
  exists frame. repeat split; assumption || apply S.
Qed.

Lemma integrate_segment_total_witness :
  EventRecord example_events 3 3 /\
  exists frame,
    integrate_events_segment_to_frame example_events 3 3 1 4 = Ok frame /\
    has_shape frame 3 3 /\
    all_cells (fun v => 0 <= v) frame /\
    frame_total frame = 4 - 1 /\
    (1 = 4 -> all_cells (fun v => v = 0) frame).
Proof.
  split; [exact example_events_record|].
  apply (integrate_segment_total example_events 3 3 1 4).
  - exact example_events_record.
  - lia.
  - lia.
  - lia.
  - unfold events_number, Np.size. simpl. lia.
Defined.

(** C2: under the same conditions every cell [(c, y0, x0)] of the frame is
    the number of events [i] of [[j_l, j_r)] with
    [(p_i, y_i, x_i) = (c, y0, x0)]: events that share a pixel and a
    polarity are all counted. *)
Theorem integrate_cell_multiplicity (events : Events) (H W j_l j_r : Z) :
  EventRecord events H W -> 0 <= H -> 0 <= W ->
  0 <= j_l <= j_r -> j_r <= events_number events ->
  exists frame,
    integrate_events_segment_to_frame events H W j_l j_r = Ok frame /\
    forall c y0 x0, c = 0 \/ c = 1 -> 0 <= y0 < H -> 0 <= x0 < W ->
      cell frame c y0 x0 = segment_count events j_l j_r c y0 x0.
Proof.
  intros Hrec HH HW Hl Hr.
  destruct (integrate_spec events H W j_l j_r Hrec HH HW Hl Hr)
    as (frame & E & _ & _ & _ & C & _).
  exists frame. split; assumption.
Qed.

Lemma integrate_cell_multiplicity_witness :
  EventRecord example_events 3 3 /\
  exists frame,
    integrate_events_segment_to_frame example_events 3 3 0 4 = Ok frame /\
    forall c y0 x0, c = 0 \/ c = 1 -> 0 <= y0 < 3 -> 0 <= x0 < 3 ->
      cell frame c y0 x0 = segment_count example_events 0 4 c y0 x0.
Proof.
  split; [exact example_events_record|].
  apply (integrate_cell_multiplicity example_events 3 3 0 4).
  - exact example_events_record.
  - lia.
  - lia.
  - lia.
  - unfold events_number, Np.size. simpl. lia.
Defined.

(** C3: for [N] timestamps and [frames_num = k >= 1], the split by number
    returns [k] ranges; range [i < k - 1] is
    [[i * (N // k), (i + 1) * (N // k))] and holds [N // k] events, and
    the last range ends at [N] and holds [N - (k - 1) * (N // k)]
    events. *)
Theorem number_split_exact (events_t : list Z) (k : Z) :
  1 <= k ->
  exists j_l j_r,
    cal_fixed_frames_number_segment_index events_t "number" k
    = Ok (j_l, j_r) /\
    Np.size j_l = k /\ Np.size j_r = k /\
    (forall i, 0 <= i < k - 1 ->
       at_ j_l i = i * (Np.size events_t / k) /\
       at_ j_r i = (i + 1) * (Np.size events_t / k) /\
       at_ j_r i - at_ j_l i = Np.size events_t / k) /\
    at_ j_r (k - 1) = Np.size events_t /\
    at_ j_r (k - 1) - at_ j_l (k - 1)
    = Np.size events_t - (k - 1) * (Np.size events_t / k).
Proof.
  intros Hk. rewrite number_split_result by exact Hk.
  set (N := Np.size events_t). set (di := N / k).
  eexists. eexists. split; [reflexivity|].
  assert (Hlast : at_ (Np.update (map (fun i => i * di + di) (range k))
                         (Z.to_nat (k - 1)) N) (k - 1) = N).
  { unfold at_. apply update_nth_same. rewrite length_map, range_length. lia. }
  assert (Hleft : forall i, 0 <= i < k ->
            at_ (map (fun i => i * di) (range k)) i = i * di).
  { intros i Hi. now rewrite map_range_at. }
  split; [|split; [|split; [|split]]].
  - unfold Np.size. rewrite length_map, range_length. lia.
  - unfold Np.size. rewrite update_length, length_map, range_length. lia.
  - intros i Hi.
    assert (Hright : at_ (Np.update (map (fun i => i * di + di) (range k))
                            (Z.to_nat (k - 1)) N) i = (i + 1) * di).
    { unfold at_. rewrite update_nth_other by lia.
      fold (at_ (map (fun i => i * di + di) (range k)) i).
      rewrite map_range_at by lia. lia. }
    rewrite Hright, Hleft by lia. repeat split; lia.
  - exact Hlast.
  - rewrite Hlast, Hleft by lia. reflexivity.
Qed.

Lemma number_split_exact_witness :
  1 <= 3 /\
  exists j_l j_r,
    cal_fixed_frames_number_segment_index [0; 1; 2; 3; 4; 5; 6] "number" 3
    = Ok (j_l, j_r) /\
    Np.size j_l = 3 /\ Np.size j_r = 3 /\
    (forall i, 0 <= i < 3 - 1 ->
       at_ j_l i = i * (Np.size [0; 1; 2; 3; 4; 5; 6] / 3) /\
       at_ j_r i = (i + 1) * (Np.size [0; 1; 2; 3; 4; 5; 6] / 3) /\
       at_ j_r i - at_ j_l i = Np.size [0; 1; 2; 3; 4; 5; 6] / 3) /\
    at_ j_r (3 - 1) = Np.size [0; 1; 2; 3; 4; 5; 6] /\
    at_ j_r (3 - 1) - at_ j_l (3 - 1)
    = Np.size [0; 1; 2; 3; 4; 5; 6]
      - (3 - 1) * (Np.size [0; 1; 2; 3; 4; 5; 6] / 3).
Proof.
  split; [lia|].
  apply (number_split_exact [0; 1; 2; 3; 4; 5; 6] 3). lia.
Defined.

(** C4: for a non-decreasing timestamp array and [frames_num = M >= 1]
    such that every window
    [[t[0] + dt * i, t[0] + dt * (i + 1))], [dt = (t[N-1] - t[0]) // M],
    holds a timestamp, the split by time returns [M] ranges with
    [j_l[0] = 0], [j_r[M-1] = N] and [j_r[i] = j_l[i+1]] for [i < M - 1]. *)
Theorem time_split_contiguous (events_t : list Z) (M : Z) :
  Sorted Z.le events_t -> 1 <= M ->
  (forall i, 0 <= i < M -> window_nonempty events_t M i) ->
  exists j_l j_r,
    cal_fixed_frames_number_segment_index events_t "time" M = Ok (j_l, j_r) /\
    Np.size j_l = M /\ Np.size j_r = M /\
    at_ j_l 0 = 0 /\
    at_ j_r (M - 1) = Np.size events_t /\
    forall i, 0 <= i < M - 1 -> at_ j_r i = at_ j_l (i + 1).
Proof.
  intros Hs HM Hwin. rewrite (time_split_result events_t M Hs HM Hwin).
  set (dt := window_width events_t M). set (t0 := at_ events_t 0).
  eexists. eexists. split; [reflexivity|].
  split; [|split; [|split; [|split]]].
  - unfold Np.size. rewrite length_map, range_length. lia.
  - unfold Np.size. rewrite update_length, length_map, range_length. lia.
  - rewrite map_range_at by lia.
    rewrite rank_zero; [reflexivity|].
    eapply Forall_impl; [|apply sorted_first_least, sorted_strongly, Hs].
    simpl. fold t0. intros; lia.
  - unfold at_. apply update_nth_same. rewrite length_map, range_length. lia.
  - intros i Hi. unfold at_ at 1. rewrite update_nth_other by lia.
    fold (at_ (map (fun i => Z.of_nat (rank events_t (dt * i + t0 + dt)))
                 (range M)) i).
    rewrite !map_range_at by lia. do 2 f_equal. lia.
Qed.

Lemma time_split_contiguous_witness :
  (Sorted Z.le [0; 1; 2; 3] /\ 1 <= 2 /\
   forall i, 0 <= i < 2 -> window_nonempty [0; 1; 2; 3] 2 i) /\
  exists j_l j_r,
    cal_fixed_frames_number_segment_index [0; 1; 2; 3] "time" 2
    = Ok (j_l, j_r) /\
    Np.size j_l = 2 /\ Np.size j_r = 2 /\
    at_ j_l 0 = 0 /\
    at_ j_r (2 - 1) = Np.size [0; 1; 2; 3] /\
    forall i, 0 <= i < 2 - 1 -> at_ j_r i = at_ j_l (i + 1).
Proof.
  assert (Hs : Sorted Z.le [0; 1; 2; 3]) by (repeat constructor; lia).
  assert (Hw : forall i, 0 <= i < 2 -> window_nonempty [0; 1; 2; 3] 2 i).
  { intros i Hi. assert (Hc : i = 0 \/ i = 1) by lia.
    destruct Hc as [-> | ->]; unfold window_nonempty.
    - apply Exists_cons_hd. vm_compute. split; [discriminate|reflexivity].
    - apply Exists_cons_tl, Exists_cons_hd. vm_compute.
      split; [discriminate|reflexivity]. }
  split; [repeat split; [exact Hs|lia|exact Hw]|].
  apply (time_split_contiguous [0; 1; 2; 3] 2 Hs); [lia|exact Hw].
Defined.

(** C5: for an event record with [N >= 1] non-decreasing timestamps and a
    positive [duration], the windows [integrate_events_by_fixed_duration]
    integrates, one frame each, concatenate to the indices [0 .. N - 1]
    (no gap, no overlap), the frames' counts sum to [N], every window
    comes before the next one in index and in time, and no two timestamps
    of a window differ by more than [duration]. *)
Theorem duration_bins_partition (events : Events) (duration H W : Z)
  (fuel : nat) :
  EventRecord events H W -> 0 <= H -> 0 <= W ->
  Sorted Z.le (ev_t events) -> 1 <= events_number events -> 0 < duration ->
  (Z.to_nat (events_number events) + 2 <= fuel)%nat ->
  exists windows frames,
    fixed_duration_segments fuel (ev_t events) duration = Some (Ok windows) /\
    integrate_events_by_fixed_duration fuel events duration H W
    = Some (Ok frames) /\
    Forall2 (fun b frame =>
               integrate_events_segment_to_frame events H W (fst b) (snd b)
               = Ok frame) windows frames /\
    concat (map (fun b => zrange (fst b) (snd b)) windows)
    = range (events_number events) /\
    sum (map frame_total frames) = events_number events /\
    StronglySorted (bin_before (ev_t events)) windows /\
    Forall (bin_span_within (ev_t events) duration) windows.
Proof.
  intros Hrec HH HW Hs HN Hd Hf. unfold events_number in *.
  apply sorted_strongly in Hs.
  destruct (bin_loop_ok (ev_t events) duration) with (fuel := fuel) (left := 0)
    as (windows & Hb & Hloop); [lia|lia|lia|].
  pose proof (bins_bounds _ _ _ _ Hb ltac:(lia)) as Hbd.
  destruct (each_segment_integrate events H W windows Hrec HH HW Hbd)
    as (frames & E & F & T).
  exists windows, frames. repeat split.
  - unfold fixed_duration_segments. now rewrite Hloop, each_segment_windows.
  - unfold integrate_events_by_fixed_duration. now rewrite Hloop, E.
  - exact F.
  - rewrite (bins_partition _ _ _ _ Hb) by lia. unfold zrange, range.
    now rewrite Z.sub_0_r.
  - rewrite T, (bins_sizes _ _ _ _ Hb). lia.
  - apply (bins_order _ _ _ _ Hs Hb). lia.
  - apply (bins_span _ _ _ _ Hs (Z.lt_le_incl _ _ Hd) Hb). lia.
Qed.

Lemma duration_bins_partition_witness :
  (EventRecord example_events 3 3 /\ Sorted Z.le (ev_t example_events)) /\
  exists windows frames,
    fixed_duration_segments 6 (ev_t example_events) 3 = Some (Ok windows) /\
    integrate_events_by_fixed_duration 6 example_events 3 3 3
    = Some (Ok frames) /\
    Forall2 (fun b frame =>
               integrate_events_segment_to_frame example_events 3 3
                 (fst b) (snd b) = Ok frame) windows frames /\
    concat (map (fun b => zrange (fst b) (snd b)) windows)
    = range (events_number example_events) /\
    sum (map frame_total frames) = events_number example_events /\
    StronglySorted (bin_before (ev_t example_events)) windows /\
    Forall (bin_span_within (ev_t example_events) 3) windows.
Proof.
  assert (Hs : Sorted Z.le (ev_t example_events))
    by (simpl; repeat constructor; lia).
  split; [split; [exact example_events_record|exact Hs]|].
  apply (duration_bins_partition example_events 3 3 3 6).
  - exact example_events_record.
  - lia.
  - lia.
  - exact Hs.
  - unfold events_number, Np.size. simpl. lia.
  - lia.
  - unfold events_number, Np.size. simpl. lia.
Defined.

(** C6, as the code has it: on an empty event record the binner has no
    guard; its first statement reads [t[0]] and raises an index error, so
    it neither loops nor returns a frame sequence. *)
Theorem duration_empty_record_raises (x y p : list Z) (duration H W : Z)
  (fuel : nat) :
  integrate_events_by_fixed_duration (S fuel) (mkEvents [] x y p) duration H W
  = Some (Raise IndexError).
Proof.
  unfold integrate_events_by_fixed_duration. cbn [bin_loop ev_t].
  now rewrite getitem_empty.
Qed.

(** C6 as stated fails: whatever the fuel, the binner does not return the
    empty frame sequence on the empty event record. *)
Lemma duration_empty_record_not_empty_sequence :
  ~ exists fuel,
      integrate_events_by_fixed_duration fuel (mkEvents [] [] [] []) 1 1 1
      = Some (Ok []).
Proof.
  intros [[|fuel] E].
  - discriminate E.
  - unfold integrate_events_by_fixed_duration in E. cbn [bin_loop ev_t] in E.
    rewrite getitem_empty in E. discriminate E.
Qed.

(** C7: a file made of 5-byte records [(b0, b1, b2, b3, b4)] decodes, record
    by record, to [x = b0], [y = b1], [p = (b2 >> 7) & 1] and
    [t = ((b2 & 0x7F) << 16) | (b3 << 8) | b4]; the record
    [[10, 20, 0b10000101, 0x00, 0x7F]] decodes to [x = 10], [y = 20],
    [p = 1], [t = 327807]. *)
Theorem load_ATIS_bin_decodes :
  (forall recs : list (byte * byte * byte * byte * byte),
     load_ATIS_bin (flat_map record_bytes recs)
     = Ok (mkEvents
             (map (fun '(b0, b1, b2, b3, b4) =>
                     Z.lor (Z.lor (Z.shiftl (Z.land (u8 b2) 0x7F) 16)
                                  (Z.shiftl (u8 b3) 8))
                           (u8 b4)) recs)
             (map (fun '(b0, b1, b2, b3, b4) => u8 b0) recs)
             (map (fun '(b0, b1, b2, b3, b4) => u8 b1) recs)
             (map (fun '(b0, b1, b2, b3, b4) =>
                     Z.land (Z.shiftr (u8 b2) 7) 1) recs))) /\
  load_ATIS_bin [x0a; x14; x85; x00; x7f]
  = Ok (mkEvents [327807] [10] [20] [1]).
Proof.
  split; [|reflexivity].
  intros recs. unfold load_ATIS_bin.
  rewrite !strided_records by lia. rewrite !map_map.
  rewrite broadcast_same by now rewrite !length_map.
  cbn [bind]. rewrite zip_with_map.
  rewrite broadcast_same by now rewrite !length_map.
  cbn [bind]. rewrite zip_with_map.
  f_equal. f_equal; apply map_ext; intros [[[[b0 b1] b2] b3] b4];
    cbn [record_bytes nth]; try reflexivity.
  - now rewrite byte_timestamp_high, byte_timestamp_mid.
  - apply byte_polarity.
Qed.

(** C8: the padder returns a sequence of [N >= L] frames unchanged; a
    sequence of [N < L] frames becomes one of exactly [L] frames whose first
    [N] are the input and whose last [L - N] are all-zero frames of the
    input's frame shape; in both cases the input is a prefix of the
    result. *)
Theorem PadFrames_call_pads (self : PadFrames) (frames : FrameSeq) :
  (max_frames_number self <= shape0 frames ->
   PadFrames_call self frames = Ok frames) /\
  (shape0 frames < max_frames_number self ->
   exists padded,
     PadFrames_call self frames = Ok padded /\
     shape0 padded = max_frames_number self /\
     (shape1 padded, shape2 padded, shape3 padded)
     = (shape1 frames, shape2 frames, shape3 frames) /\
     firstn (Z.to_nat (shape0 frames)) (frames_of padded) = frames_of frames /\
     skipn (Z.to_nat (shape0 frames)) (frames_of padded)
     = repeat (zero_frame (shape1 frames) (shape2 frames) (shape3 frames))
         (Z.to_nat (max_frames_number self - shape0 frames))) /\
  (exists out,
     PadFrames_call self frames = Ok out /\
     firstn (Z.to_nat (shape0 frames)) (frames_of out) = frames_of frames) /\
  all_cells (fun v => v = 0)
    (zero_frame (shape1 frames) (shape2 frames) (shape3 frames)) /\
  length (zero_frame (shape1 frames) (shape2 frames) (shape3 frames))
  = shape1 frames /\
  Forall (fun channel =>
            length channel = shape2 frames /\
            Forall (fun row => length row = shape3 frames) channel)
    (zero_frame (shape1 frames) (shape2 frames) (shape3 frames)).
Proof.
  assert (Hpre : forall rest : list Frame,
            firstn (Z.to_nat (shape0 frames)) (frames_of frames ++ rest)
            = frames_of frames).
  { intros rest. unfold shape0, Np.size. rewrite Nat2Z.id.
    rewrite firstn_app, Nat.sub_diag, firstn_all. simpl. apply app_nil_r. }
  assert (Hpad : shape0 frames < max_frames_number self ->
            PadFrames_call self frames
            = Ok (mkFrameSeq (shape1 frames) (shape2 frames) (shape3 frames)
                    (frames_of frames
                     ++ repeat (zero_frame (shape1 frames) (shape2 frames)
                                  (shape3 frames))
                          (Z.to_nat (max_frames_number self - shape0 frames))))).
  { intros Hlt. unfold PadFrames_call, zeros4, concatenate0.
    destruct (Z.ltb_spec (shape0 frames) (max_frames_number self)); [|lia].
    destruct (Z.ltb_spec (max_frames_number self - shape0 frames) 0); [lia|].
    cbn [bind shape1 shape2 shape3 frames_of].
    now rewrite !Nat.eqb_refl. }
  split; [|split; [|split; [|split]]].
  - intros Hge. unfold PadFrames_call.
    destruct (Z.ltb_spec (shape0 frames) (max_frames_number self)); [lia|].
    reflexivity.
  - intros Hlt. eexists. split; [exact (Hpad Hlt)|].
    cbn [shape1 shape2 shape3 frames_of]. repeat split.
    + unfold shape0, Np.size. cbn [frames_of].
      rewrite length_app, repeat_length. unfold shape0, Np.size in Hlt. lia.
    + apply Hpre.
    + unfold shape0, Np.size. rewrite Nat2Z.id.
      rewrite skipn_app, Nat.sub_diag, skipn_all. reflexivity.
  - destruct (Z.lt_ge_cases (shape0 frames) (max_frames_number self))
      as [Hlt|Hge].
    + eexists. split; [exact (Hpad Hlt)|]. apply Hpre.
    + exists frames. split.
      * unfold PadFrames_call.
        destruct (Z.ltb_spec (shape0 frames) (max_frames_number self));
          [lia|reflexivity].
      * specialize (Hpre []). now rewrite app_nil_r in Hpre.
  - apply zero_frame_cells.
  - apply zero_frame_shape.
Qed.

Lemma segment_count_snoc (events : Events) (n c y0 x0 : Z) :
  1 <= n ->
  segment_count events 0 n c y0 x0
  = segment_count events 0 (n - 1) c y0 x0
    + (if event_in_cell events c y0 x0 (Z.to_nat (n - 1)) then 1 else 0).
Proof.
  intros Hn. unfold segment_count.
  replace (Z.to_nat (n - 0)) with (S (Z.to_nat (n - 1 - 0))) by lia.
  rewrite seq_S, filter_app, length_app. cbn [filter].
  replace (Z.to_nat 0 + Z.to_nat (n - 1 - 0))%nat with (Z.to_nat (n - 1)) by lia.
  destruct (event_in_cell events c y0 x0 (Z.to_nat (n - 1))); simpl length; lia.
Qed.

(** C9: with the default arguments [j_l = 0], [j_r = -1] on a record of
    [N >= 1] events, the slices stop before index [N - 1]: the call is the
    call with [j_r = N - 1], its frame counts the events of [[0, N - 1)]
    only, sums to [N - 1], and the cell of the last event misses that
    event. *)
Theorem default_call_excludes_last_event (events : Events) (H W : Z) :
  EventRecord events H W -> 0 <= H -> 0 <= W -> 1 <= events_number events ->
  integrate_events_segment_to_frame_default events H W
  = integrate_events_segment_to_frame events H W 0 (events_number events - 1) /\
  exists frame,
    integrate_events_segment_to_frame_default events H W = Ok frame /\
    frame_total frame = events_number events - 1 /\
    (forall c y0 x0, c = 0 \/ c = 1 -> 0 <= y0 < H -> 0 <= x0 < W ->
       cell frame c y0 x0
       = segment_count events 0 (events_number events - 1) c y0 x0) /\
    cell frame (at_ (ev_p events) (events_number events - 1))
      (at_ (ev_y events) (events_number events - 1))
      (at_ (ev_x events) (events_number events - 1))
    = segment_count events 0 (events_number events)
        (at_ (ev_p events) (events_number events - 1))
        (at_ (ev_y events) (events_number events - 1))
        (at_ (ev_x events) (events_number events - 1)) - 1.
Proof.
  intros Hrec HH HW HN.
  assert (Hdef : integrate_events_segment_to_frame_default events H W
                 = integrate_events_segment_to_frame events H W 0
                     (events_number events - 1)).
  { destruct Hrec as [Lx Ly Lp _ _ _].
    unfold integrate_events_segment_to_frame_default,
      integrate_events_segment_to_frame, events_number in *.
    assert (Sx : Np.size (ev_x events) = Np.size (ev_t events))
      by (unfold Np.size; congruence).
    assert (Sy : Np.size (ev_y events) = Np.size (ev_t events))
      by (unfold Np.size; congruence).
    assert (Sp : Np.size (ev_p events) = Np.size (ev_t events))
      by (unfold Np.size; congruence).
    rewrite !slice_minus_one by lia. now rewrite Sx, Sy, Sp. }
  split; [exact Hdef|]. rewrite Hdef.
  destruct (integrate_spec events H W 0 (events_number events - 1)
              Hrec HH HW ltac:(lia) ltac:(lia))
    as (frame & E & _ & _ & T & C & _).
  exists frame. split; [exact E|]. split; [lia|]. split; [exact C|].
  set (n := events_number events) in *.
  destruct Hrec as [Lx Ly Lp Fx Fy Fp].
  unfold events_number, Np.size in n.
  assert (Hk : (Z.to_nat (n - 1) < length (ev_t events))%nat) by lia.
  pose proof (Forall_at _ _ _ Fx ltac:(rewrite Lx; exact Hk)) as Hx.
  pose proof (Forall_at _ _ _ Fy ltac:(rewrite Ly; exact Hk)) as Hy.
  pose proof (Forall_at _ _ _ Fp ltac:(rewrite Lp; exact Hk)) as Hp.
  simpl in Hx, Hy, Hp.
  rewrite C by assumption.
  rewrite (segment_count_snoc events n) by lia.
  unfold event_in_cell, at_. rewrite !Z.eqb_refl. simpl. lia.
Qed.

Lemma default_call_excludes_last_event_witness :
  EventRecord example_events 3 3 /\
  integrate_events_segment_to_frame_default example_events 3 3
  = integrate_events_segment_to_frame example_events 3 3 0
      (events_number example_events - 1) /\
  exists frame,
    integrate_events_segment_to_frame_default example_events 3 3 = Ok frame /\
    frame_total frame = events_number example_events - 1 /\
    (forall c y0 x0, c = 0 \/ c = 1 -> 0 <= y0 < 3 -> 0 <= x0 < 3 ->
       cell frame c y0 x0
       = segment_count example_events 0 (events_number example_events - 1)
           c y0 x0) /\
    cell frame (at_ (ev_p example_events) (events_number example_events - 1))
      (at_ (ev_y example_events) (events_number example_events - 1))
      (at_ (ev_x example_events) (events_number example_events - 1))
    = segment_count example_events 0 (events_number example_events)
        (at_ (ev_p example_events) (events_number example_events - 1))
        (at_ (ev_y example_events) (events_number example_events - 1))
        (at_ (ev_x example_events) (events_number example_events - 1)) - 1.
Proof.
  split; [exact example_events_record|].
  apply (default_call_excludes_last_event example_events 3 3).
  - exact example_events_record.
  - lia.
  - lia.
  - unfold events_number, Np.size. simpl. lia.
Defined.

(** C10: for a record of [N >= 1] events and [duration >= 0] the binner
    returns: with [N + 2] units of fuel or more both loops finish.  Every
    window it cuts holds at least one event, each window starts after the
    previous one, and at most [N] windows, hence frames, are produced. *)
Theorem duration_binner_terminates (events : Events) (duration H W : Z)
  (fuel : nat) :
  1 <= events_number events -> 0 <= duration ->
  (Z.to_nat (events_number events) + 2 <= fuel)%nat ->
  exists windows outcome,
    fixed_duration_segments fuel (ev_t events) duration = Some (Ok windows) /\
    Forall (fun b => 0 <= fst b < snd b /\ snd b <= events_number events)
      windows /\
    StronglySorted (fun b1 b2 => fst b1 < fst b2 /\ snd b1 <= fst b2) windows /\
    Z.of_nat (length windows) <= events_number events /\
    integrate_events_by_fixed_duration fuel events duration H W
    = Some outcome /\
    forall frames, outcome = Ok frames -> length frames = length windows.
Proof.
  intros HN Hd Hf. unfold events_number in *.
  destruct (bin_loop_ok (ev_t events) duration) with (fuel := fuel) (left := 0)
    as (windows & Hb & Hloop); [lia|lia|lia|].
  exists windows.
  exists (produced <- each_segment
                        (integrate_events_segment_to_frame events H W) windows ;;
          Ok ([] ++ produced)).
  repeat split.
  - unfold fixed_duration_segments. now rewrite Hloop, each_segment_windows.
  - apply (bins_bounds _ _ _ _ Hb). lia.
  - apply (bins_increasing _ _ _ _ Hb).
  - pose proof (bins_number _ _ _ _ Hb). lia.
  - unfold integrate_events_by_fixed_duration. now rewrite Hloop.
  - intros frames E.
    destruct (each_segment (integrate_events_segment_to_frame events H W)
                windows) as [produced|e] eqn:Es; simpl in E; [|discriminate].
    inversion E. subst frames. now apply (each_segment_length _ _ _ Es).
Qed.

Lemma duration_binner_terminates_witness :
  (1 <= events_number example_events /\ 0 <= 3) /\
  exists windows outcome,
    fixed_duration_segments 6 (ev_t example_events) 3 = Some (Ok windows) /\
    Forall (fun b => 0 <= fst b < snd b /\ snd b <= events_number example_events)
      windows /\
    StronglySorted (fun b1 b2 => fst b1 < fst b2 /\ snd b1 <= fst b2) windows /\
    Z.of_nat (length windows) <= events_number example_events /\
    integrate_events_by_fixed_duration 6 example_events 3 3 3 = Some outcome /\
    forall frames, outcome = Ok frames -> length frames = length windows.
Proof.
  assert (HN : 1 <= events_number example_events)
    by (unfold events_number, Np.size; simpl; lia).
  split; [split; [exact HN|lia]|].
  apply (duration_binner_terminates example_events 3 3 3 6).
  - exact HN.
  - lia.
  - unfold events_number, Np.size. simpl. lia.
Defined.

(** * Further properties *)

(** ** The frame integrator on arbitrary records *)

Lemma slice_length_same {A B : Type} (a : list A) (b : list B) (lo hi : Z) :
  length a = length b -> length (Np.slice a lo hi) = length (Np.slice b lo hi).
Proof.
  intros Hl. unfold Np.slice, Np.size.
  now rewrite !length_firstn, !length_skipn, Hl.
Qed.

(** The integrator, once its masks and selections are known to succeed:
    two histograms, each added onto a row of zeros. *)
Lemma integrate_channels (events : Events) (H W j_l j_r : Z) :
  length (ev_x events) = length (ev_p events) ->
  length (ev_y events) = length (ev_p events) ->
  0 <= H * W ->
  integrate_events_segment_to_frame events H W j_l j_r
  = (cnt0 <- Np.bincount
               (positions (Np.slice (ev_y events) j_l j_r)
                  (Np.slice (ev_x events) j_l j_r) W
                  (map (fun v => v =? 0) (Np.slice (ev_p events) j_l j_r))) ;;
     row0 <- Np.iadd_arange (repeat 0 (Z.to_nat (H * W))) cnt0 ;;
     cnt1 <- Np.bincount
               (positions (Np.slice (ev_y events) j_l j_r)
                  (Np.slice (ev_x events) j_l j_r) W
                  (map negb (map (fun v => v =? 0)
                               (Np.slice (ev_p events) j_l j_r)))) ;;
     row1 <- Np.iadd_arange (repeat 0 (Z.to_nat (H * W))) cnt1 ;;
     Np.reshape_2HW [row0; row1] H W).
Proof.
  intros Lx Ly HHW. unfold integrate_events_segment_to_frame.
  pose proof (slice_length_same (ev_x events) (ev_p events) j_l j_r Lx) as Hlx.
  pose proof (slice_length_same (ev_y events) (ev_p events) j_l j_r Ly) as Hly.
  set (x := Np.slice (ev_x events) j_l j_r) in *.
  set (y := Np.slice (ev_y events) j_l j_r) in *.
  set (p := Np.slice (ev_p events) j_l j_r) in *.
  set (mask0 := map (fun v => v =? 0) p).
  set (mask1 := map negb mask0).
  assert (Hm0 : length mask0 = length p) by (unfold mask0; now rewrite length_map).
  assert (Hm1 : length mask1 = length p) by (unfold mask1; now rewrite length_map).
  unfold Np.zeros2.
  destruct (Z.ltb_spec (H * W) 0) as [Hn|_]; [lia|].
  change ((2 <? 0) || false) with false. cbv iota.
  change (Z.to_nat 2) with 2%nat. cbn [repeat bind].
  unfold for_range. change (range 2) with [0; 1].
  cbn [for_each bind].
  change (Np.getitem [mask0; mask1] 0) with (Ok mask0).
  change (Np.getitem [mask0; mask1] 1) with (Ok mask1).
  cbn [bind].
  rewrite (bool_index_ok y mask0), (bool_index_ok x mask0) by congruence.
  cbn [bind].
  rewrite broadcast_same
    by (unfold Np.scale; rewrite length_map; apply select_length; congruence).
  cbn [bind]. fold (positions y x W mask0).
  destruct (Np.bincount (positions y x W mask0)) as [cnt0|e]; cbn [bind];
    [|reflexivity].
  match goal with
  | |- context [Np.getitem [?a; ?b] 0] =>
      change (Np.getitem [a; b] 0) with (Ok a)
  end.
  cbn [bind].
  destruct (Np.iadd_arange (repeat 0 (Z.to_nat (H * W))) cnt0) as [row0|e];
    cbn [bind]; [|reflexivity].
  match goal with
  | |- context [Np.setitem [?a; ?b] 0 ?v] =>
      change (Np.setitem [a; b] 0 v) with (Ok [v; b])
  end.
  cbn [bind].
  rewrite (bool_index_ok y mask1), (bool_index_ok x mask1) by congruence.
  cbn [bind].
  rewrite broadcast_same
    by (unfold Np.scale; rewrite length_map; apply select_length; congruence).
  cbn [bind]. fold (positions y x W mask1).
  destruct (Np.bincount (positions y x W mask1)) as [cnt1|e]; cbn [bind];
    [|reflexivity].
  match goal with
  | |- context [Np.getitem [?a; ?b] 1] =>
      change (Np.getitem [a; b] 1) with (Ok b)
  end.
  cbn [bind].
  destruct (Np.iadd_arange (repeat 0 (Z.to_nat (H * W))) cnt1) as [row1|e];
    cbn [bind]; [|reflexivity].
  match goal with
  | |- context [Np.setitem [?a; ?b] 1 ?v] =>
      change (Np.setitem [a; b] 1 v) with (Ok [a; v])
  end.
  reflexivity.
Qed.







(** Conversely every position comes from a selected event. *)
Lemma positions_In_inv (f : Z -> bool) (W v : Z) (p y x : list Z) :
  length y = length p -> length x = length p ->
  In v (positions y x W (map f p)) ->
  exists i, (i < length p)%nat /\ f (nth i p 0) = true /\
            v = nth i y 0 * W + nth i x 0.
Proof.
  unfold positions, Np.scale. revert y x.
  induction p as [|c p IH]; intros [|u y] [|w x] Hy Hx Hin;
    simpl in *; try lia; try contradiction.
  destruct (f c) eqn:Ef; simpl in Hin.
  - destruct Hin as [<-|Hin].
    + exists 0%nat. repeat split; [lia|exact Ef].
    + destruct (IH y x ltac:(lia) ltac:(lia) Hin) as (i & Hi & Hfi & Hv).
      exists (S i). repeat split; [lia|exact Hfi|exact Hv].
  - destruct (IH y x ltac:(lia) ltac:(lia) Hin) as (i & Hi & Hfi & Hv).
    exists (S i). repeat split; [lia|exact Hfi|exact Hv].
Qed.

Lemma channel_mask (v c : Z) :
  c = 0 \/ c = 1 ->
  (channel_of v =? c) = if c =? 0 then v =? 0 else negb (v =? 0).
Proof. unfold channel_of. intros [-> | ->]; destruct (v =? 0); reflexivity. Qed.

Section IntegrateAnyRecord.

Variables (events : Events) (H W j_l j_r : Z).
Hypothesis Hlen : same_lengths events.
Hypothesis Hl : 0 <= j_l <= j_r.
Hypothesis Hr : j_r <= events_number events.

Lemma positions_flat_count (c v : Z) :
  c = 0 \/ c = 1 ->
  Np.count v
    (positions (Np.slice (ev_y events) j_l j_r)
       (Np.slice (ev_x events) j_l j_r) W
       (map (fun u => if c =? 0 then u =? 0 else negb (u =? 0))
          (Np.slice (ev_p events) j_l j_r)))
  = flat_count events W j_l j_r c v.
Proof.
  intros Hc. destruct Hlen as (Lx & Ly & Lp).
  unfold events_number, Np.size in Hr.
  assert (Sx : Np.size (ev_x events) = Z.of_nat (length (ev_t events)))
    by (unfold Np.size; congruence).
  assert (Sy : Np.size (ev_y events) = Z.of_nat (length (ev_t events)))
    by (unfold Np.size; congruence).
  assert (Sp : Np.size (ev_p events) = Z.of_nat (length (ev_t events)))
    by (unfold Np.size; congruence).
  rewrite positions_count by (rewrite !slice_length by lia; reflexivity).
  unfold flat_count.
  rewrite (length_filter_seq
             (fun i => (channel_of (nth i (ev_p events) 0) =? c)
                       && (position_of events W i =? v))).
  rewrite (slice_length (ev_p events)) by lia.
  f_equal. f_equal. apply filter_ext_in. intros i Hi.
  apply in_seq in Hi. unfold position_of.
  rewrite !slice_nth by lia. now rewrite (channel_mask _ c Hc).
Qed.

(** The positions of both channels are positions of events of the
    segment. *)
Lemma segment_positions_inv (c v : Z) :
  In v (positions (Np.slice (ev_y events) j_l j_r)
          (Np.slice (ev_x events) j_l j_r) W
          (map (fun u => if c =? 0 then u =? 0 else negb (u =? 0))
             (Np.slice (ev_p events) j_l j_r))) ->
  exists i, j_l <= Z.of_nat i < j_r /\ v = position_of events W i.
Proof.
  intros Hin. destruct Hlen as (Lx & Ly & Lp).
  unfold events_number, Np.size in Hr.
  assert (Sx : Np.size (ev_x events) = Z.of_nat (length (ev_t events)))
    by (unfold Np.size; congruence).
  assert (Sy : Np.size (ev_y events) = Z.of_nat (length (ev_t events)))
    by (unfold Np.size; congruence).
  assert (Sp : Np.size (ev_p events) = Z.of_nat (length (ev_t events)))
    by (unfold Np.size; congruence).
  apply positions_In_inv in Hin; [|rewrite !slice_length by lia; reflexivity..].
  destruct Hin as (k & Hk & _ & Hv).
  rewrite slice_length in Hk by lia.
  rewrite !slice_nth in Hv by lia.
  exists (Z.to_nat j_l + k)%nat. split; [lia|exact Hv].
Qed.


Lemma integrate_channels_here :
  0 <= H * W ->
  integrate_events_segment_to_frame events H W j_l j_r
  = (cnt0 <- Np.bincount
               (positions (Np.slice (ev_y events) j_l j_r)
                  (Np.slice (ev_x events) j_l j_r) W
                  (map (fun u => if 0 =? 0 then u =? 0 else negb (u =? 0))
                     (Np.slice (ev_p events) j_l j_r))) ;;
     row0 <- Np.iadd_arange (repeat 0 (Z.to_nat (H * W))) cnt0 ;;
     cnt1 <- Np.bincount
               (positions (Np.slice (ev_y events) j_l j_r)
                  (Np.slice (ev_x events) j_l j_r) W
                  (map (fun u => if 1 =? 0 then u =? 0 else negb (u =? 0))
                     (Np.slice (ev_p events) j_l j_r))) ;;
     row1 <- Np.iadd_arange (repeat 0 (Z.to_nat (H * W))) cnt1 ;;
     Np.reshape_2HW [row0; row1] H W).
Proof.
  intros HHW. destruct Hlen as (Lx & Ly & Lp).
  rewrite integrate_channels by congruence.
  now rewrite map_map.
Qed.

End IntegrateAnyRecord.

Lemma stray_events_lengths : same_lengths stray_events.
Proof. repeat split. Defined.

Lemma stray_events_positions (i : nat) :
  0 <= Z.of_nat i < 2 -> 0 <= position_of stray_events 3 i < 3 * 3.
Proof.
  intros Hi. assert (Hc : i = 0%nat \/ i = 1%nat) by lia.
  destruct Hc as [-> | ->]; vm_compute; split; discriminate || reflexivity.
Defined.

(** X1: the integrator does not look at [x], [y] and [p] one by one.  For
    arrays of one length whose flattened indices [y * W + x] over the
    segment lie in [[0, H * W)], it returns a frame of shape [[2, H, W]]
    summing to [j_r - j_l] in which cell [(c, y0, x0)] counts the events
    with flattened index [y0 * W + x0] whose polarity is zero (for
    [c = 0]) or anything else (for [c = 1]). *)
Theorem integrate_counts_by_flat_index (events : Events) (H W j_l j_r : Z) :
  same_lengths events -> 0 <= H -> 0 <= W ->
  0 <= j_l <= j_r -> j_r <= events_number events ->
  (forall i, j_l <= Z.of_nat i < j_r -> 0 <= position_of events W i < H * W) ->
  exists frame,
    integrate_events_segment_to_frame events H W j_l j_r = Ok frame /\
    has_shape frame H W /\
    frame_total frame = j_r - j_l /\
    forall c y0 x0, c = 0 \/ c = 1 -> 0 <= y0 < H -> 0 <= x0 < W ->
      cell frame c y0 x0 = flat_count events W j_l j_r c (y0 * W + x0).
Proof.
  intros Hlen HH HW Hl Hr Hpos.
  assert (HHW : 0 <= H * W) by nia.
  assert (Hin : forall c, Forall (fun v => 0 <= v < H * W)
            (positions (Np.slice (ev_y events) j_l j_r)
               (Np.slice (ev_x events) j_l j_r) W
               (map (fun u => if c =? 0 then u =? 0 else negb (u =? 0))
                  (Np.slice (ev_p events) j_l j_r)))).
  { intros c. apply Forall_forall. intros v Hv.
    destruct (segment_positions_inv events W j_l j_r Hlen Hl Hr c v Hv)
      as (i & Hi & ->). now apply Hpos. }
  rewrite (integrate_channels_here events H W j_l j_r Hlen HHW).
  destruct (bincount_ok _ (H * W) HHW (Hin 0)) as (cnt0 & B0 & L0 & C0 & S0).
  destruct (bincount_ok _ (H * W) HHW (Hin 1)) as (cnt1 & B1 & L1 & C1 & S1).
  destruct (iadd_arange_ok cnt0 (repeat 0 (Z.to_nat (H * W))))
    as (row0 & I0 & R0 & K0 & T0); [now rewrite repeat_length|].
  destruct (iadd_arange_ok cnt1 (repeat 0 (Z.to_nat (H * W))))
    as (row1 & I1 & R1 & K1 & T1); [now rewrite repeat_length|].
  rewrite B0. cbn [bind]. rewrite I0. cbn [bind].
  rewrite B1. cbn [bind]. rewrite I1. cbn [bind].
  unfold Np.reshape_2HW.
  destruct (Z.ltb_spec H 0); [lia|]. destruct (Z.ltb_spec W 0); [lia|].
  cbn [orb map].
  rewrite repeat_length in R0, R1.
  assert (HWn : Z.to_nat (H * W) = (Z.to_nat H * Z.to_nat W)%nat) by nia.
  eexists. split; [reflexivity|]. split; [|split].
  - split; [reflexivity|].
    repeat constructor; try apply rows_length; apply rows_width; lia.
  - unfold frame_total. simpl. rewrite !rows_sum by lia.
    rewrite T0, T1, S0, S1, !sum_repeat_zero. unfold Np.size.
    destruct Hlen as (Lx & Ly & Lp). unfold events_number, Np.size in Hr.
    assert (Hsl : forall a : list Z, length a = length (ev_t events) ->
              length (Np.slice a j_l j_r) = Z.to_nat (j_r - j_l))
      by (intros a Ha; apply slice_length; unfold Np.size; lia).
    rewrite !positions_length
      by (rewrite ?length_map, !Hsl by assumption; reflexivity).
    pose proof (select_length_split (Np.slice (ev_x events) j_l j_r)
                  (map (fun u => u =? 0) (Np.slice (ev_p events) j_l j_r))
                  ltac:(rewrite length_map, !Hsl by assumption; reflexivity))
      as Hs.
    rewrite map_map in Hs. rewrite Hsl in Hs by assumption.
    change (fun u : Z => if 0 =? 0 then u =? 0 else negb (u =? 0))
      with (fun u : Z => u =? 0).
    change (fun u : Z => if 1 =? 0 then u =? 0 else negb (u =? 0))
      with (fun u : Z => negb (u =? 0)).
    lia.
  - intros c y0 x0 Hc Hy0 Hx0.
    rewrite <- (positions_flat_count events W j_l j_r Hlen Hl Hr c _ Hc).
    unfold cell.
    assert (Hi : Z.of_nat (Z.to_nat y0 * Z.to_nat W + Z.to_nat x0)
                 = y0 * W + x0) by nia.
    destruct Hc as [-> | ->]; simpl nth; rewrite rows_cell by lia.
    + rewrite K0, C0, nth_repeat, Hi. lia.
    + rewrite K1, C1, nth_repeat, Hi. lia.
Qed.

Lemma integrate_counts_by_flat_index_witness :
  same_lengths stray_events /\
  exists frame,
    integrate_events_segment_to_frame stray_events 3 3 0 2 = Ok frame /\
    has_shape frame 3 3 /\
    frame_total frame = 2 - 0 /\
    forall c y0 x0, c = 0 \/ c = 1 -> 0 <= y0 < 3 -> 0 <= x0 < 3 ->
      cell frame c y0 x0 = flat_count stray_events 3 0 2 c (y0 * 3 + x0).
Proof.
  split; [exact stray_events_lengths|].
  apply (integrate_counts_by_flat_index stray_events 3 3 0 2).
  - exact stray_events_lengths.
  - lia.
  - lia.
  - lia.
  - unfold events_number, Np.size. simpl. lia.
  - exact stray_events_positions.
Defined.





Lemma segment_count_split (events : Events) (a b c ch y0 x0 : Z) :
  0 <= a <= b -> b <= c ->
  segment_count events a c ch y0 x0
  = segment_count events a b ch y0 x0 + segment_count events b c ch y0 x0.
Proof.
  intros Hab Hbc. unfold segment_count.
  replace (Z.to_nat (c - a))
    with (Z.to_nat (b - a) + Z.to_nat (c - b))%nat by lia.
  rewrite seq_app, filter_app, length_app.
  replace (Z.to_nat a + Z.to_nat (b - a))%nat with (Z.to_nat b) by lia.
  lia.
Qed.

(** X4: integration is additive over adjacent segments.  For an event
    record and [0 <= a <= b <= c <= N], the frame of [[a, c)] is, cell by
    cell, the sum of the frames of [[a, b)] and [[b, c)]. *)
Theorem integrate_adjacent_segments (events : Events) (H W a b c : Z) :
  EventRecord events H W -> 0 <= H -> 0 <= W ->
  0 <= a <= b -> b <= c -> c <= events_number events ->
  exists frame_ab frame_bc frame_ac,
    integrate_events_segment_to_frame events H W a b = Ok frame_ab /\
    integrate_events_segment_to_frame events H W b c = Ok frame_bc /\
    integrate_events_segment_to_frame events H W a c = Ok frame_ac /\
    forall ch y0 x0, ch = 0 \/ ch = 1 -> 0 <= y0 < H -> 0 <= x0 < W ->
      cell frame_ac ch y0 x0
      = cell frame_ab ch y0 x0 + cell frame_bc ch y0 x0.
Proof.
  intros Hrec HH HW Hab Hbc Hc.
  destruct (integrate_spec events H W a b Hrec HH HW ltac:(lia) ltac:(lia))
    as (fab & Eab & _ & _ & _ & Cab & _).
  destruct (integrate_spec events H W b c Hrec HH HW ltac:(lia) ltac:(lia))
    as (fbc & Ebc & _ & _ & _ & Cbc & _).
  destruct (integrate_spec events H W a c Hrec HH HW ltac:(lia) ltac:(lia))
    as (fac & Eac & _ & _ & _ & Cac & _).
  exists fab, fbc, fac. repeat split; try assumption.
  intros ch y0 x0 Hch Hy0 Hx0.
  rewrite Cab, Cbc, Cac by assumption.
  apply segment_count_split; lia.
Qed.

Lemma integrate_adjacent_segments_witness :
  EventRecord example_events 3 3 /\
  exists frame_ab frame_bc frame_ac,
    integrate_events_segment_to_frame example_events 3 3 0 1 = Ok frame_ab /\
    integrate_events_segment_to_frame example_events 3 3 1 4 = Ok frame_bc /\
    integrate_events_segment_to_frame example_events 3 3 0 4 = Ok frame_ac /\
    forall ch y0 x0, ch = 0 \/ ch = 1 -> 0 <= y0 < 3 -> 0 <= x0 < 3 ->
      cell frame_ac ch y0 x0
      = cell frame_ab ch y0 x0 + cell frame_bc ch y0 x0.
Proof.
  split; [exact example_events_record|].
  apply (integrate_adjacent_segments example_events 3 3 0 1 4).
  - exact example_events_record.
  - lia.
  - lia.
  - lia.
  - lia.
  - unfold events_number, Np.size. simpl. lia.
Defined.

Lemma slice_past_end {A : Type} (a : list A) (lo hi : Z) :
  Np.size a <= hi -> Np.slice a lo hi = Np.slice a lo (Np.size a).
Proof.
  intros Hhi. unfold Np.slice. f_equal. f_equal. f_equal.
  unfold Np.slice_bound. pose proof (Zle_0_nat (length a)) as Hn.
  fold (Np.size a) in Hn.
  destruct (Z.ltb_spec hi 0); [lia|].
  destruct (Z.ltb_spec (Np.size a) 0); lia.
Qed.

Lemma slice_reversed {A : Type} (a : list A) (lo hi : Z) :
  0 <= hi <= lo -> Np.slice a lo hi = [].
Proof.
  intros Hb. unfold Np.slice.
  replace (Z.to_nat _) with 0%nat; [reflexivity|].
  unfold Np.slice_bound.
  destruct (Z.ltb_spec hi 0), (Z.ltb_spec lo 0); lia.
Qed.

(** X5: index ranges are taken the way slices take them, without an
    error.  A right bound past the end of the record stands for [N], and
    a range with [0 <= j_r <= j_l] is empty and gives the all-zero frame,
    whatever the arrays hold. *)
Theorem integrate_range_is_a_slice (events : Events) (H W j_l j_r : Z) :
  same_lengths events -> 0 <= H -> 0 <= W ->
  (events_number events <= j_r ->
   integrate_events_segment_to_frame events H W j_l j_r
   = integrate_events_segment_to_frame events H W j_l (events_number events)) /\
  (0 <= j_r <= j_l ->
   exists frame,
     integrate_events_segment_to_frame events H W j_l j_r = Ok frame /\
     has_shape frame H W /\
     all_cells (fun v => v = 0) frame).
Proof.
  intros (Lx & Ly & Lp) HH HW.
  assert (Sx : Np.size (ev_x events) = events_number events)
    by (unfold events_number, Np.size; congruence).
  assert (Sy : Np.size (ev_y events) = events_number events)
    by (unfold events_number, Np.size; congruence).
  assert (Sp : Np.size (ev_p events) = events_number events)
    by (unfold events_number, Np.size; congruence).
  split.
  - intros Hr. unfold integrate_events_segment_to_frame.
    rewrite (slice_past_end (ev_x events)), (slice_past_end (ev_y events)),
      (slice_past_end (ev_p events)) by lia.
    now rewrite Sx, Sy, Sp.
  - intros Hrev. assert (HHW : 0 <= H * W) by nia.
    rewrite integrate_channels by (congruence || lia).
    rewrite !slice_reversed by lia.
    change (positions [] [] W (map (fun v => v =? 0) [])) with (@nil Z).
    change (positions [] [] W (map negb (map (fun v => v =? 0) []))) with (@nil Z).
    change (Np.bincount []) with (Ok (@nil Z)). cbn [bind].
    change (Np.iadd_arange (repeat 0 (Z.to_nat (H * W))) [])
      with (Ok (repeat 0 (Z.to_nat (H * W)))).
    cbn [bind]. unfold Np.reshape_2HW.
    destruct (Z.ltb_spec H 0); [lia|]. destruct (Z.ltb_spec W 0); [lia|].
    cbn [orb map]. eexists. split; [reflexivity|].
    assert (HWn : Z.to_nat (H * W) = (Z.to_nat H * Z.to_nat W)%nat) by nia.
    split.
    + split; [reflexivity|].
      repeat constructor; try apply rows_length; apply rows_width;
        rewrite repeat_length; lia.
    + repeat constructor; apply rows_Forall, Forall_forall;
        intros v Hv; now apply repeat_spec in Hv.
Qed.

Lemma integrate_range_is_a_slice_witness :
  same_lengths stray_events /\
  (events_number stray_events <= 7 ->
   integrate_events_segment_to_frame stray_events 3 3 1 7
   = integrate_events_segment_to_frame stray_events 3 3 1
       (events_number stray_events)) /\
  (0 <= 1 <= 1 ->
   exists frame,
     integrate_events_segment_to_frame stray_events 3 3 1 1 = Ok frame /\
     has_shape frame 3 3 /\
     all_cells (fun v => v = 0) frame).
Proof.
  split; [exact stray_events_lengths|].
  split.
  - apply (integrate_range_is_a_slice stray_events 3 3 1 7);
      [exact stray_events_lengths|lia|lia].
  - apply (integrate_range_is_a_slice stray_events 3 3 1 1);
      [exact stray_events_lengths|lia|lia].
Defined.

(** ** The segmentation planner: coverage and failures *)

(** X6: the split by number cuts the record into adjacent ranges that cover
    it: for [k >= 1], [j_l[0] = 0], [j_r[i] = j_l[i+1]] for [i < k - 1],
    [j_r[k-1] = N], and [0 <= j_l[i] <= j_r[i] <= N] for every [i]. *)
Theorem number_split_covers (events_t : list Z) (k : Z) :
  1 <= k ->
  exists j_l j_r,
    cal_fixed_frames_number_segment_index events_t "number" k
    = Ok (j_l, j_r) /\
    at_ j_l 0 = 0 /\
    (forall i, 0 <= i < k - 1 -> at_ j_r i = at_ j_l (i + 1)) /\
    at_ j_r (k - 1) = Np.size events_t /\
    (forall i, 0 <= i < k ->
       0 <= at_ j_l i <= at_ j_r i /\ at_ j_r i <= Np.size events_t).
Proof.
  intros Hk. rewrite number_split_result by exact Hk.
  set (N := Np.size events_t). set (di := N / k).
  assert (HN : 0 <= N) by (unfold N, Np.size; lia).
  assert (Hdi : 0 <= di) by (apply Z.div_pos; lia).
  assert (Hkdi : k * di <= N) by (apply Z.mul_div_le; lia).
  eexists. eexists. split; [reflexivity|].
  assert (Hlast : at_ (Np.update (map (fun i => i * di + di) (range k))
                         (Z.to_nat (k - 1)) N) (k - 1) = N).
  { unfold at_. apply update_nth_same. rewrite length_map, range_length. lia. }
  assert (Hleft : forall i, 0 <= i < k ->
            at_ (map (fun i => i * di) (range k)) i = i * di).
  { intros i Hi. now rewrite map_range_at. }
  assert (Hright : forall i, 0 <= i < k - 1 ->
            at_ (Np.update (map (fun i => i * di + di) (range k))
                   (Z.to_nat (k - 1)) N) i = (i + 1) * di).
  { intros i Hi. unfold at_. rewrite update_nth_other by lia.
    fold (at_ (map (fun i => i * di + di) (range k)) i).
    rewrite map_range_at by lia. lia. }
  split; [|split; [|split]].
  - rewrite Hleft by lia. lia.
  - intros i Hi. rewrite Hright, Hleft by lia. reflexivity.
  - exact Hlast.
  - intros i Hi. rewrite Hleft by lia.
    destruct (Z.eq_dec i (k - 1)) as [->|Hne].
    + rewrite Hlast. nia.
    + rewrite Hright by lia. nia.
Qed.

Lemma number_split_covers_witness :
  1 <= 3 /\
  exists j_l j_r,
    cal_fixed_frames_number_segment_index [0; 1; 2; 3; 4; 5; 6] "number" 3
    = Ok (j_l, j_r) /\
    at_ j_l 0 = 0 /\
    (forall i, 0 <= i < 3 - 1 -> at_ j_r i = at_ j_l (i + 1)) /\
    at_ j_r (3 - 1) = Np.size [0; 1; 2; 3; 4; 5; 6] /\
    (forall i, 0 <= i < 3 ->
       0 <= at_ j_l i <= at_ j_r i /\
       at_ j_r i <= Np.size [0; 1; 2; 3; 4; 5; 6]).
Proof.
  split; [lia|].
  apply (number_split_covers [0; 1; 2; 3; 4; 5; 6] 3). lia.
Defined.

(** A loop stops with the exception of the first iteration that raises. *)
Lemma for_each_raises {S : Type} (P : S -> Prop) (e : exn)
  (body : Z -> S -> result S) (idx : list Z) :
  (forall i s, In i idx -> P s ->
     body i s = Raise e \/ exists s', body i s = Ok s' /\ P s') ->
  (exists i, In i idx /\ forall s, P s -> body i s = Raise e) ->
  forall s, P s -> for_each body idx s = Raise e.
Proof.
  induction idx as [|j idx IH]; intros Hstep (i & Hi & Hbad) s Hs.
  - contradiction.
  - cbn [for_each].
    destruct (Z.eq_dec j i) as [->|Hne].
    + rewrite Hbad by exact Hs. reflexivity.
    + destruct (Hstep j s (or_introl eq_refl) Hs) as [E|(s' & E & Hs')];
        rewrite E; cbn [bind]; [reflexivity|].
      apply IH; [|exists i; split; [|exact Hbad]|exact Hs'].
      * intros i' s0 Hi' Hs0. apply Hstep; [now right|exact Hs0].
      * destruct Hi as [Hi|Hi]; [contradiction|exact Hi].
Qed.

Lemma select_none {A : Type} (a : list A) (f : Z -> bool) (t : list Z) :
  ~ Exists (fun v => f v = true) t -> Np.select a (map f t) = [].
Proof.
  revert a. induction t as [|v t IH]; intros a Hn.
  - destruct a; reflexivity.
  - destruct a as [|u a]; [reflexivity|]. cbn [map Np.select].
    destruct (f v) eqn:E.
    + exfalso. apply Hn. now constructor.
    + apply IH. intros Hex. apply Hn. now constructor 2.
Qed.

Lemma getitem_first_last_nonempty (a : list Z) :
  a <> [] ->
  exists u v, Np.getitem a 0 = Ok u /\ Np.getitem a (-1) = Ok v.
Proof.
  intros Ha. assert (Hs : 1 <= Np.size a).
  { destruct a; [contradiction|]. unfold Np.size. simpl length. lia. }
  exists (at_ a 0), (at_ a (Np.size a - 1)).
  split; [apply getitem_ok; lia|now apply getitem_last].
Qed.

(** The time branch with a window that selects no timestamp. *)
Lemma time_split_empty_window_raises (events_t : list Z) (M : Z) :
  1 <= M ->
  (exists i, 0 <= i < M /\ ~ window_nonempty events_t M i) ->
  cal_fixed_frames_number_segment_index events_t "time" M = Raise IndexError.
Proof.
  intros HM (i0 & Hi0 & Hempty).
  unfold cal_fixed_frames_number_segment_index.
  rewrite zeros_ok by lia. cbn [bind].
  change (String.eqb "time" "number") with false.
  change (String.eqb "time" "time") with true. cbv iota.
  destruct events_t as [|t0 rest] eqn:Et.
  { now rewrite getitem_empty. }
  rewrite <- Et in *.
  assert (HN : 1 <= Np.size events_t)
    by (rewrite Et; unfold Np.size; simpl length; lia).
  rewrite getitem_last, getitem_ok by lia. cbn [bind].
  rewrite floordiv_ok by lia. cbn [bind].
  fold (window_width events_t M). set (dt := window_width events_t M) in *.
  unfold for_range.
  rewrite (for_each_raises
             (fun s : list Z * list Z =>
                Np.size (fst s) = M /\ Np.size (snd s) = M) IndexError).
  - reflexivity.
  - intros i [a b] Hi [Ha Hb]. simpl in Ha, Hb. apply range_In in Hi.
    cbn [bind].
    rewrite bool_index_ok
      by (unfold Np.arange; rewrite length_map, range_length;
          unfold Np.size; lia).
    cbn [bind].
    destruct (Np.select _ _) as [|u l] eqn:Es.
    + left. now rewrite getitem_empty.
    + right.
      destruct (getitem_first_last_nonempty (u :: l) ltac:(discriminate))
        as (f & g & Ef & Eg).
      rewrite Ef. cbn [bind]. rewrite setitem_ok by lia. cbn [bind].
      rewrite Eg. cbn [bind]. rewrite setitem_ok by lia. cbn [bind].
      eexists. split; [reflexivity|]. simpl.
      unfold Np.size in *. rewrite !update_length. split; assumption.
  - exists i0. split; [apply range_In; lia|].
    intros [a b] [Ha Hb]. cbn [bind].
    rewrite bool_index_ok
      by (unfold Np.arange; rewrite length_map, range_length;
          unfold Np.size; lia).
    cbn [bind]. rewrite select_none; [now rewrite getitem_empty|].
    intros Hex. apply Hempty. unfold window_nonempty. fold dt.
    eapply Exists_impl; [|exact Hex]. simpl. intros v Hv.
    apply andb_prop in Hv. destruct Hv as [Hv1 Hv2].
    apply Z.leb_le in Hv1. apply Z.ltb_lt in Hv2. lia.
  - split; simpl; unfold Np.size; rewrite repeat_length; lia.
Qed.



(** X8: the split by time cannot make more frames than the time span: for
    non-decreasing timestamps with [t[N-1] - t[0] < M] the width of the
    windows is zero, no window holds a timestamp, and the call raises an
    index error. *)
Theorem time_split_short_span (events_t : list Z) (M : Z) :
  Sorted Z.le events_t -> 1 <= M ->
  at_ events_t (Np.size events_t - 1) - at_ events_t 0 < M ->
  cal_fixed_frames_number_segment_index events_t "time" M = Raise IndexError.
Proof.
  intros Hs HM Hspan.
  apply time_split_empty_window_raises; [exact HM|].
  exists 0. split; [lia|].
  destruct events_t as [|t0 rest] eqn:Et; [intros Hex; inversion Hex|].
  rewrite <- Et in *.
  assert (HN : 1 <= Np.size events_t)
    by (rewrite Et; unfold Np.size; simpl length; lia).
  assert (Hge : 0 <= at_ events_t (Np.size events_t - 1) - at_ events_t 0).
  { pose proof (sorted_at events_t 0 (Np.size events_t - 1)
                  (sorted_strongly _ Hs) ltac:(lia) ltac:(lia)). lia. }
  assert (Hdt : window_width events_t M = 0).
  { unfold window_width. apply Z.div_small. lia. }
  unfold window_nonempty. rewrite Hdt. intros Hex.
  apply Exists_exists in Hex. destruct Hex as (v & _ & Hv). lia.
Qed.

Lemma time_split_short_span_witness :
  Sorted Z.le [5; 6; 7] /\
  cal_fixed_frames_number_segment_index [5; 6; 7] "time" 4 = Raise IndexError.
Proof.
  assert (Hs : Sorted Z.le [5; 6; 7]) by (repeat constructor; lia).
  split; [exact Hs|].
  apply (time_split_short_span [5; 6; 7] 4 Hs); [lia|].
  vm_compute. reflexivity.
Defined.

Lemma rank_cons (u : Z) (t : list Z) (v : Z) :
  rank (u :: t) v = if u <? v then S (rank t v) else rank t v.
Proof. unfold rank. simpl. destruct (u <? v); reflexivity. Qed.

(** In a non-decreasing array the timestamps below [v] are exactly those
    at the indices below [rank t v]. *)
Lemma rank_spec (t : list Z) (v : Z) :
  StronglySorted Z.le t ->
  forall k, (k < length t)%nat -> (k < rank t v)%nat <-> nth k t 0 < v.
Proof.
  induction 1 as [|u t Hs IH Hu]; intros k Hk; [simpl in Hk; lia|].
  rewrite rank_cons. destruct (Z.ltb_spec u v) as [Hlt|Hge].
  - destruct k as [|k]; simpl; [lia|].
    rewrite <- (IH k) by (simpl in Hk; lia). lia.
  - assert (Hz : rank t v = 0%nat).
    { apply rank_zero. eapply Forall_impl; [|exact Hu]. simpl. intros; lia. }
    rewrite Hz. destruct k as [|k]; simpl; [lia|].
    rewrite Forall_forall in Hu.
    assert (Hin : In (nth k t 0) t) by (apply nth_In; simpl in Hk; lia).
    pose proof (Hu _ Hin). lia.
Qed.

(** X9: under the conditions of the split by time (non-decreasing
    timestamps, [M >= 1], no empty window) every range holds at least one
    event, range [i < M - 1] holds exactly the events whose timestamp lies
    in window [i], and the last range holds every event from the start of
    the last window on. *)
Theorem time_split_segment_contents (events_t : list Z) (M : Z) :
  Sorted Z.le events_t -> 1 <= M ->
  (forall i, 0 <= i < M -> window_nonempty events_t M i) ->
  exists j_l j_r,
    cal_fixed_frames_number_segment_index events_t "time" M = Ok (j_l, j_r) /\
    (forall i, 0 <= i < M -> 0 <= at_ j_l i < at_ j_r i) /\
    (forall i k, 0 <= i < M - 1 -> 0 <= k < Np.size events_t ->
       (at_ j_l i <= k < at_ j_r i <->
        at_ events_t 0 + window_width events_t M * i <= at_ events_t k
        < at_ events_t 0 + window_width events_t M * (i + 1))) /\
    (forall k, 0 <= k < Np.size events_t ->
       (at_ j_l (M - 1) <= k < at_ j_r (M - 1) <->
        at_ events_t 0 + window_width events_t M * (M - 1)
        <= at_ events_t k)).
Proof.
  intros Hs HM Hwin. rewrite (time_split_result events_t M Hs HM Hwin).
  pose proof (window_width_nonneg events_t M Hs HM Hwin) as Hdt.
  pose proof (sorted_strongly _ Hs) as Hss.
  set (dt := window_width events_t M) in *. set (t0 := at_ events_t 0).
  eexists. eexists. split; [reflexivity|].
  assert (Hleft : forall i, 0 <= i < M ->
            at_ (map (fun i => Z.of_nat (rank events_t (dt * i + t0)))
                   (range M)) i
            = Z.of_nat (rank events_t (dt * i + t0))).
  { intros i Hi. now rewrite map_range_at. }
  assert (Hlast : at_ (Np.update
                         (map (fun i => Z.of_nat
                                 (rank events_t (dt * i + t0 + dt)))
                            (range M))
                         (Z.to_nat (M - 1)) (Np.size events_t)) (M - 1)
                  = Np.size events_t).
  { unfold at_. apply update_nth_same. rewrite length_map, range_length. lia. }
  assert (Hright : forall i, 0 <= i < M - 1 ->
            at_ (Np.update
                   (map (fun i => Z.of_nat (rank events_t (dt * i + t0 + dt)))
                      (range M))
                   (Z.to_nat (M - 1)) (Np.size events_t)) i
            = Z.of_nat (rank events_t (dt * i + t0 + dt))).
  { intros i Hi. unfold at_. rewrite update_nth_other by lia.
    fold (at_ (map (fun i => Z.of_nat (rank events_t (dt * i + t0 + dt)))
                 (range M)) i).
    now rewrite map_range_at by lia. }
  assert (Hrk : forall i, 0 <= i < M ->
            (rank events_t (dt * i + t0)
             < rank events_t (dt * i + t0 + dt))%nat).
  { intros i Hi. apply rank_window; [lia|].
    specialize (Hwin i Hi). unfold window_nonempty in Hwin.
    fold dt t0 in Hwin. eapply Exists_impl; [|exact Hwin].
    simpl. intros; lia. }
  assert (Hspec : forall v k, 0 <= k < Np.size events_t ->
            (k < Z.of_nat (rank events_t v) <-> at_ events_t k < v)).
  { intros v k Hk. unfold at_.
    rewrite <- (rank_spec events_t v Hss (Z.to_nat k))
      by (unfold Np.size in Hk; lia). lia. }
  split; [|split].
  - intros i Hi. rewrite Hleft by lia.
    destruct (Z.eq_dec i (M - 1)) as [->|Hne].
    + rewrite Hlast. pose proof (Hrk (M - 1) ltac:(lia)).
      pose proof (rank_le_length events_t (dt * (M - 1) + t0 + dt)).
      unfold Np.size. lia.
    + rewrite Hright by lia. pose proof (Hrk i Hi). lia.
  - intros i k Hi Hk. rewrite Hleft, Hright by lia.
    pose proof (Hspec (dt * i + t0) k Hk).
    pose proof (Hspec (dt * i + t0 + dt) k Hk). lia.
  - intros k Hk. rewrite Hleft, Hlast by lia.
    pose proof (Hspec (dt * (M - 1) + t0) k Hk). lia.
Qed.

Lemma time_split_segment_contents_witness :
  (Sorted Z.le [0; 1; 2; 3] /\
   forall i, 0 <= i < 2 -> window_nonempty [0; 1; 2; 3] 2 i) /\
  exists j_l j_r,
    cal_fixed_frames_number_segment_index [0; 1; 2; 3] "time" 2
    = Ok (j_l, j_r) /\
    (forall i, 0 <= i < 2 -> 0 <= at_ j_l i < at_ j_r i) /\
    (forall i k, 0 <= i < 2 - 1 -> 0 <= k < Np.size [0; 1; 2; 3] ->
       (at_ j_l i <= k < at_ j_r i <->
        at_ [0; 1; 2; 3] 0 + window_width [0; 1; 2; 3] 2 * i
        <= at_ [0; 1; 2; 3] k
        < at_ [0; 1; 2; 3] 0 + window_width [0; 1; 2; 3] 2 * (i + 1))) /\
    (forall k, 0 <= k < Np.size [0; 1; 2; 3] ->
       (at_ j_l (2 - 1) <= k < at_ j_r (2 - 1) <->
        at_ [0; 1; 2; 3] 0 + window_width [0; 1; 2; 3] 2 * (2 - 1)
        <= at_ [0; 1; 2; 3] k)).
Proof.
  assert (Hs : Sorted Z.le [0; 1; 2; 3]) by (repeat constructor; lia).
  assert (Hw : forall i, 0 <= i < 2 -> window_nonempty [0; 1; 2; 3] 2 i).
  { intros i Hi. assert (Hc : i = 0 \/ i = 1) by lia.
    destruct Hc as [-> | ->]; unfold window_nonempty.
    - apply Exists_cons_hd. vm_compute. split; [discriminate|reflexivity].
    - apply Exists_cons_tl, Exists_cons_hd. vm_compute.
      split; [discriminate|reflexivity]. }
  split; [split; [exact Hs|exact Hw]|].
  apply (time_split_segment_contents [0; 1; 2; 3] 2 Hs); [lia|exact Hw].
Defined.

(** ** Integration into a fixed number of frames *)

Lemma setitem_any {A : Type} (a : list A) (i : Z) (v : A) :
  0 <= i < Np.size a -> Np.setitem a i v = Ok (Np.update a (Z.to_nat i) v).
Proof.
  intros Hi. unfold Np.setitem.
  destruct (Z.ltb_spec i 0); [lia|].
  destruct (Z.ltb_spec i 0); [lia|].
  destruct (Z.leb_spec (Np.size a) i); [lia|]. reflexivity.
Qed.

(** A loop over [range] whose body stores [f i] at index [i] of an array
    leaves the array holding [f] of every index. *)
Lemma for_each_fill_one {A : Type} (f : Z -> A)
  (body : Z -> list A -> result (list A)) (n : nat) :
  forall (m : nat) (a : list A),
    length a = (m + n)%nat ->
    (forall i b, (m <= i < m + n)%nat -> length b = (m + n)%nat ->
       body (Z.of_nat i) b = Ok (Np.update b i (f (Z.of_nat i)))) ->
    for_each body (map Z.of_nat (seq m n)) a
    = Ok (firstn m a ++ map f (map Z.of_nat (seq m n))).
Proof.
  induction n as [|n IH]; intros m a Ha Hbody.
  - simpl. rewrite app_nil_r, firstn_all2 by lia. reflexivity.
  - cbn [seq map for_each]. rewrite Hbody by lia. cbn [bind].
    rewrite IH.
    + rewrite update_firstn by lia. now rewrite <- app_assoc.
    + rewrite update_length. lia.
    + intros i b Hi Hb. apply Hbody; lia.
Qed.

Lemma for_range_fill_one {A : Type} (f : Z -> A)
  (body : Z -> list A -> result (list A)) (k : Z) (a : list A) :
  Np.size a = k ->
  (forall i b, 0 <= i < k -> Np.size b = k ->
     body i b = Ok (Np.update b (Z.to_nat i) (f i))) ->
  for_range k body a = Ok (map f (range k)).
Proof.
  unfold Np.size. intros Ha Hbody. unfold for_range, range.
  rewrite (for_each_fill_one f body (Z.to_nat k) 0 a); try lia.
  - reflexivity.
  - intros i b Hi Hb.
    rewrite (Hbody (Z.of_nat i) b) by lia. now rewrite Nat2Z.id.
Qed.

(** A quantity that adds up over adjacent ranges adds up over a cover. *)
Lemma sum_over_cover (g : Z -> Z -> Z) (jl jr : Z -> Z) (k : Z) :
  (forall a b c, 0 <= a <= b -> b <= c -> g a c = g a b + g b c) ->
  1 <= k -> jl 0 = 0 ->
  (forall i, 0 <= i < k - 1 -> jr i = jl (i + 1)) ->
  (forall i, 0 <= i < k -> 0 <= jl i <= jr i) ->
  sum (map (fun i => g (jl i) (jr i)) (range k)) = g 0 (jr (k - 1)).
Proof.
  intros Hadd Hk H0 Hadj Hmono.
  assert (Hall : forall m, 0 <= m -> m + 1 <= k ->
            sum (map (fun i => g (jl i) (jr i)) (range (m + 1))) = g 0 (jr m)).
  { intros m Hm. pattern m. apply natlike_ind; [| |exact Hm].
    - intros _. change (range (0 + 1)) with [0]. simpl. rewrite H0. lia.
    - clear m Hm. intros m Hm IH Hle. unfold Z.succ.
      rewrite range_succ, map_app, sum_app by lia. simpl.
      rewrite IH by lia.
      rewrite (Hadj m) by lia.
      pose proof (Hmono (m + 1) ltac:(lia)).
      pose proof (Hmono m ltac:(lia)). rewrite (Hadj m) in * by lia.
      rewrite (Hadd 0 (jl (m + 1)) (jr (m + 1))) by lia. lia. }
  replace k with (k - 1 + 1) at 1 by lia. apply Hall; lia.
Qed.

Lemma number_split_partition (events_t : list Z) (k : Z) :
  1 <= k ->
  exists j_l j_r,
    cal_fixed_frames_number_segment_index events_t "number" k
    = Ok (j_l, j_r) /\
    covers (Np.size events_t) k j_l j_r.
Proof.
  intros Hk. rewrite number_split_result by exact Hk.
  set (N := Np.size events_t). set (di := N / k).
  assert (HN : 0 <= N) by (unfold N, Np.size; lia).
  assert (Hdi : 0 <= di) by (apply Z.div_pos; lia).
  assert (Hkdi : k * di <= N) by (apply Z.mul_div_le; lia).
  eexists. eexists. split; [reflexivity|].
  assert (Hlast : at_ (Np.update (map (fun i => i * di + di) (range k))
                         (Z.to_nat (k - 1)) N) (k - 1) = N).
  { unfold at_. apply update_nth_same. rewrite length_map, range_length. lia. }
  assert (Hleft : forall i, 0 <= i < k ->
            at_ (map (fun i => i * di) (range k)) i = i * di).
  { intros i Hi. now rewrite map_range_at. }
  assert (Hright : forall i, 0 <= i < k - 1 ->
            at_ (Np.update (map (fun i => i * di + di) (range k))
                   (Z.to_nat (k - 1)) N) i = (i + 1) * di).
  { intros i Hi. unfold at_. rewrite update_nth_other by lia.
    fold (at_ (map (fun i => i * di + di) (range k)) i).
    rewrite map_range_at by lia. lia. }
  unfold covers. split; [|split; [|split; [|split; [|split]]]].
  - unfold Np.size. rewrite length_map, range_length. lia.
  - unfold Np.size. rewrite update_length, length_map, range_length. lia.
  - rewrite Hleft by lia. lia.
  - intros i Hi. rewrite Hright, Hleft by lia. reflexivity.
  - exact Hlast.
  - intros i Hi. rewrite Hleft by lia.
    destruct (Z.eq_dec i (k - 1)) as [->|Hne].
    + rewrite Hlast. nia.
    + rewrite Hright by lia. nia.
Qed.

Lemma time_split_partition (events_t : list Z) (M : Z) :
  Sorted Z.le events_t -> 1 <= M ->
  (forall i, 0 <= i < M -> window_nonempty events_t M i) ->
  exists j_l j_r,
    cal_fixed_frames_number_segment_index events_t "time" M = Ok (j_l, j_r) /\
    covers (Np.size events_t) M j_l j_r.
Proof.
  intros Hs HM Hwin. rewrite (time_split_result events_t M Hs HM Hwin).
  pose proof (window_width_nonneg events_t M Hs HM Hwin) as Hdt.
  set (dt := window_width events_t M) in *. set (t0 := at_ events_t 0).
  eexists. eexists. split; [reflexivity|].
  assert (Hleft : forall i, 0 <= i < M ->
            at_ (map (fun i => Z.of_nat (rank events_t (dt * i + t0)))
                   (range M)) i
            = Z.of_nat (rank events_t (dt * i + t0))).
  { intros i Hi. now rewrite map_range_at. }
  assert (Hlast : at_ (Np.update
                         (map (fun i => Z.of_nat
                                 (rank events_t (dt * i + t0 + dt)))
                            (range M))
                         (Z.to_nat (M - 1)) (Np.size events_t)) (M - 1)
                  = Np.size events_t).
  { unfold at_. apply update_nth_same. rewrite length_map, range_length. lia. }
  assert (Hright : forall i, 0 <= i < M - 1 ->
            at_ (Np.update
                   (map (fun i => Z.of_nat (rank events_t (dt * i + t0 + dt)))
                      (range M))
                   (Z.to_nat (M - 1)) (Np.size events_t)) i
            = Z.of_nat (rank events_t (dt * i + t0 + dt))).
  { intros i Hi. unfold at_. rewrite update_nth_other by lia.
    fold (at_ (map (fun i => Z.of_nat (rank events_t (dt * i + t0 + dt)))
                 (range M)) i).
    now rewrite map_range_at by lia. }
  unfold covers. split; [|split; [|split; [|split; [|split]]]].
  - unfold Np.size. rewrite length_map, range_length. lia.
  - unfold Np.size. rewrite update_length, length_map, range_length. lia.
  - rewrite Hleft by lia.
    rewrite rank_zero; [reflexivity|].
    eapply Forall_impl; [|apply sorted_first_least, sorted_strongly, Hs].
    simpl. fold t0. intros; lia.
  - intros i Hi. rewrite Hright, Hleft by lia. do 2 f_equal. lia.
  - exact Hlast.
  - intros i Hi. rewrite Hleft by lia.
    pose proof (rank_le_length events_t (dt * i + t0)).
    destruct (Z.eq_dec i (M - 1)) as [->|Hne].
    + rewrite Hlast. unfold Np.size. lia.
    + rewrite Hright by lia.
      pose proof (rank_mono events_t (dt * i + t0) (dt * i + t0 + dt)
                    ltac:(lia)).
      pose proof (rank_le_length events_t (dt * i + t0 + dt)).
      unfold Np.size. lia.
Qed.

(** The frame loop over a plan that covers the record: every frame is the
    integration of its range, and counts are conserved. *)
Lemma frames_of_cover (events : Events) (H W k : Z) (j_l j_r : list Z) :
  EventRecord events H W -> 0 <= H -> 0 <= W -> 1 <= k ->
  covers (events_number events) k j_l j_r ->
  exists frames,
    (frames0 <- zeros_frames k H W ;;
     for_range k (fun i frames =>
       l <- Np.getitem j_l i ;;
       r <- Np.getitem j_r i ;;
       frame <- integrate_events_segment_to_frame events H W l r ;;
       Np.setitem frames i frame) frames0) = Ok frames /\
    Np.size frames = k /\
    Forall (fun frame => has_shape frame H W) frames /\
    sum (map frame_total frames) = events_number events /\
    forall c y0 x0, c = 0 \/ c = 1 -> 0 <= y0 < H -> 0 <= x0 < W ->
      sum (map (fun frame => cell frame c y0 x0) frames)
      = segment_count events 0 (events_number events) c y0 x0.
Proof.
  intros Hrec HH HW Hk (Sl & Sr & H0 & Hadj & Hlast & Hb).
  set (N := events_number events) in *.
  set (f := fun i : Z =>
              match integrate_events_segment_to_frame events H W
                      (at_ j_l i) (at_ j_r i) with
              | Ok frame => frame
              | Raise _ => []
              end).
  assert (Hf : forall i, 0 <= i < k ->
            integrate_events_segment_to_frame events H W (at_ j_l i) (at_ j_r i)
            = Ok (f i) /\
            has_shape (f i) H W /\
            frame_total (f i) = at_ j_r i - at_ j_l i /\
            forall c y0 x0, c = 0 \/ c = 1 -> 0 <= y0 < H -> 0 <= x0 < W ->
              cell (f i) c y0 x0
              = segment_count events (at_ j_l i) (at_ j_r i) c y0 x0).
  { intros i Hi. specialize (Hb i Hi).
    destruct (integrate_spec events H W (at_ j_l i) (at_ j_r i) Hrec HH HW
                ltac:(lia) ltac:(fold N; lia))
      as (frame & E & S & _ & T & C & _).
    unfold f. rewrite E. repeat split; try assumption; apply S. }
  exists (map f (range k)).
  split; [|split; [|split; [|split]]].
  - unfold zeros_frames.
    destruct (Z.ltb_spec k 0); [lia|]. destruct (Z.ltb_spec H 0); [lia|].
    destruct (Z.ltb_spec W 0); [lia|]. cbn [orb bind].
    apply for_range_fill_one.
    + unfold Np.size. rewrite repeat_length. lia.
    + intros i b Hi Hsz.
      rewrite !getitem_ok by lia. cbn [bind].
      rewrite (proj1 (Hf i Hi)). cbn [bind].
      now apply setitem_any; lia.
  - unfold Np.size. rewrite length_map, range_length. lia.
  - apply Forall_forall. intros frame Hin. apply in_map_iff in Hin.
    destruct Hin as (i & <- & Hi). apply range_In in Hi. apply (Hf i Hi).
  - rewrite map_map.
    rewrite (map_ext_in _ (fun i => at_ j_r i - at_ j_l i))
      by (intros i Hi; apply range_In in Hi; apply (Hf i Hi)).
    rewrite (sum_over_cover (fun a b => b - a) (at_ j_l) (at_ j_r) k);
      try assumption; try lia.
    intros i Hi. specialize (Hb i Hi). lia.
  - intros c y0 x0 Hc Hy0 Hx0. rewrite map_map.
    rewrite (map_ext_in _
               (fun i => segment_count events (at_ j_l i) (at_ j_r i) c y0 x0))
      by (intros i Hi; apply range_In in Hi; now apply (Hf i Hi)).
    rewrite (sum_over_cover
               (fun a b => segment_count events a b c y0 x0)
               (at_ j_l) (at_ j_r) k); try assumption.
    + now rewrite Hlast.
    + intros a b d Hab Hbd. now apply segment_count_split.
    + intros i Hi. specialize (Hb i Hi). lia.
Qed.

(** X10: integration into [k >= 1] frames by number conserves the events
    of an event record: it returns [k] frames of shape [[2, H, W]] whose
    counts sum to [N], and for every cell the counts of the [k] frames sum
    to the number of events of the whole record in that cell. *)
Theorem fixed_frames_by_number_conserves (events : Events) (k H W : Z) :
  EventRecord events H W -> 0 <= H -> 0 <= W -> 1 <= k ->
  exists frames,
    integrate_events_by_fixed_frames_number events "number" k H W = Ok frames /\
    Np.size frames = k /\
    Forall (fun frame => has_shape frame H W) frames /\
    sum (map frame_total frames) = events_number events /\
    forall c y0 x0, c = 0 \/ c = 1 -> 0 <= y0 < H -> 0 <= x0 < W ->
      sum (map (fun frame => cell frame c y0 x0) frames)
      = segment_count events 0 (events_number events) c y0 x0.
Proof.
  intros Hrec HH HW Hk.
  destruct (number_split_partition (ev_t events) k Hk) as (j_l & j_r & E & Hc).
  unfold integrate_events_by_fixed_frames_number. rewrite E. cbn [bind].
  now apply frames_of_cover.
Qed.

Lemma fixed_frames_by_number_conserves_witness :
  EventRecord example_events 3 3 /\
  exists frames,
    integrate_events_by_fixed_frames_number example_events "number" 3 3 3
    = Ok frames /\
    Np.size frames = 3 /\
    Forall (fun frame => has_shape frame 3 3) frames /\
    sum (map frame_total frames) = events_number example_events /\
    forall c y0 x0, c = 0 \/ c = 1 -> 0 <= y0 < 3 -> 0 <= x0 < 3 ->
      sum (map (fun frame => cell frame c y0 x0) frames)
      = segment_count example_events 0 (events_number example_events) c y0 x0.
Proof.
  split; [exact example_events_record|].
  apply (fixed_frames_by_number_conserves example_events 3 3 3).
  - exact example_events_record.
  - lia.
  - lia.
  - lia.
Defined.

(** X11: integration into [M >= 1] frames by time conserves the events of
    an event record with non-decreasing timestamps when no time window is
    empty: [M] frames of shape [[2, H, W]], counts summing to [N], and
    cell by cell the counts of the whole record. *)
Theorem fixed_frames_by_time_conserves (events : Events) (M H W : Z) :
  EventRecord events H W -> 0 <= H -> 0 <= W ->
  Sorted Z.le (ev_t events) -> 1 <= M ->
  (forall i, 0 <= i < M -> window_nonempty (ev_t events) M i) ->
  exists frames,
    integrate_events_by_fixed_frames_number events "time" M H W = Ok frames /\
    Np.size frames = M /\
    Forall (fun frame => has_shape frame H W) frames /\
    sum (map frame_total frames) = events_number events /\
    forall c y0 x0, c = 0 \/ c = 1 -> 0 <= y0 < H -> 0 <= x0 < W ->
      sum (map (fun frame => cell frame c y0 x0) frames)
      = segment_count events 0 (events_number events) c y0 x0.
Proof.
  intros Hrec HH HW Hs HM Hwin.
  destruct (time_split_partition (ev_t events) M Hs HM Hwin)
    as (j_l & j_r & E & Hc).
  unfold integrate_events_by_fixed_frames_number. rewrite E. cbn [bind].
  now apply frames_of_cover.
Qed.

Lemma fixed_frames_by_time_conserves_witness :
  (EventRecord example_events 3 3 /\ Sorted Z.le (ev_t example_events) /\
   forall i, 0 <= i < 2 -> window_nonempty (ev_t example_events) 2 i) /\
  exists frames,
    integrate_events_by_fixed_frames_number example_events "time" 2 3 3
    = Ok frames /\
    Np.size frames = 2 /\
    Forall (fun frame => has_shape frame 3 3) frames /\
    sum (map frame_total frames) = events_number example_events /\
    forall c y0 x0, c = 0 \/ c = 1 -> 0 <= y0 < 3 -> 0 <= x0 < 3 ->
      sum (map (fun frame => cell frame c y0 x0) frames)
      = segment_count example_events 0 (events_number example_events) c y0 x0.
Proof.
  assert (Hs : Sorted Z.le (ev_t example_events))
    by (simpl; repeat constructor; lia).
  assert (Hw : forall i, 0 <= i < 2 ->
            window_nonempty (ev_t example_events) 2 i).
  { intros i Hi. assert (Hc : i = 0 \/ i = 1) by lia.
    destruct Hc as [-> | ->]; unfold window_nonempty.
    - apply Exists_cons_hd. vm_compute. split; [discriminate|reflexivity].
    - apply Exists_cons_tl, Exists_cons_tl, Exists_cons_hd. vm_compute.
      split; [discriminate|reflexivity]. }
  split; [split; [exact example_events_record|split; [exact Hs|exact Hw]]|].
  apply (fixed_frames_by_time_conserves example_events 2 3 3).
  - exact example_events_record.
  - lia.
  - lia.
  - exact Hs.
  - lia.
  - exact Hw.
Defined.

(** ** The duration binner: further behaviour *)

Lemma integrate_reversed_range (events : Events) (H W j_l j_r : Z) :
  length (ev_x events) = length (ev_p events) ->
  length (ev_y events) = length (ev_p events) ->
  0 <= H -> 0 <= W -> 0 <= j_r <= j_l ->
  exists frame,
    integrate_events_segment_to_frame events H W j_l j_r = Ok frame /\
    has_shape frame H W /\
    all_cells (fun v => v = 0) frame.
Proof.
  intros Lx Ly HH HW Hrev. assert (HHW : 0 <= H * W) by nia.
  rewrite integrate_channels by assumption.
  rewrite !slice_reversed by lia.
  change (positions [] [] W (map (fun v => v =? 0) [])) with (@nil Z).
  change (positions [] [] W (map negb (map (fun v => v =? 0) []))) with (@nil Z).
  change (Np.bincount []) with (Ok (@nil Z)). cbn [bind].
  change (Np.iadd_arange (repeat 0 (Z.to_nat (H * W))) [])
    with (Ok (repeat 0 (Z.to_nat (H * W)))).
  cbn [bind]. unfold Np.reshape_2HW.
  destruct (Z.ltb_spec H 0); [lia|]. destruct (Z.ltb_spec W 0); [lia|].
  cbn [orb map]. eexists. split; [reflexivity|].
  assert (HWn : Z.to_nat (H * W) = (Z.to_nat H * Z.to_nat W)%nat) by nia.
  split.
  - split; [reflexivity|].
    repeat constructor; try apply rows_length; apply rows_width;
      rewrite repeat_length; lia.
  - repeat constructor; apply rows_Forall, Forall_forall;
      intros v Hv; now apply repeat_spec in Hv.
Qed.

(** An empty range integrates to a frame whatever the arrays hold. *)
Lemma integrate_empty_range (events : Events) (H W j : Z) :
  0 <= H -> 0 <= W -> 0 <= j ->
  exists frame, integrate_events_segment_to_frame events H W j j = Ok frame.
Proof.
  intros HH HW Hj.
  assert (E : integrate_events_segment_to_frame events H W j j
              = integrate_events_segment_to_frame
                  (mkEvents (ev_t events) [] [] []) H W j j).
  { unfold integrate_events_segment_to_frame. cbn [ev_x ev_y ev_p].
    now rewrite !slice_reversed by lia. }
  rewrite E.
  destruct (integrate_reversed_range
              (mkEvents (ev_t events) [] [] []) H W j j) as (frame & Ef & _);
    [reflexivity|reflexivity|lia|lia|lia|].
  now exists frame.
Qed.

(** X12: a negative [duration] makes the binner loop for ever on a
    non-empty record: [t[left] - t[left] = 0] already exceeds it, so the
    window never advances, an empty frame is appended in every round, and
    no amount of fuel lets the loop return. *)
Theorem duration_negative_never_returns (events : Events) (duration H W : Z)
  (fuel : nat) :
  1 <= events_number events -> duration < 0 -> 0 <= H -> 0 <= W ->
  integrate_events_by_fixed_duration fuel events duration H W = None.
Proof.
  intros HN Hd HH HW. unfold integrate_events_by_fixed_duration.
  unfold events_number in HN.
  destruct (integrate_empty_range events H W 0 HH HW ltac:(lia))
    as (frame & Ef).
  generalize (@nil Frame) as frames.
  induction fuel as [|fuel IH]; intros frames; [reflexivity|].
  cbn [bin_loop]. rewrite getitem_ok by lia.
  destruct fuel as [|fuel]; [reflexivity|].
  cbn [extend_right].
  destruct (Z.eqb_spec 0 (Np.size (ev_t events))) as [E|_]; [lia|].
  rewrite getitem_ok by lia.
  destruct (Z.gtb_spec (at_ (ev_t events) 0 - at_ (ev_t events) 0) duration)
    as [_|Hle]; [|lia].
  rewrite Ef.
  destruct (Z.eqb_spec 0 (Np.size (ev_t events))) as [E|_]; [lia|].
  apply IH.
Qed.

Lemma duration_negative_never_returns_witness :
  integrate_events_by_fixed_duration 50 example_events (-1) 3 3 = None.
Proof.
  apply (duration_negative_never_returns example_events (-1) 3 3 50).
  - unfold events_number, Np.size. simpl. lia.
  - lia.
  - lia.
  - lia.
Defined.




(** X14: when [duration] covers the whole time span of a non-decreasing
    record ([t[N-1] - t[0] <= duration], [N >= 1]) the binner makes one
    window, [[0, N)], and returns the single frame of the whole record (or
    the exception of integrating it). *)
Theorem duration_covering_span_single_frame (events : Events)
  (duration H W : Z) (fuel : nat) :
  Sorted Z.le (ev_t events) -> 1 <= events_number events ->
  at_ (ev_t events) (events_number events - 1) - at_ (ev_t events) 0
  <= duration ->
  (Z.to_nat (events_number events) + 2 <= fuel)%nat ->
  fixed_duration_segments fuel (ev_t events) duration
  = Some (Ok [(0, events_number events)]) /\
  integrate_events_by_fixed_duration fuel events duration H W
  = Some (frame <- integrate_events_segment_to_frame events H W 0
                     (events_number events) ;;
          Ok [frame]).
Proof.
  intros Hs HN Hspan Hf. unfold events_number in *.
  pose proof (sorted_strongly _ Hs) as Hss.
  assert (Hd : 0 <= duration).
  { pose proof (sorted_at (ev_t events) 0 (Np.size (ev_t events) - 1) Hss
                  ltac:(lia) ltac:(lia)). lia. }
  destruct (bin_loop_ok (ev_t events) duration Hd) with (fuel := fuel)
    (left := 0) as (windows & Hb & Hloop); [lia|lia|].
  assert (Hw : windows = [(0, Np.size (ev_t events))]).
  { inversion Hb as [left Hl Hw|left right rest Hl Hw Hgt Hrest]; subst;
      [reflexivity|].
    pose proof (sorted_at (ev_t events) right (Np.size (ev_t events) - 1) Hss
                  ltac:(lia) ltac:(lia)). lia. }
  subst windows. split.
  - unfold fixed_duration_segments. now rewrite Hloop.
  - unfold integrate_events_by_fixed_duration. rewrite Hloop.
    cbn [each_segment].
    destruct (integrate_events_segment_to_frame events H W 0
                (Np.size (ev_t events))); reflexivity.
Qed.

Lemma duration_covering_span_single_frame_witness :
  Sorted Z.le (ev_t example_events) /\
  fixed_duration_segments 6 (ev_t example_events) 6
  = Some (Ok [(0, events_number example_events)]) /\
  integrate_events_by_fixed_duration 6 example_events 6 3 3
  = Some (frame <- integrate_events_segment_to_frame example_events 3 3 0
                     (events_number example_events) ;;
          Ok [frame]).
Proof.
  assert (Hs : Sorted Z.le (ev_t example_events))
    by (simpl; repeat constructor; lia).
  split; [exact Hs|].
  apply (duration_covering_span_single_frame example_events 6 3 3 6 Hs).
  - unfold events_number, Np.size. simpl. lia.
  - vm_compute. discriminate.
  - unfold events_number, Np.size. simpl. lia.
Defined.

(** X15: the binner never produces an empty frame: for an event record
    with [N >= 1] events and [duration >= 0] every frame it returns counts
    at least one event. *)
Theorem duration_frames_not_empty (events : Events) (duration H W : Z)
  (fuel : nat) :
  EventRecord events H W -> 0 <= H -> 0 <= W ->
  1 <= events_number events -> 0 <= duration ->
  (Z.to_nat (events_number events) + 2 <= fuel)%nat ->
  exists frames,
    integrate_events_by_fixed_duration fuel events duration H W
    = Some (Ok frames) /\
    1 <= Np.size frames <= events_number events /\
    Forall (fun frame => 1 <= frame_total frame) frames.
Proof.
  intros Hrec HH HW HN Hd Hf. unfold events_number in *.
  destruct (bin_loop_ok (ev_t events) duration Hd) with (fuel := fuel)
    (left := 0) as (windows & Hb & Hloop); [lia|lia|].
  pose proof (bins_bounds _ _ _ _ Hb ltac:(lia)) as Hbd.
  destruct (each_segment_integrate events H W windows Hrec HH HW Hbd)
    as (frames & E & F & T).
  exists frames. split; [|split].
  - unfold integrate_events_by_fixed_duration. now rewrite Hloop, E.
  - pose proof (bins_number _ _ _ _ Hb) as Hn.
    assert (Hlen : length frames = length windows)
      by (rewrite <- (length_map frame_total), T; apply length_map).
    unfold Np.size in *. rewrite Hlen.
    split; [|lia]. inversion Hb; simpl length; lia.
  - assert (Hall : Forall (fun v => 1 <= v) (map frame_total frames)).
    { rewrite T. apply Forall_forall. intros v Hv. apply in_map_iff in Hv.
      destruct Hv as (b & <- & Hin). rewrite Forall_forall in Hbd.
      specialize (Hbd b Hin). lia. }
    apply Forall_forall. intros frame Hin. rewrite Forall_forall in Hall.
    apply Hall. now apply in_map.
Qed.

Lemma duration_frames_not_empty_witness :
  EventRecord example_events 3 3 /\
  exists frames,
    integrate_events_by_fixed_duration 6 example_events 3 3 3
    = Some (Ok frames) /\
    1 <= Np.size frames <= events_number example_events /\
    Forall (fun frame => 1 <= frame_total frame) frames.
Proof.
  split; [exact example_events_record|].
  apply (duration_frames_not_empty example_events 3 3 3 6).
  - exact example_events_record.
  - lia.
  - lia.
  - unfold events_number, Np.size. simpl. lia.
  - lia.
  - unfold events_number, Np.size. simpl. lia.
Defined.

(** ** The ATIS decoder: further behaviour *)

Lemma load_ATIS_bin_records
  (recs : list (byte * byte * byte * byte * byte)) :
  load_ATIS_bin (flat_map record_bytes recs)
  = Ok (mkEvents
          (map (fun '(b0, b1, b2, b3, b4) =>
                  Z.lor (Z.lor (Z.shiftl (Z.land (u8 b2) 0x7F) 16)
                               (Z.shiftl (u8 b3) 8))
                        (u8 b4)) recs)
          (map (fun '(b0, b1, b2, b3, b4) => u8 b0) recs)
          (map (fun '(b0, b1, b2, b3, b4) => u8 b1) recs)
          (map (fun '(b0, b1, b2, b3, b4) =>
                  Z.land (Z.shiftr (u8 b2) 7) 1) recs)).
Proof.
  unfold load_ATIS_bin.
  rewrite !strided_records by lia. rewrite !map_map.
  rewrite broadcast_same by now rewrite !length_map.
  cbn [bind]. rewrite zip_with_map.
  rewrite broadcast_same by now rewrite !length_map.
  cbn [bind]. rewrite zip_with_map.
  f_equal. f_equal; apply map_ext; intros [[[[b0 b1] b2] b3] b4];
    cbn [record_bytes nth]; try reflexivity.
  - now rewrite byte_timestamp_high, byte_timestamp_mid.
  - apply byte_polarity.
Qed.

Lemma u8_range (b : byte) : 0 <= u8 b < 256.
Proof. destruct b; vm_compute; split; discriminate || reflexivity. Qed.

Lemma byte_polarity_bit (b : byte) :
  Z.land (Z.shiftr (u8 b) 7) 1 = 0 \/ Z.land (Z.shiftr (u8 b) 7) 1 = 1.
Proof. destruct b; vm_compute; auto. Qed.

Lemma byte_high_range (b : byte) :
  0 <= Z.shiftl (Z.land (u8 b) 0x7F) 16 < 2 ^ 23.
Proof. destruct b; vm_compute; split; discriminate || reflexivity. Qed.

Lemma byte_mid_range (b : byte) : 0 <= Z.shiftl (u8 b) 8 < 2 ^ 23.
Proof. destruct b; vm_compute; split; discriminate || reflexivity. Qed.

Lemma lor_below_pow2 (a b n : Z) :
  0 <= n -> 0 <= a < 2 ^ n -> 0 <= b < 2 ^ n -> 0 <= Z.lor a b < 2 ^ n.
Proof.
  intros Hn Ha Hb. split; [apply Z.lor_nonneg; lia|].
  destruct (Z.eq_dec (Z.lor a b) 0) as [E|E].
  - rewrite E. apply Z.pow_pos_nonneg; lia.
  - assert (Hpos : 0 < Z.lor a b).
    { assert (0 <= Z.lor a b) by (apply Z.lor_nonneg; lia). lia. }
    apply Z.log2_lt_pow2; [exact Hpos|].
    rewrite Z.log2_lor by lia.
    destruct (Z.eq_dec a 0) as [->|Ha0], (Z.eq_dec b 0) as [->|Hb0].
    + simpl in E. contradiction.
    + rewrite Z.max_r by (simpl; apply Z.log2_nonneg).
      apply Z.log2_lt_pow2; lia.
    + rewrite Z.max_l by (simpl; apply Z.log2_nonneg).
      apply Z.log2_lt_pow2; lia.
    + apply Z.max_lub_lt; apply Z.log2_lt_pow2; lia.
Qed.

(** X16: what the decoder returns for a file of [n] whole records is an
    event record for a 256 by 256 sensor: four arrays of [n] entries, [x]
    and [y] below 256, polarity 0 or 1, and timestamps below [2 ^ 23]. *)
Theorem load_ATIS_bin_event_record
  (recs : list (byte * byte * byte * byte * byte)) :
  exists events,
    load_ATIS_bin (flat_map record_bytes recs) = Ok events /\
    EventRecord events 256 256 /\
    events_number events = Z.of_nat (length recs) /\
    Forall (fun v => 0 <= v < 2 ^ 23) (ev_t events).
Proof.
  rewrite load_ATIS_bin_records. eexists. split; [reflexivity|].
  split; [|split].
  - constructor; cbn [ev_x ev_y ev_p ev_t]; rewrite ?length_map;
      try reflexivity; apply Forall_forall; intros v Hv;
      apply in_map_iff in Hv; destruct Hv as ([[[[b0 b1] b2] b3] b4] & <- & _).
    + apply u8_range.
    + apply u8_range.
    + apply byte_polarity_bit.
  - unfold events_number, Np.size. cbn [ev_t]. now rewrite length_map.
  - cbn [ev_t]. apply Forall_forall. intros v Hv.
    apply in_map_iff in Hv. destruct Hv as ([[[[b0 b1] b2] b3] b4] & <- & _).
    apply lor_below_pow2; [lia| |pose proof (u8_range b4); lia].
    apply lor_below_pow2; [lia|apply byte_high_range|apply byte_mid_range].
Qed.

Lemma u8_inj (a b : byte) : u8 a = u8 b -> a = b.
Proof.
  unfold u8. intros E. apply N2Z.inj in E.
  apply (f_equal Byte.of_N) in E. rewrite !Byte.of_to_N in E.
  now inversion E.
Qed.

Lemma byte_high_low (b : byte) :
  Z.land (Z.shiftl (Z.land (u8 b) 0x7F) 16) 255 = 0 /\
  Z.land (Z.shiftr (Z.shiftl (Z.land (u8 b) 0x7F) 16) 8) 255 = 0 /\
  Z.shiftr (Z.shiftl (Z.land (u8 b) 0x7F) 16) 16 = Z.land (u8 b) 0x7F.
Proof. destruct b; vm_compute; repeat split. Qed.

Lemma byte_mid_low (b : byte) :
  Z.land (Z.shiftl (u8 b) 8) 255 = 0 /\
  Z.land (Z.shiftr (Z.shiftl (u8 b) 8) 8) 255 = u8 b /\
  Z.shiftr (Z.shiftl (u8 b) 8) 16 = 0.
Proof. destruct b; vm_compute; repeat split. Qed.

Lemma byte_low_low (b : byte) :
  Z.land (u8 b) 255 = u8 b /\
  Z.land (Z.shiftr (u8 b) 8) 255 = 0 /\
  Z.shiftr (u8 b) 16 = 0.
Proof. destruct b; vm_compute; repeat split. Qed.

Lemma byte_of_polarity_and_rest (b : byte) :
  u8 b = Z.lor (Z.shiftl (Z.land (Z.shiftr (u8 b) 7) 1) 7)
               (Z.land (u8 b) 0x7F).
Proof. destruct b; reflexivity. Qed.

(** The three bytes of a timestamp can be read back from it. *)
Lemma timestamp_bytes (b2 b3 b4 : byte) :
  let t := Z.lor (Z.lor (Z.shiftl (Z.land (u8 b2) 0x7F) 16)
                        (Z.shiftl (u8 b3) 8)) (u8 b4) in
  Z.shiftr t 16 = Z.land (u8 b2) 0x7F /\
  Z.land (Z.shiftr t 8) 255 = u8 b3 /\
  Z.land t 255 = u8 b4.
Proof.
  destruct (byte_high_low b2) as (H1 & H2 & H3).
  destruct (byte_mid_low b3) as (M1 & M2 & M3).
  destruct (byte_low_low b4) as (L1 & L2 & L3).
  cbv zeta. repeat split.
  - rewrite !Z.shiftr_lor, H3, M3, L3. now rewrite !Z.lor_0_r.
  - rewrite !Z.shiftr_lor, !Z.land_lor_distr_l, H2, M2, L2.
    now rewrite Z.lor_0_l, Z.lor_0_r.
  - rewrite !Z.land_lor_distr_l, H1, M1, L1. reflexivity.
Qed.

Lemma record_decode_inj (b0 b1 b2 b3 b4 c0 c1 c2 c3 c4 : byte) :
  Z.lor (Z.lor (Z.shiftl (Z.land (u8 b2) 0x7F) 16) (Z.shiftl (u8 b3) 8))
    (u8 b4)
  = Z.lor (Z.lor (Z.shiftl (Z.land (u8 c2) 0x7F) 16) (Z.shiftl (u8 c3) 8))
      (u8 c4) ->
  u8 b0 = u8 c0 -> u8 b1 = u8 c1 ->
  Z.land (Z.shiftr (u8 b2) 7) 1 = Z.land (Z.shiftr (u8 c2) 7) 1 ->
  (b0, b1, b2, b3, b4) = (c0, c1, c2, c3, c4).
Proof.
  intros Et E0 E1 Ep.
  destruct (timestamp_bytes b2 b3 b4) as (T2 & T3 & T4).
  destruct (timestamp_bytes c2 c3 c4) as (U2 & U3 & U4).
  cbv zeta in T2, T3, T4, U2, U3, U4. rewrite Et in T2, T3, T4.
  assert (E2 : u8 b2 = u8 c2).
  { rewrite (byte_of_polarity_and_rest b2), (byte_of_polarity_and_rest c2).
    congruence. }
  assert (E3 : u8 b3 = u8 c3) by congruence.
  assert (E4 : u8 b4 = u8 c4) by congruence.
  apply u8_inj in E0, E1, E2, E3, E4. now subst.
Qed.

(** X17: the decoder loses nothing: two files of whole records that decode
    to the same arrays are the same file. *)
Theorem load_ATIS_bin_injective
  (recs1 recs2 : list (byte * byte * byte * byte * byte)) :
  load_ATIS_bin (flat_map record_bytes recs1)
  = load_ATIS_bin (flat_map record_bytes recs2) ->
  recs1 = recs2.
Proof.
  rewrite !load_ATIS_bin_records. intros E.
  injection E as Et Ex Ey Ep.
  revert recs2 Et Ex Ey Ep.
  induction recs1 as [|[[[[b0 b1] b2] b3] b4] recs1 IH];
    intros [|[[[[c0 c1] c2] c3] c4] recs2] Et Ex Ey Ep;
    try discriminate; [reflexivity|].
  cbn [map] in Et, Ex, Ey, Ep.
  injection Et as Et0 Et'. injection Ex as Ex0 Ex'.
  injection Ey as Ey0 Ey'. injection Ep as Ep0 Ep'.
  f_equal; [|now apply IH].
  now apply record_decode_inj.
Qed.

Lemma load_ATIS_bin_injective_witness :
  [(x0a, x14, x85, x00, x7f)] = [(x0a, x14, x85, x00, x7f)].
Proof.
  apply (load_ATIS_bin_injective [(x0a, x14, x85, x00, x7f)]
           [(x0a, x14, x85, x00, x7f)]).
  reflexivity.
Defined.

Lemma strided_records_app (k : nat)
  (recs : list (byte * byte * byte * byte * byte)) (tail : list byte) :
  (k < 5)%nat ->
  Np.strided 5 k (uint32_of_bytes (flat_map record_bytes recs ++ tail))
  = map (fun r => u8 (nth k (record_bytes r) x00)) recs
    ++ Np.strided 5 k (uint32_of_bytes tail).
Proof.
  intros Hk. induction recs as [|[[[[b0 b1] b2] b3] b4] recs IH];
    [reflexivity|].
  unfold uint32_of_bytes in *.
  cbn [flat_map record_bytes app map].
  do 5 (destruct k as [|k]; [cbn; f_equal; exact IH|]). lia.
Qed.

Lemma broadcast_mismatch (f : Z -> Z -> Z) (a b : list Z) :
  length a <> length b -> (2 <= length a)%nat -> (2 <= length b)%nat ->
  Np.broadcast f a b = Raise ValueError.
Proof.
  intros Hne Ha Hb. unfold Np.broadcast.
  destruct (Nat.eqb_spec (length a) (length b)); [contradiction|].
  destruct a as [|u [|u' a]]; simpl in Ha; try lia.
  destruct b as [|v [|v' b]]; simpl in Hb; try lia. reflexivity.
Qed.

(** X18: one or two bytes after the last whole record are not rejected.
    The decoder returns arrays of different lengths: [x] has one entry more
    than [t] and [p]. *)
Theorem load_ATIS_bin_short_tail
  (recs : list (byte * byte * byte * byte * byte)) (tail : list byte) :
  length tail = 1%nat \/ length tail = 2%nat ->
  exists events,
    load_ATIS_bin (flat_map record_bytes recs ++ tail) = Ok events /\
    length (ev_x events) = S (length recs) /\
    length (ev_t events) = length recs /\
    length (ev_p events) = length recs.
Proof.
  intros Ht. unfold load_ATIS_bin.
  rewrite !strided_records_app by lia.
  assert (Hnil : Np.strided 5 2 (uint32_of_bytes tail) = []
                 /\ Np.strided 5 3 (uint32_of_bytes tail) = []
                 /\ Np.strided 5 4 (uint32_of_bytes tail) = []
                 /\ length (Np.strided 5 0 (uint32_of_bytes tail)) = 1%nat).
  { destruct tail as [|a [|b [|c tail]]]; simpl in Ht;
      destruct Ht as [Ht|Ht]; try discriminate Ht; repeat split. }
  destruct Hnil as (N2 & N3 & N4 & N0).
  rewrite N2, N3, N4, !app_nil_r, !map_map.
  rewrite broadcast_same by now rewrite !length_map.
  cbn [bind]. rewrite zip_with_map.
  rewrite broadcast_same by now rewrite !length_map.
  cbn [bind]. eexists. split; [reflexivity|].
  cbn [ev_x ev_t ev_p]. rewrite zip_with_map, length_app, !length_map, N0.
  repeat split. lia.
Qed.

Lemma load_ATIS_bin_short_tail_witness :
  exists events,
    load_ATIS_bin (flat_map record_bytes [(x0a, x14, x85, x00, x7f)] ++ [x01])
    = Ok events /\
    length (ev_x events) = 2%nat /\
    length (ev_t events) = 1%nat /\
    length (ev_p events) = 1%nat.
Proof.
  apply (load_ATIS_bin_short_tail [(x0a, x14, x85, x00, x7f)] [x01]).
  left. reflexivity.
Defined.

(** X19: three or four bytes after at least two whole records make the
    decoder raise: the arrays it combines into [t] differ in length and
    cannot be broadcast. *)
Theorem load_ATIS_bin_long_tail
  (recs : list (byte * byte * byte * byte * byte)) (tail : list byte) :
  (2 <= length recs)%nat ->
  length tail = 3%nat \/ length tail = 4%nat ->
  load_ATIS_bin (flat_map record_bytes recs ++ tail) = Raise ValueError.
Proof.
  intros Hn Ht. unfold load_ATIS_bin.
  rewrite !strided_records_app by lia.
  destruct tail as [|a [|b [|c [|d [|e tail]]]]]; simpl in Ht;
    destruct Ht as [Ht|Ht]; try discriminate Ht.
  - change (Np.strided 5 2 (uint32_of_bytes [a; b; c])) with [u8 c].
    change (Np.strided 5 3 (uint32_of_bytes [a; b; c])) with (@nil Z).
    rewrite app_nil_r.
    rewrite broadcast_mismatch; [reflexivity| | |];
      rewrite ?length_map, ?length_app, ?length_map; simpl; lia.
  - change (Np.strided 5 2 (uint32_of_bytes [a; b; c; d])) with [u8 c].
    change (Np.strided 5 3 (uint32_of_bytes [a; b; c; d])) with [u8 d].
    change (Np.strided 5 4 (uint32_of_bytes [a; b; c; d])) with (@nil Z).
    rewrite app_nil_r.
    rewrite broadcast_same
      by (rewrite !length_map, !length_app, !length_map; reflexivity).
    cbn [bind].
    rewrite broadcast_mismatch; [reflexivity| | |].
    + assert (Hz : forall (f : Z -> Z -> Z) (u v : list Z),
                length u = length v ->
                length (Np.zip_with f u v) = length u).
      { intros f u. induction u as [|x u IH]; intros [|y v] Hl;
          simpl in *; try lia. f_equal. apply IH. lia. }
      rewrite Hz by (rewrite !length_map, !length_app, !length_map; reflexivity).
      rewrite !length_map, length_app, !length_map. simpl. lia.
    + assert (Hz : forall (f : Z -> Z -> Z) (u v : list Z),
                length u = length v ->
                length (Np.zip_with f u v) = length u).
      { intros f u. induction u as [|x u IH]; intros [|y v] Hl;
          simpl in *; try lia. f_equal. apply IH. lia. }
      rewrite Hz by (rewrite !length_map, !length_app, !length_map; reflexivity).
      rewrite !length_map, length_app, !length_map. simpl. lia.
    + rewrite !length_map. lia.
Qed.

Lemma load_ATIS_bin_long_tail_witness :
  load_ATIS_bin
    (flat_map record_bytes
       [(x0a, x14, x85, x00, x7f); (x0b, x15, x05, x00, x80)]
     ++ [x01; x02; x03])
  = Raise ValueError.
Proof.
  apply (load_ATIS_bin_long_tail
           [(x0a, x14, x85, x00, x7f); (x0b, x15, x05, x00, x80)]
           [x01; x02; x03]).
  - simpl. lia.
  - left. reflexivity.
Defined.

(** ** The padder: composition *)

Lemma PadFrames_closed_form (self : PadFrames) (frames : FrameSeq) :
  PadFrames_call self frames
  = Ok (mkFrameSeq (shape1 frames) (shape2 frames) (shape3 frames)
          (frames_of frames
           ++ repeat (zero_frame (shape1 frames) (shape2 frames)
                        (shape3 frames))
                (Z.to_nat (max_frames_number self - shape0 frames)))).
Proof.
  unfold PadFrames_call, zeros4, concatenate0.
  destruct (Z.ltb_spec (shape0 frames) (max_frames_number self)) as [Hlt|Hge].
  - destruct (Z.ltb_spec (max_frames_number self - shape0 frames) 0); [lia|].
    cbn [bind shape1 shape2 shape3 frames_of]. now rewrite !Nat.eqb_refl.
  - replace (Z.to_nat (max_frames_number self - shape0 frames)) with 0%nat
      by lia.
    simpl repeat. rewrite app_nil_r. now destruct frames.
Qed.

(** X20: padding composes.  Padding to [L1] and then to [L2] is padding to
    [max L1 L2] (so padding twice to one length changes nothing more), and
    the padded sequence has [max N L] frames. *)
Theorem PadFrames_call_composes (L1 L2 : Z) (frames : FrameSeq) :
  exists padded,
    PadFrames_call (mkPadFrames L1) frames = Ok padded /\
    shape0 padded = Z.max (shape0 frames) L1 /\
    PadFrames_call (mkPadFrames L2) padded
    = PadFrames_call (mkPadFrames (Z.max L1 L2)) frames.
Proof.
  rewrite (PadFrames_closed_form (mkPadFrames L1) frames).
  cbn [max_frames_number].
  set (padded := mkFrameSeq (shape1 frames) (shape2 frames) (shape3 frames)
                   (frames_of frames
                    ++ repeat (zero_frame (shape1 frames) (shape2 frames)
                                 (shape3 frames))
                         (Z.to_nat (L1 - shape0 frames)))).
  exists padded. split; [reflexivity|].
  assert (Hlen : shape0 padded = Z.max (shape0 frames) L1).
  { unfold padded, shape0, Np.size. cbn [frames_of].
    rewrite length_app, repeat_length. lia. }
  split; [exact Hlen|].
  rewrite !PadFrames_closed_form. rewrite Hlen.
  unfold padded. cbn [shape1 shape2 shape3 frames_of max_frames_number].
  rewrite <- app_assoc, <- repeat_app. do 4 f_equal.
  pose proof (Zle_0_nat (length (frames_of frames))) as Hn.
  unfold shape0, Np.size. lia.
Qed.

Lemma reduce_max_upper (results : list Z) (m : Z) :
  m <= fold_left (fun a r => Z.max a r) results m /\
  Forall (fun r => r <= fold_left (fun a r => Z.max a r) results m) results.
Proof.
  revert m. induction results as [|r results IH]; intros m; simpl.
  - split; [lia|constructor].
  - destruct (IH (Z.max m r)) as [Hm Hall]. split; [lia|].
    constructor; [lia|exact Hall].
Qed.

(** X21: padding to the running maximum makes the samples uniform.  With
    [max_frames_number] reduced from the frame counts the files report,
    every frame sequence whose count is among them is padded to exactly
    [max_frames_number] frames, its own frames first. *)
Theorem PadFrames_to_running_maximum (results : list Z) (frames : FrameSeq) :
  In (shape0 frames) results ->
  exists padded,
    PadFrames_call (mkPadFrames (reduce_max_frames_number results)) frames
    = Ok padded /\
    shape0 padded = reduce_max_frames_number results /\
    firstn (Z.to_nat (shape0 frames)) (frames_of padded) = frames_of frames.
Proof.
  intros Hin. rewrite PadFrames_closed_form. eexists. split; [reflexivity|].
  cbn [max_frames_number frames_of].
  destruct (reduce_max_upper results 0) as [_ Hall].
  rewrite Forall_forall in Hall. specialize (Hall _ Hin).
  fold (reduce_max_frames_number results) in Hall. split.
  - unfold shape0, Np.size in *. cbn [frames_of].
    rewrite length_app, repeat_length. lia.
  - unfold shape0, Np.size. rewrite Nat2Z.id.
    rewrite firstn_app, Nat.sub_diag, firstn_all. simpl. apply app_nil_r.
Qed.

Lemma PadFrames_to_running_maximum_witness :
  exists padded,
    PadFrames_call (mkPadFrames (reduce_max_frames_number [3; 1; 2]))
      (mkFrameSeq 2 1 1 [zero_frame 2 1 1])
    = Ok padded /\
    shape0 padded = reduce_max_frames_number [3; 1; 2] /\
    firstn (Z.to_nat (shape0 (mkFrameSeq 2 1 1 [zero_frame 2 1 1])))
      (frames_of padded)
    = frames_of (mkFrameSeq 2 1 1 [zero_frame 2 1 1]).
Proof.
  apply (PadFrames_to_running_maximum [3; 1; 2]
           (mkFrameSeq 2 1 1 [zero_frame 2 1 1])).
  right. left. reflexivity.
Defined.

(** ** The AEDAT decoder *)

Example load_aedat_v3_example :
  load_aedat_v3 100 example_aedat
  = Some (Aedat.Parsed (mkEvents [1000] [5] [7] [1])).
Proof. vm_compute. reflexivity. Qed.

Lemma land_mask_15 (a : Z) : 0 <= Z.land a 0x00007FFF < 32768.
Proof.
  change 0x00007FFF with (Z.ones 15). rewrite Z.land_ones by lia.
  change 32768 with (2 ^ 15). apply Z.mod_pos_bound. lia.
Qed.

Lemma land_mask_1 (a : Z) : Z.land a 0x00000001 = 0 \/ Z.land a 0x00000001 = 1.
Proof.
  assert (E : Z.land a 0x00000001 = a mod 2)
    by (apply (Z.land_ones a 1); lia).
  rewrite E. pose proof (Z.mod_pos_bound a 2). lia.
Qed.

Lemma unpack_I_nonneg (b : list byte) (v : Z) :
  Aedat.unpack_I b = Aedat.Parsed v -> 0 <= v.
Proof.
  destruct b as [|b0 [|b1 [|b2 [|b3 [|b4 b]]]]]; try discriminate.
  intros E. injection E as <-.
  pose proof (u8_range b0). pose proof (u8_range b1).
  pose proof (u8_range b2). pose proof (u8_range b3). lia.
Qed.

Lemma event_record_append (txyp : Events) (t x y p : Z) :
  EventRecord txyp 32768 32768 ->
  0 <= x < 32768 -> 0 <= y < 32768 -> p = 0 \/ p = 1 ->
  EventRecord
    (mkEvents (ev_t txyp ++ [t]) (ev_x txyp ++ [x]) (ev_y txyp ++ [y])
       (ev_p txyp ++ [p])) 32768 32768.
Proof.
  intros [Lx Ly Lp Fx Fy Fp] Hx Hy Hp.
  constructor; cbn [ev_t ev_x ev_y ev_p]; rewrite ?length_app; simpl;
    try lia; apply Forall_app; split; try assumption;
    (constructor; [assumption|constructor]).
Qed.

Lemma read_events_keeps_record (fuel : nat) (e_size e_tsoverflow : Z)
  (data : list byte) :
  forall counter txyp events,
    EventRecord txyp 32768 32768 ->
    Aedat.read_events fuel e_size e_tsoverflow data counter txyp
    = Some (Aedat.Parsed events) ->
    EventRecord events 32768 32768.
Proof.
  induction fuel as [|fuel IH]; intros counter txyp events Hrec E;
    [discriminate|].
  cbn [Aedat.read_events] in E.
  destruct (Np.slice data counter (counter + e_size));
    [inversion E; subst; exact Hrec|].
  destruct (Aedat.unpack_I (Np.slice data counter (counter + 4)));
    [|discriminate].
  destruct (Aedat.unpack_I (Np.slice data (counter + 4) (counter + 8)));
    [|discriminate].
  eapply IH; [|exact E].
  apply event_record_append; [exact Hrec|apply land_mask_15..|apply land_mask_1].
Qed.

Lemma read_packets_keeps_record (fuel : nat) :
  forall f txyp events,
    EventRecord txyp 32768 32768 ->
    Aedat.read_packets fuel f txyp = Some (Aedat.Parsed events) ->
    EventRecord events 32768 32768.
Proof.
  induction fuel as [|fuel IH]; intros f txyp events Hrec E; [discriminate|].
  cbn [Aedat.read_packets Aedat.read] in E.
  destruct (firstn (Z.to_nat 28) f); [inversion E; subst; exact Hrec|].
  destruct (Aedat.unpack_header _)
    as [[[[[[[[e_type e_source] e_size] e_offset] e_tsoverflow] e_capacity]
           e_number] e_valid]|]; [|discriminate].
  destruct (e_type =? 1).
  - destruct (Aedat.read_events _ _ _ _ _ _) as [[txyp'|]|] eqn:Ev;
      try discriminate.
    eapply IH; [|exact E]. eapply read_events_keeps_record; eassumption.
  - eapply IH; eassumption.
Qed.

(** X22: whatever the bytes of the file, when [load_aedat_v3] returns its
    four arrays have one length, [x] and [y] are below [2 ^ 15] and the
    polarity is 0 or 1: it returns an event record for a 32768 by 32768
    sensor. *)
Theorem load_aedat_v3_event_record (fuel : nat) (file : list byte)
  (events : Events) :
  load_aedat_v3 fuel file = Some (Aedat.Parsed events) ->
  EventRecord events 32768 32768.
Proof.
  unfold load_aedat_v3. destruct (Aedat.readline file) as [line f].
  destruct (Aedat.skip_header fuel line f); [|discriminate].
  apply read_packets_keeps_record.
  constructor; simpl; try reflexivity; constructor.
Qed.

Lemma load_aedat_v3_event_record_witness :
  EventRecord (mkEvents [1000] [5] [7] [1]) 32768 32768.
Proof.
  apply (load_aedat_v3_event_record 100 example_aedat).
  vm_compute. reflexivity.
Defined.

Lemma slice_nonempty {A : Type} (data : list A) (c e : Z) :
  0 <= c -> 0 <= e -> Np.slice data c (c + e) <> [] ->
  c < Np.size data /\ 0 < e.
Proof.
  intros Hc He Hne. unfold Np.slice, Np.slice_bound in Hne.
  destruct (Z.ltb_spec c 0); [lia|].
  destruct (Z.ltb_spec (c + e) 0); [lia|].
  pose proof (Zle_0_nat (length data)) as Hn. fold (Np.size data) in Hn.
  destruct (Z.le_gt_cases (Np.size data) c) as [Hge|Hlt].
  - exfalso. apply Hne.
    replace (Z.to_nat (Z.min (c + e) (Np.size data) - Z.min c (Np.size data)))
      with 0%nat by lia. reflexivity.
  - split; [exact Hlt|].
    destruct (Z.eq_dec e 0) as [->|]; [|lia].
    exfalso. apply Hne. rewrite Z.add_0_r, Z.sub_diag. reflexivity.
Qed.

Lemma read_events_returns (e_size e_tsoverflow : Z) (data : list byte)
  (fuel : nat) :
  0 <= e_size ->
  forall counter txyp,
    0 <= counter ->
    (Z.to_nat (Np.size data - counter) < fuel)%nat ->
    exists r,
      Aedat.read_events fuel e_size e_tsoverflow data counter txyp = Some r.
Proof.
  intros He. induction fuel as [|fuel IH]; intros counter txyp Hc Hf; [lia|].
  cbn [Aedat.read_events].
  destruct (Np.slice data counter (counter + e_size)) as [|b l] eqn:Es;
    [eexists; reflexivity|].
  destruct (slice_nonempty data counter e_size Hc He) as [Hlt Hpos];
    [rewrite Es; discriminate|].
  destruct (Aedat.unpack_I (Np.slice data counter (counter + 4)));
    [|eexists; reflexivity].
  destruct (Aedat.unpack_I (Np.slice data (counter + 4) (counter + 8)));
    [|eexists; reflexivity].
  apply IH; lia.
Qed.

Lemma unpack_header_size_nonneg (header : list byte)
  (e_type e_source e_size e_offset e_tsoverflow e_capacity e_number e_valid : Z) :
  Aedat.unpack_header header
  = Aedat.Parsed (e_type, e_source, e_size, e_offset, e_tsoverflow,
                  e_capacity, e_number, e_valid) ->
  0 <= e_size.
Proof.
  unfold Aedat.unpack_header, Aedat.and_then.
  destruct (Aedat.unpack_H (Np.slice header 0 2)); [|discriminate].
  destruct (Aedat.unpack_H (Np.slice header 2 4)); [|discriminate].
  destruct (Aedat.unpack_I (Np.slice header 4 8)) as [sz|] eqn:Es;
    [|discriminate].
  destruct (Aedat.unpack_I (Np.slice header 8 12)); [|discriminate].
  destruct (Aedat.unpack_I (Np.slice header 12 16)); [|discriminate].
  destruct (Aedat.unpack_I (Np.slice header 16 20)); [|discriminate].
  destruct (Aedat.unpack_I (Np.slice header 20 24)); [|discriminate].
  destruct (Aedat.unpack_I (Np.slice header 24 28)); [|discriminate].
  intros E. inversion E. subst. eapply unpack_I_nonneg. exact Es.
Qed.

Lemma read_packets_returns (fuel : nat) :
  forall f txyp,
    (length f < fuel)%nat ->
    exists r, Aedat.read_packets fuel f txyp = Some r.
Proof.
  induction fuel as [|fuel IH]; intros f txyp Hf; [lia|].
  cbn [Aedat.read_packets Aedat.read].
  destruct (firstn (Z.to_nat 28) f) as [|b header] eqn:Eh;
    [eexists; reflexivity|].
  assert (Hrest : (length (skipn (Z.to_nat 28) f) < length f)%nat).
  { rewrite length_skipn. destruct f; [discriminate|]. simpl length.
    change (Z.to_nat 28) with 28%nat. lia. }
  destruct (Aedat.unpack_header (b :: header))
    as [[[[[[[[e_type e_source] e_size] e_offset] e_tsoverflow] e_capacity]
           e_number] e_valid]|] eqn:Eu; [|eexists; reflexivity].
  pose proof (unpack_header_size_nonneg _ _ _ _ _ _ _ _ _ Eu) as Hsz.
  set (f1 := skipn (Z.to_nat 28) f) in *.
  assert (Hf2 : (length (skipn (Z.to_nat (e_capacity * e_size)) f1) < fuel)%nat)
    by (rewrite length_skipn; lia).
  destruct (e_type =? 1); [|apply IH; exact Hf2].
  destruct (read_events_returns e_size e_tsoverflow
              (firstn (Z.to_nat (e_capacity * e_size)) f1) fuel Hsz 0 txyp)
    as ([txyp'|] & Er); [lia| | |].
  - unfold Np.size. rewrite length_firstn. lia.
  - rewrite Er. apply IH. exact Hf2.
  - rewrite Er. eexists; reflexivity.
Qed.

Lemma readline_length (f : list byte) :
  (length (snd (Aedat.readline f)) <= length f)%nat /\
  (f <> [] -> (length (snd (Aedat.readline f)) < length f)%nat).
Proof.
  induction f as [|b f IH]; simpl; [split; [lia|congruence]|].
  destruct (Byte.eqb b x0a); simpl; [split; lia|].
  destruct (Aedat.readline f) as [line rest]. simpl in *. split; lia.
Qed.

Lemma skip_header_returns (fuel : nat) :
  forall line f,
    (length f + 1 < fuel)%nat ->
    exists f', Aedat.skip_header fuel line f = Some f' /\
               (length f' <= length f)%nat.
Proof.
  induction fuel as [|fuel IH]; intros line f Hf; [lia|].
  cbn [Aedat.skip_header].
  destruct (Aedat.startswith_hash line); [|exists f; split; [reflexivity|lia]].
  destruct (list_eq_dec byte_eq_dec line Aedat.end_header);
    [exists f; split; [reflexivity|lia]|].
  destruct (Aedat.readline f) as [line' f'] eqn:Er.
  pose proof (readline_length f) as [Hle Hlt]. rewrite Er in Hle, Hlt.
  simpl in Hle, Hlt.
  destruct f as [|b f].
  - simpl in Er. inversion Er. subst line' f'.
    destruct fuel as [|fuel]; [simpl in Hf; lia|].
    exists []. split; [reflexivity|lia].
  - specialize (Hlt ltac:(discriminate)).
    destruct (IH line' f' ltac:(lia)) as (r & Er' & Hr).
    exists r. split; [exact Er'|lia].
Qed.

(** X23: the three loops of the decoder always come to an end, whatever
    the bytes of the file (also when a packet announces events of size 0
    or more data than the file holds): with [len(file) + 2] units of fuel
    or more none of them runs out of fuel. *)
Theorem load_aedat_v3_terminates (fuel : nat) (file : list byte) :
  (length file + 2 <= fuel)%nat ->
  exists outcome, load_aedat_v3 fuel file = Some outcome.
Proof.
  intros Hf. unfold load_aedat_v3.
  destruct (Aedat.readline file) as [line f] eqn:Er.
  pose proof (readline_length file) as [Hle _]. rewrite Er in Hle.
  simpl in Hle.
  destruct (skip_header_returns fuel line f ltac:(lia)) as (f' & Es & Hf').
  rewrite Es. apply read_packets_returns. lia.
Qed.

Lemma load_aedat_v3_terminates_witness :
  exists outcome, load_aedat_v3 200 example_aedat = Some outcome.
Proof.
  apply (load_aedat_v3_terminates 200 example_aedat).
  apply Nat.leb_le. vm_compute. reflexivity.
Defined.

Lemma byte_eqb_false (a b : byte) : a <> b -> Byte.eqb a b = false.
Proof.
  intros Hne. destruct (Byte.eqb a b) eqn:E; [|reflexivity].
  apply byte_dec_bl in E. contradiction.
Qed.

Lemma readline_line (pre rest : list byte) :
  ~ In x0a pre ->
  Aedat.readline (pre ++ x0a :: rest) = (pre ++ [x0a], rest).
Proof.
  induction pre as [|b pre IH]; intros Hn; [reflexivity|].
  cbn [app Aedat.readline].
  rewrite byte_eqb_false by (intros ->; apply Hn; now left).
  rewrite IH by (intros Hin; apply Hn; now right). reflexivity.
Qed.

Lemma readline_end_header (rest : list byte) :
  Aedat.readline (Aedat.end_header ++ rest) = (Aedat.end_header, rest).
Proof. reflexivity. Qed.

Lemma readline_comment (line rest : list byte) :
  comment_line line -> Aedat.readline (line ++ rest) = (line, rest).
Proof.
  intros [(body & -> & Hn) _].
  change (x23 :: body ++ [x0a]) with ((x23 :: body) ++ [x0a]).
  rewrite <- app_assoc. cbn [app].
  change (x23 :: body ++ x0a :: rest) with ((x23 :: body) ++ x0a :: rest).
  apply readline_line. intros [E|Hin]; [discriminate E|contradiction].
Qed.

(** The header loop on a header made of comment lines and the
    end-of-header line leaves exactly what follows the header. *)
Lemma skip_header_lines (lines : list (list byte)) (rest : list byte) :
  Forall comment_line lines ->
  forall fuel, (length lines < fuel)%nat ->
    (let '(line, f) := Aedat.readline (concat lines ++ Aedat.end_header ++ rest)
     in Aedat.skip_header fuel line f) = Some rest.
Proof.
  induction 1 as [|line lines Hline Hlines IH]; intros fuel Hf.
  - cbn [concat app]. rewrite readline_end_header.
    destruct fuel as [|fuel]; [lia|]. cbn [Aedat.skip_header].
    change (Aedat.startswith_hash Aedat.end_header) with true. cbv iota.
    destruct (list_eq_dec byte_eq_dec Aedat.end_header Aedat.end_header);
      [reflexivity|contradiction].
  - cbn [concat]. rewrite <- app_assoc, (readline_comment line) by exact Hline.
    destruct fuel as [|fuel]; [lia|]. cbn [Aedat.skip_header].
    destruct Hline as [(body & Eb & Hn) Hne].
    assert (Hs : Aedat.startswith_hash line = true) by (rewrite Eb; reflexivity).
    rewrite Hs.
    destruct (list_eq_dec byte_eq_dec line Aedat.end_header); [contradiction|].
    apply IH. simpl in Hf. lia.
Qed.

Lemma slice_middle {A : Type} (pre mid post : list A) (lo hi : Z) :
  lo = Np.size pre -> hi = lo + Np.size mid ->
  Np.slice (pre ++ mid ++ post) lo hi = mid.
Proof.
  intros -> ->. unfold Np.size.
  rewrite slice_in_range
    by (unfold Np.size; rewrite ?length_app; lia).
  replace (Z.to_nat (Z.of_nat (length pre) + Z.of_nat (length mid)
                     - Z.of_nat (length pre))) with (length mid) by lia.
  rewrite Nat2Z.id, skipn_app, skipn_all, Nat.sub_diag. cbn [app skipn].
  rewrite firstn_app, firstn_all, Nat.sub_diag. cbn [firstn]. apply app_nil_r.
Qed.

Lemma unpack_I_word (w : byte * byte * byte * byte) :
  Aedat.unpack_I (word_bytes w) = Aedat.Parsed (word_value w).
Proof. destruct w as [[[b0 b1] b2] b3]. reflexivity. Qed.

Lemma event_bytes_length (e : PolarityEvent) : length (event_bytes e) = 8%nat.
Proof. destruct e as [[[[a0 a1] a2] a3] [[[t0 t1] t2] t3]]. reflexivity. Qed.

(** The event loop on data made of whole events appends them all. *)
Lemma read_events_recorded (e_tsoverflow : Z) (events : list PolarityEvent) :
  forall (pre : list byte) (txyp : Events) (fuel : nat),
    (length events < fuel)%nat ->
    Aedat.read_events fuel 8 e_tsoverflow (pre ++ flat_map event_bytes events)
      (Np.size pre) txyp
    = Some (Aedat.Parsed (fold_left (append_event e_tsoverflow) events txyp)).
Proof.
  induction events as [|e events IH]; intros pre txyp fuel Hf;
    (destruct fuel as [|fuel]; [simpl in Hf; lia|]); cbn [Aedat.read_events].
  - cbn [flat_map]. rewrite app_nil_r.
    assert (E : Np.slice pre (Np.size pre) (Np.size pre + 8) = []).
    { unfold Np.slice, Np.slice_bound.
      pose proof (Zle_0_nat (length pre)) as Hn. fold (Np.size pre) in Hn.
      destruct (Z.ltb_spec (Np.size pre) 0); [lia|].
      destruct (Z.ltb_spec (Np.size pre + 8) 0); [lia|].
      rewrite !Z.min_r by lia. now rewrite Z.sub_diag. }
    rewrite E. reflexivity.
  - cbn [flat_map fold_left].
    assert (E8 : Np.slice (pre ++ event_bytes e ++ flat_map event_bytes events)
                   (Np.size pre) (Np.size pre + 8) = event_bytes e).
    { apply slice_middle; [reflexivity|].
      unfold Np.size. rewrite event_bytes_length. lia. }
    assert (Ea : Np.slice (pre ++ event_bytes e ++ flat_map event_bytes events)
                   (Np.size pre) (Np.size pre + 4) = word_bytes (fst e)).
    { unfold event_bytes. rewrite <- app_assoc.
      apply slice_middle; [reflexivity|].
      destruct e as [[[[a0 a1] a2] a3] w]. reflexivity. }
    assert (Et : Np.slice (pre ++ event_bytes e ++ flat_map event_bytes events)
                   (Np.size pre + 4) (Np.size pre + 8) = word_bytes (snd e)).
    { unfold event_bytes. rewrite <- app_assoc.
      rewrite (app_assoc pre (word_bytes (fst e))).
      apply slice_middle.
      - unfold Np.size. rewrite length_app.
        destruct e as [[[[a0 a1] a2] a3] w]. simpl length. lia.
      - destruct e as [w [[[t0 t1] t2] t3]]. unfold Np.size. simpl length. lia. }
    rewrite E8, Ea, Et, !unpack_I_word.
    assert (Hne : exists b l, event_bytes e = b :: l)
      by (destruct e as [[[[a0 a1] a2] a3] w]; eexists; eexists; reflexivity).
    destruct Hne as (b & l & Eb). rewrite Eb at 1. cbv iota.
    rewrite (app_assoc pre (event_bytes e)).
    replace (Np.size pre + 8) with (Np.size (pre ++ event_bytes e))
      by (unfold Np.size; rewrite length_app, event_bytes_length; lia).
    rewrite IH by (simpl in Hf; lia). reflexivity.
Qed.

Lemma read_packet_header (pk : Packet) (more : list byte) :
  exists b header,
    Aedat.read 28 (packet_bytes pk ++ more)
    = (b :: header, pk_data pk ++ more) /\
    Aedat.unpack_header (b :: header)
    = Aedat.Parsed
        (half_value (pk_type pk), half_value (pk_source pk),
         word_value (pk_size pk), word_value (pk_offset pk),
         word_value (pk_tsoverflow pk), word_value (pk_capacity pk),
         word_value (pk_number pk), word_value (pk_valid pk)).
Proof.
  destruct pk as [[t0 t1] [s0 s1] [[[z0 z1] z2] z3] [[[o0 o1] o2] o3]
                  [[[v0 v1] v2] v3] [[[c0 c1] c2] c3] [[[n0 n1] n2] n3]
                  [[[d0 d1] d2] d3] data].
  eexists. eexists. split; reflexivity.
Qed.

Lemma read_exact (data more : list byte) (n : Z) :
  Z.of_nat (length data) = n ->
  Aedat.read n (data ++ more) = (data, more).
Proof.
  intros <-. unfold Aedat.read. rewrite Nat2Z.id.
  rewrite firstn_app, firstn_all, Nat.sub_diag.
  rewrite skipn_app, skipn_all, Nat.sub_diag. cbn [firstn skipn app].
  now rewrite app_nil_r.
Qed.

Lemma flat_events_length (events : list PolarityEvent) :
  Z.of_nat (length (flat_map event_bytes events))
  = Z.of_nat (length events) * 8.
Proof.
  induction events as [|e events IH]; [reflexivity|].
  cbn [flat_map]. rewrite length_app, event_bytes_length.
  simpl length. lia.
Qed.

(** The packet loop on whole packets, followed by bytes [tail] on which it
    ends with [R]. *)
Lemma read_packets_recorded (tail : list byte)
  (R : Events -> Aedat.parse Events) :
  (forall fuel txyp, (length tail < fuel)%nat ->
     Aedat.read_packets fuel tail txyp = Some (R txyp)) ->
  forall packets, Forall recorded packets ->
  forall txyp fuel,
    (length (flat_map (fun pe => packet_bytes (fst pe)) packets ++ tail)
     < fuel)%nat ->
    Aedat.read_packets fuel
      (flat_map (fun pe => packet_bytes (fst pe)) packets ++ tail) txyp
    = Some (R (fold_left append_packet packets txyp)).
Proof.
  intros Htail. induction 1 as [|[pk events] packets Hrec Hall IH];
    intros txyp fuel Hf.
  - cbn [flat_map app fold_left]. apply Htail. exact Hf.
  - cbn [flat_map fst fold_left] in *. rewrite <- app_assoc in *.
    destruct fuel as [|fuel]; [lia|]. cbn [Aedat.read_packets].
    destruct (read_packet_header pk
                (flat_map (fun pe => packet_bytes (fst pe)) packets ++ tail))
      as (b & header & Er & Eu).
    rewrite Er. cbv iota beta. rewrite Eu. cbv iota beta.
    assert (Hlen : (length (packet_bytes pk) >= 28 + length (pk_data pk))%nat).
    { destruct pk as [[t0 t1] [s0 s1] [[[z0 z1] z2] z3] [[[o0 o1] o2] o3]
                      [[[v0 v1] v2] v3] [[[c0 c1] c2] c3] [[[n0 n1] n2] n3]
                      [[[d0 d1] d2] d3] data].
      unfold packet_bytes. cbn [pk_type pk_source pk_size pk_offset
        pk_tsoverflow pk_capacity pk_number pk_valid pk_data half_bytes
        word_bytes app]. simpl length. lia. }
    rewrite length_app in Hf.
    destruct Hrec as [(Ht & Hs & Hc & Hd)|((Ht & Hd) & He)]; cbn [fst snd] in *.
    + rewrite read_exact
        by (rewrite Hd, flat_events_length, Hc, Hs; reflexivity).
      rewrite Ht. change (1 =? 1) with true. cbv iota.
      rewrite Hs, Hd.
      pose proof (read_events_recorded
                    (word_value (pk_tsoverflow pk)) events [] txyp fuel) as Hev.
      cbn [app] in Hev. change (Np.size (@nil byte)) with 0 in Hev.
      rewrite Hev.
      * apply IH. lia.
      * pose proof (flat_events_length events) as Hfl. rewrite <- Hd in Hfl.
        lia.
    + rewrite read_exact by exact Hd.
      destruct (Z.eqb_spec (half_value (pk_type pk)) 1); [contradiction|].
      subst events. cbn [append_packet fold_left snd].
      apply IH. lia.
Qed.

Lemma comment_lines_length (lines : list (list byte)) :
  Forall comment_line lines -> (length lines <= length (concat lines))%nat.
Proof.
  induction 1 as [|line lines [(body & -> & _) _] _ IH]; [simpl; lia|].
  cbn [concat]. rewrite length_app. simpl length. lia.
Qed.

(** X24: a file made of an ascii header (comment lines, then the
    end-of-header line) and whole packets decodes to the polarity events
    of the packets of type 1, in file order: for each event
    [x = (addr >> 17) & 0x7FFF], [y = (addr >> 2) & 0x7FFF],
    [p = (addr >> 1) & 1] and [t = low | overflow << 31] with the overflow
    of its packet; packets of another type add nothing. *)
Theorem load_aedat_v3_decodes (lines : list (list byte))
  (packets : list (Packet * list PolarityEvent)) (fuel : nat) :
  Forall comment_line lines -> Forall recorded packets ->
  (length (aedat_file lines packets) + 2 <= fuel)%nat ->
  load_aedat_v3 fuel (aedat_file lines packets)
  = Some (Aedat.Parsed (fold_left append_packet packets (mkEvents [] [] [] []))).
Proof.
  intros Hlines Hpackets Hf. unfold load_aedat_v3, aedat_file in *.
  pose proof (comment_lines_length lines Hlines) as Hl.
  rewrite !length_app in Hf.
  pose proof (skip_header_lines lines
                (flat_map (fun pe => packet_bytes (fst pe)) packets)
                Hlines fuel ltac:(lia)) as Hs.
  destruct (Aedat.readline _) as [line f]. rewrite Hs.
  rewrite <- (app_nil_r (flat_map _ packets)).
  apply (read_packets_recorded [] Aedat.Parsed).
  - intros fuel' txyp Hf'. destruct fuel' as [|fuel']; [simpl in Hf'; lia|].
    reflexivity.
  - exact Hpackets.
  - rewrite app_nil_r. lia.
Qed.

Lemma example_lines_comment : Forall comment_line example_lines.
Proof.
  repeat constructor.
  - exists (list_byte_of_string "!AER-DAT3.1" ++ [x0d]). split; [reflexivity|].
    vm_compute. intros H.
    repeat (destruct H as [H|H]; [discriminate H|]). exact H.
  - discriminate.
Defined.

Lemma example_packets_recorded : Forall recorded example_packets.
Proof.
  apply Forall_cons; [|apply Forall_cons; [|apply Forall_nil]].
  - left. repeat split.
  - right. repeat split. vm_compute. discriminate.
Defined.

Lemma load_aedat_v3_decodes_witness :
  load_aedat_v3 100 (aedat_file example_lines example_packets)
  = Some (Aedat.Parsed
            (fold_left append_packet example_packets (mkEvents [] [] [] []))).
Proof.
  apply (load_aedat_v3_decodes example_lines example_packets 100).
  - exact example_lines_comment.
  - exact example_packets_recorded.
  - apply Nat.leb_le. vm_compute. reflexivity.
Defined.

Lemma read_packets_short_header (tail : list byte) :
  (1 <= length tail <= 27)%nat ->
  forall fuel txyp, (length tail < fuel)%nat ->
    Aedat.read_packets fuel tail txyp = Some Aedat.StructError.
Proof.
  intros Hl fuel txyp Hf. destruct fuel as [|fuel]; [lia|].
  cbn [Aedat.read_packets].
  assert (Hr : Aedat.read 28 tail = (tail, [])).
  { unfold Aedat.read. change (Z.to_nat 28) with 28%nat.
    rewrite firstn_all2, skipn_all2 by lia. reflexivity. }
  rewrite Hr. cbv iota beta.
  destruct tail as [|b tail]; [simpl in Hl; lia|].
  assert (Hu : Aedat.unpack_header (b :: tail) = Aedat.StructError).
  { simpl in Hl. clear Hr Hf.
    do 27 (destruct tail as [|? tail]; [reflexivity|]).
    simpl in Hl. lia. }
  now rewrite Hu.
Qed.

(** X25: a file that ends inside a packet header is not decoded: 1 to 27
    bytes after a well-formed header and whole packets make
    [load_aedat_v3] raise [struct.error], whatever was decoded before. *)
Theorem load_aedat_v3_partial_header (lines : list (list byte))
  (packets : list (Packet * list PolarityEvent)) (tail : list byte)
  (fuel : nat) :
  Forall comment_line lines -> Forall recorded packets ->
  (1 <= length tail <= 27)%nat ->
  (length (aedat_file lines packets ++ tail) + 2 <= fuel)%nat ->
  load_aedat_v3 fuel (aedat_file lines packets ++ tail)
  = Some Aedat.StructError.
Proof.
  intros Hlines Hpackets Ht Hf. unfold load_aedat_v3, aedat_file in *.
  pose proof (comment_lines_length lines Hlines) as Hl.
  rewrite <- !app_assoc in *. rewrite !length_app in Hf.
  pose proof (skip_header_lines lines
                (flat_map (fun pe => packet_bytes (fst pe)) packets ++ tail)
                Hlines fuel ltac:(lia)) as Hs.
  destruct (Aedat.readline _) as [line f]. rewrite Hs.
  apply (read_packets_recorded tail (fun _ => Aedat.StructError)).
  - intros fuel' txyp Hf'. now apply read_packets_short_header.
  - exact Hpackets.
  - rewrite length_app. lia.
Qed.

Lemma load_aedat_v3_partial_header_witness :
  load_aedat_v3 100 (aedat_file example_lines example_packets ++ [x01; x00])
  = Some Aedat.StructError.
Proof.
  apply (load_aedat_v3_partial_header example_lines example_packets
           [x01; x00] 100).
  - exact example_lines_comment.
  - exact example_packets_recorded.
  - simpl. lia.
  - apply Nat.leb_le. vm_compute. reflexivity.
Defined.
